(** * EIA electricity demand, bronze ingestion: the fetcher and the normalizer

    A shallow embedding of [eia_bronze_ingestion.py]:

    - [Py]: the Python objects that [response.json()] produces and the
      builtins the notebook applies to them ([in], [[]], [list.extend],
      [int], [len]), each with the exception it raises;
    - [Http]: the request parameters, the response and the world a request
      is sent to;
    - [Fetch]: [fetch_eia_electricity_demand] and the loop over [REGIONS];
    - [Servers]: servers to run the fetcher against;
    - [Spark]: the fragment of the DataFrame API used by [df_bronze];
    - [Bronze]: the [df_bronze] pipeline itself, and the normalizer as the
      specification words it;
    - [Reference]: the engine's string conversions, after the JVM
      libraries that compute them;
    - [Numeric]: the numeric strings as a grammar, each with the double
      it denotes.

    Strings are [string]s with one [ascii] per character. Integers are
    Python's, unbounded, hence [Z]; doubles are binary64 as [spec_float].
    The [while True] loop runs on fuel: [OutOfFuel] for every amount of
    fuel is a loop that never ends. *)

From Stdlib Require Import ZArith String Ascii List Bool Lia.
From Stdlib Require Import Floats.SpecFloat DecimalString.
Import ListNotations.

Local Open Scope string_scope.
Local Open Scope list_scope.
Local Open Scope Z_scope.

Set Warnings "-register-all".

(** ** Results of fallible operations *)

(** The exceptions the notebook's expressions can raise. The last one is
    not an exception of the program: [NotModelled] marks an input whose
    treatment by a library this development does not describe. *)
Inductive exn : Type :=
| JSONDecodeError
| TypeError
| KeyError (key : string)
| ValueError
| OverflowError
| AnalysisException
| SparkUpgradeException
| NotModelled.

(** A pure computation either yields a value or raises. *)
Inductive res (A : Type) : Type :=
| Val (a : A)
| Exc (e : exn).
Arguments Val {A} a.
Arguments Exc {A} e.

Definition res_bind {A B} (r : res A) (k : A -> res B) : res B :=
  match r with
  | Val a => k a
  | Exc e => Exc e
  end.

Declare Scope res_scope.
Delimit Scope res_scope with res.
Notation "x <- c ;; k" := (res_bind c (fun x => k))
  (at level 61, c at next level, right associativity) : res_scope.

(** ** Python objects and builtins *)

Module Py.

(** What [json.loads] can return: JSON object keys are always [str]. A
    [dict] is an association list read at its first binding of a key. *)
Inductive obj : Type :=
| None_
| Bool (b : bool)
| Int (z : Z)
| Float (f : spec_float)
| Str (s : string)
| List (l : list obj)
| Dict (d : list (string * obj)).

Fixpoint lookup (key : string) (d : list (string * obj)) : option obj :=
  match d with
  | [] => None
  | (k, v) :: d' => if String.eqb k key then Some v else lookup key d'
  end.

(** The keys of a dict in iteration order, each once. *)
Fixpoint keys (d : list (string * obj)) : list string :=
  match d with
  | [] => []
  | (k, _) :: d' =>
      k :: filter (fun k' => negb (String.eqb k k')) (keys d')
  end.

(** [sub in s] on two [str]. *)
Fixpoint is_substring (sub s : string) : bool :=
  String.prefix sub s
  || match s with
     | EmptyString => false
     | String _ s' => is_substring sub s'
     end.

Definition is_str (key : string) (o : obj) : bool :=
  match o with
  | Str s => String.eqb s key
  | _ => false
  end.

(** [key in o], for a [str] key. *)
Definition contains (key : string) (o : obj) : res bool :=
  match o with
  | Dict d => Val (match lookup key d with Some _ => true | None => false end)
  | List l => Val (existsb (is_str key) l)
  | Str s => Val (is_substring key s)
  | None_ | Bool _ | Int _ | Float _ => Exc TypeError
  end.

(** [key not in o]. *)
Definition not_in (key : string) (o : obj) : res bool :=
  res_bind (contains key o) (fun b => Val (negb b)).

(** [o[key]], for a [str] key. *)
Definition getitem (o : obj) (key : string) : res obj :=
  match o with
  | Dict d =>
      match lookup key d with
      | Some v => Val v
      | None => Exc (KeyError key)
      end
  | _ => Exc TypeError
  end.

Fixpoint chars (s : string) : list obj :=
  match s with
  | EmptyString => []
  | String c s' => Str (String c EmptyString) :: chars s'
  end.

(** The items [iter(o)] yields. *)
Definition iterate (o : obj) : res (list obj) :=
  match o with
  | List l => Val l
  | Dict d => Val (map Str (keys d))
  | Str s => Val (chars s)
  | None_ | Bool _ | Int _ | Float _ => Exc TypeError
  end.

(** [l.extend(o)]: the list after the call. *)
Definition extend (l : list obj) (o : obj) : res (list obj) :=
  res_bind (iterate o) (fun items => Val (l ++ items)).

(** [len(l)] of a list. *)
Definition len (l : list obj) : Z := Z.of_nat (length l).

(** *** [int] *)

(** The white space [int] skips at both ends of a [str]. *)
Definition is_space (c : ascii) : bool :=
  let n := Z.of_nat (nat_of_ascii c) in
  ((9 <=? n) && (n <=? 13)) || (n =? 32) || (n =? 133) || (n =? 160).

Fixpoint lstrip (s : string) : string :=
  match s with
  | String c s' => if is_space c then lstrip s' else s
  | EmptyString => EmptyString
  end.

Fixpoint rstrip (s : string) : string :=
  match s with
  | EmptyString => EmptyString
  | String c s' =>
      match rstrip s' with
      | EmptyString => if is_space c then EmptyString else String c EmptyString
      | t => String c t
      end
  end.

Definition strip (s : string) : string := rstrip (lstrip s).

Definition digit_of (c : ascii) : option Z :=
  let n := Z.of_nat (nat_of_ascii c) in
  if (48 <=? n) && (n <=? 57) then Some (n - 48) else None.

(** Decimal digits with single underscores between them; [acc] is the
    value read so far and [after_digit] says whether the previous
    character was a digit. *)
Fixpoint int_digits (s : string) (acc : Z) (after_digit : bool) : option Z :=
  match s with
  | EmptyString => if after_digit then Some acc else None
  | String c s' =>
      match digit_of c with
      | Some d => int_digits s' (10 * acc + d) true
      | None =>
          if Ascii.eqb c "_" && after_digit then
            match s' with
            | EmptyString => None
            | String c' _ =>
                match digit_of c' with
                | Some _ => int_digits s' acc false
                | None => None
                end
            end
          else None
      end
  end.

(** [int(s)] for a [str] in base 10. The cap that recent interpreters put
    on the number of digits (4300 by default) is left out. *)
Definition int_of_str (s : string) : res Z :=
  let body := strip s in
  let signed :=
    match body with
    | String "-" t => (true, t)
    | String "+" t => (false, t)
    | _ => (false, body)
    end in
  match int_digits (snd signed) 0 false with
  | Some n => Val (if fst signed then - n else n)
  | None => Exc ValueError
  end.

(** [int(f)] for a [float]: truncation toward zero. *)
Definition int_of_float (f : spec_float) : res Z :=
  match f with
  | S754_zero _ => Val 0
  | S754_finite s m e =>
      let a := if 0 <=? e then Z.pos m * 2 ^ e else Z.pos m / 2 ^ (- e) in
      Val (if s then - a else a)
  | S754_infinity _ => Exc OverflowError
  | S754_nan => Exc ValueError
  end.

(** [int(o)]. *)
Definition int (o : obj) : res Z :=
  match o with
  | Int z => Val z
  | Bool b => Val (if b then 1 else 0)
  | Float f => int_of_float f
  | Str s => int_of_str s
  | None_ | List _ | Dict _ => Exc TypeError
  end.

End Py.

(** ** HTTP requests and responses *)

Module Http.

(** The [params] dict of [fetch_eia_electricity_demand], one field per
    key ("data[0]", "facets[respondent][]", ..., "end", "length" in the
    source). *)
Record params : Type := {
  api_key : string;
  frequency : string;
  data_0 : string;
  facets_respondent : string;
  facets_type : string;
  start : string;
  end_ : string;
  sort_0_column : string;
  sort_0_direction : string;
  offset : Z;
  length_ : Z
}.

(** [params['offset'] = v] *)
Definition set_offset (p : params) (v : Z) : params :=
  {| api_key := api_key p; frequency := frequency p; data_0 := data_0 p;
     facets_respondent := facets_respondent p; facets_type := facets_type p;
     start := start p; end_ := end_ p;
     sort_0_column := sort_0_column p; sort_0_direction := sort_0_direction p;
     offset := v; length_ := length_ p |}.

(** What [requests.get] returns: [body] is the decoded payload, [None]
    when the text is not JSON. *)
Record response : Type := {
  status_code : Z;
  text : string;
  body : option Py.obj
}.

(** [response.json()] *)
Definition json (r : response) : res Py.obj :=
  match body r with
  | Some o => Val o
  | None => Exc JSONDecodeError
  end.

(** A server answers a request from its current state and moves to a new
    state. Every request gets a response: a transport failure, on which
    [requests.get] itself raises, is not part of this model. *)
Definition handler (server : Type) : Type :=
  server -> string -> params -> server * response.

(** The world a request is sent to: the server's state and the requests
    sent so far, oldest first. *)
Record world (server : Type) : Type := {
  srv : server;
  sent : list (string * params)
}.
Arguments srv {server} w.
Arguments sent {server} w.

End Http.

(** ** Effectful computations *)

(** How a call ends: with a value, with an exception, or not at all within
    the iterations allowed. *)
Inductive outcome (A : Type) : Type :=
| Done (a : A)
| Raised (e : exn)
| OutOfFuel.
Arguments Done {A} a.
Arguments Raised {A} e.
Arguments OutOfFuel {A}.

Definition M (W A : Type) : Type := W -> outcome A * W.

Definition ret {W A} (a : A) : M W A := fun w => (Done a, w).

Definition bind {W A B} (c : M W A) (k : A -> M W B) : M W B :=
  fun w =>
    match c w with
    | (Done a, w') => k a w'
    | (Raised e, w') => (Raised e, w')
    | (OutOfFuel, w') => (OutOfFuel, w')
    end.

Definition lift {W A} (r : res A) : M W A :=
  fun w =>
    match r with
    | Val a => (Done a, w)
    | Exc e => (Raised e, w)
    end.

Declare Scope monad_scope.
Delimit Scope monad_scope with monad.
Notation "x <- c ;; k" := (bind c (fun x => k))
  (at level 61, c at next level, right associativity) : monad_scope.
Notation "' pat <- c ;; k" := (bind c (fun x => match x with pat => k end))
  (at level 61, pat pattern, c at next level, right associativity) : monad_scope.

(** ** The paginated fetcher *)

Module Fetch.
Import Http.

Local Open Scope monad_scope.

(** How one iteration of [while True] ends. *)
Inductive flow : Type := Break | Continue.

(** The locals that live across iterations. *)
Record locals : Type := {
  params_ : params;
  all_data : list Py.obj
}.

Definition url : string :=
  "https://api.eia.gov/v2/electricity/rto/daily-region-data/data/".

Section Server.

Context {server : Type} (handle : handler server).

(** The world once the request [(u, p)] has been answered and the server
    is in state [s']. *)
Definition after_request (w : world server) (s' : server) (u : string)
    (p : params) : world server :=
  {| srv := s'; sent := sent w ++ [(u, p)] |}.

(** [requests.get(url, params=params)] *)
Definition requests_get (u : string) (p : params) : M (world server) response :=
  fun w =>
    let '(s', r) := handle (srv w) u p in
    (Done r, after_request w s' u p).

(** The body of the [while True] loop, lines 72-93. *)
Definition loop_body (l : locals) : M (world server) (flow * locals) :=
  response <- requests_get url (params_ l) ;;
  if negb (status_code response =? 200) then ret (Break, l)
  else
    json_data <- lift (json response) ;;
    no_container <-
      (no_response <- lift (Py.not_in "response" json_data) ;;
       if no_response : bool then ret true
       else
         r <- lift (Py.getitem json_data "response") ;;
         lift (Py.not_in "data" r)) ;;
    if no_container : bool then ret (Break, l)
    else
      r <- lift (Py.getitem json_data "response") ;;
      data <- lift (Py.getitem r "data") ;;
      all_data' <- lift (Py.extend (all_data l) data) ;;
      r <- lift (Py.getitem json_data "response") ;;
      t <- lift (Py.getitem r "total") ;;
      total <- lift (Py.int t) ;;
      let l' := {| params_ := params_ l; all_data := all_data' |} in
      if Py.len all_data' >=? total then ret (Break, l')
      else
        ret (Continue,
             {| params_ := set_offset (params_ l) (offset (params_ l) + 5000);
                all_data := all_data' |}).

(** [while True: ...], run for at most [fuel] iterations. *)
Fixpoint while_true (fuel : nat) (l : locals) : M (world server) locals :=
  match fuel with
  | O => fun w => (OutOfFuel, w)
  | S fuel' =>
      ' (f, l') <- loop_body l ;;
      match f with
      | Break => ret l'
      | Continue => while_true fuel' l'
      end
  end.

Definition initial_params (api_key region start_date end_date : string) : params :=
  {| api_key := api_key;
     frequency := "daily";
     data_0 := "value";
     facets_respondent := region;
     facets_type := "D";
     start := start_date;
     end_ := end_date;
     sort_0_column := "period";
     sort_0_direction := "asc";
     offset := 0;
     length_ := 5000 |}.

(** The locals when the loop is entered, lines 55-69. *)
Definition initial_locals (api_key region start_date end_date : string) : locals :=
  {| params_ := initial_params api_key region start_date end_date;
     all_data := [] |}.

(** [fetch_eia_electricity_demand(api_key, region, start_date, end_date)].
    The two [print] calls write to the notebook's output only. *)
Definition fetch_eia_electricity_demand (fuel : nat)
    (api_key region start_date end_date : string)
  : M (world server) (list Py.obj) :=
  l <- while_true fuel (initial_locals api_key region start_date end_date) ;;
  ret (all_data l).

(** [for region in REGIONS: ...], lines 107-111, from the accumulator
    [all_region_data]. *)
Fixpoint ingest_regions (fuel : nat) (EIA_API_KEY : string)
    (regions : list string) (START_DATE END_DATE : string)
    (all_region_data : list Py.obj) : M (world server) (list Py.obj) :=
  match regions with
  | [] => ret all_region_data
  | region :: rest =>
      region_data <-
        fetch_eia_electricity_demand fuel EIA_API_KEY region START_DATE END_DATE ;;
      ingest_regions fuel EIA_API_KEY rest START_DATE END_DATE
        (all_region_data ++ region_data)
  end.

(** The loop states the fetch passes through: [reaches l0 w0 pages l w]
    when, started from [l0] in world [w0], the loop has completed one
    iteration per element of [pages], each ending at line 93 after
    appending that element to [all_data], and now is about to send the
    next request from [l] in world [w]. *)
Inductive reaches (l0 : locals) (w0 : world server)
  : list (list Py.obj) -> locals -> world server -> Prop :=
| reaches_start : reaches l0 w0 [] l0 w0
| reaches_next pages l w items l' w' :
    reaches l0 w0 pages l w ->
    loop_body l w = (Done (Continue, l'), w') ->
    all_data l' = all_data l ++ items ->
    reaches l0 w0 (pages ++ [items]) l' w'.

(** A fetch terminates when some number of iterations is enough for it to
    end, with a value or with an exception. *)
Definition terminates (api_key region start_date end_date : string)
    (w : world server) : Prop :=
  exists fuel o w',
    fetch_eia_electricity_demand fuel api_key region start_date end_date w
    = (o, w') /\ o <> OutOfFuel.

(** The cursor reading of the offset: whenever the loop is about to send
    a request, the offset it sends is the number of records accumulated. *)
Definition offset_is_record_count (l0 : locals) (w0 : world server) : Prop :=
  forall pages l w,
    reaches l0 w0 pages l w -> offset (params_ l) = Py.len (all_data l).

End Server.

(** A response that [loop_body] reads as a page: status 200 and a payload
    [{"response": {"data": [...], "total": t, ...}, ...}] whose [t]
    converts to the integer [total]. *)
Definition is_page (r : response) (recs : list Py.obj) (total : Z) : Prop :=
  status_code r = 200 /\
  exists json_data rsp t,
    body r = Some json_data /\
    Py.getitem json_data "response" = Val rsp /\
    Py.getitem rsp "data" = Val (Py.List recs) /\
    Py.getitem rsp "total" = Val t /\
    Py.int t = Val total.

Definition REGIONS : list string :=
  ["PJM"; "CISO"; "MISO"; "ERCO"; "SWPP"; "NYIS"; "ISNE"; "BPAT"; "FPL"; "TVA"].

Definition START_DATE : string := "2020-01-01".

End Fetch.

(** ** Servers to run the fetcher against *)

Module Servers.
Import Http.

(** One row as the API returns it. *)
Definition row (period respondent value : string) : Py.obj :=
  Py.Dict [("period", Py.Str period);
           ("respondent", Py.Str respondent);
           ("respondent-name", Py.Str "PJM Interconnection, LLC");
           ("type", Py.Str "D");
           ("type-name", Py.Str "Demand");
           ("value", Py.Str value);
           ("value-units", Py.Str "megawatthours")].

(** A 200 response carrying [payload]. *)
Definition ok (payload : Py.obj) : response :=
  {| status_code := 200; text := ""; body := Some payload |}.

Definition page (recs : list Py.obj) (total : Py.obj) : response :=
  ok (Py.Dict [("response", Py.Dict [("total", total); ("data", Py.List recs)])]).

(** A paginating API over the rows [recs] that match the query: it
    serves the rows from [offset] on, at most [length] and at most [cap]
    of them, and reports how many rows match in all. *)
Definition paged_server (cap : Z) (recs : list Py.obj) : handler unit :=
  fun s _ p =>
    (s, page (firstn (Z.to_nat (Z.min (length_ p) cap))
                     (skipn (Z.to_nat (offset p)) recs))
             (Py.Int (Py.len recs))).

(** A server that answers every request with the status [code] and a
    body that is not JSON. *)
Definition status_server (code : Z) : handler unit :=
  fun s _ _ => (s, {| status_code := code; text := "error"; body := None |}).

(** A server that answers every request with status 200 and [payload]. *)
Definition payload_server (payload : Py.obj) : handler unit :=
  fun s _ _ => (s, ok payload).

(** A server that counts the requests it has answered and serves one page
    with the rows [recs] first and the status 500 from then on. *)
Definition flaky_server (recs : list Py.obj) (total : Z) : handler nat :=
  fun n _ _ =>
    (S n, match n with
          | O => page recs (Py.Int total)
          | S _ => {| status_code := 500; text := "error"; body := None |}
          end).

Definition fresh {server : Type} (s : server) : world server :=
  {| srv := s; sent := [] |}.

Definition day1 : Py.obj := row "2024-01-01" "PJM" "101.5".
Definition day2 : Py.obj := row "2024-01-02" "PJM" "99".

(** Payloads that are JSON but not a page. *)
Definition error_payload : Py.obj :=
  Py.Dict [("error", Py.Str "Invalid api_key"); ("code", Py.Int 403)].

Definition no_total_payload : Py.obj :=
  Py.Dict [("response", Py.Dict [("data", Py.List [day1])])].

End Servers.

(** [f] on each item of [l] in order, up to the first that raises. *)
Fixpoint map_res {A B : Type} (f : A -> res B) (l : list A) : res (list B) :=
  match l with
  | [] => Val []
  | a :: l' =>
      match f a with
      | Val b =>
          match map_res f l' with
          | Val bs => Val (b :: bs)
          | Exc e => Exc e
          end
      | Exc e => Exc e
      end
  end.

(** ** The DataFrame API used by the notebook *)

Module Spark.

Local Open Scope res_scope.

Record date : Type := { year : Z; month : Z; day : Z }.

Inductive data_type : Type :=
| StringType
| IntegerType
| BooleanType
| DateType
| DoubleType
| TimestampType.

(** A SQL value; a timestamp is in microseconds since the epoch. *)
Inductive value : Type :=
| Null
| VString (s : string)
| VInteger (z : Z)
| VBoolean (b : bool)
| VDate (d : date)
| VDouble (f : spec_float)
| VTimestamp (t : Z).

(** The conversions the engine provides, with ANSI mode off and the
    time parser policy left at its default, EXCEPTION:
    - [parse_date pattern s] is [to_date(s, pattern)]: a date, null
      ([None]) when [s] is not a date under the pattern, or the
      exception the engine raises when only the parser of earlier
      versions reads [s];
    - [string_to_date] and [string_to_double] are the casts of a string
      to a date and to a double, null when the string is not one. *)
Class Engine : Type := {
  parse_date : string -> string -> res (option date);
  string_to_date : string -> option date;
  string_to_double : string -> option spec_float
}.

Record StructField : Type := {
  name : string;
  dataType : data_type;
  nullable : bool
}.

Definition StructType : Type := list StructField.

(** A DataFrame with its rows in order, each row a value per field. *)
Record DataFrame : Type := {
  schema : StructType;
  rows : list (list value)
}.

(** Column expressions. *)
Inductive column : Type :=
| Col (colName : string)
| Lit (v : value)
| Length (c : column)
| EqualTo (a b : column)
| CaseWhen (branches : list (column * column)) (else_ : option column)
| ToDate (c : column) (format : option string)
| Cast (c : column) (t : data_type)
| CurrentTimestamp
| Alias (c : column) (alias : string).

(** *** Names *)

Definition lower_ascii (c : ascii) : ascii :=
  let n := nat_of_ascii c in
  if (65 <=? n)%nat && (n <=? 90)%nat then ascii_of_nat (n + 32) else c.

Fixpoint lower (s : string) : string :=
  match s with
  | EmptyString => EmptyString
  | String c s' => String (lower_ascii c) (lower s')
  end.

(** Column names are resolved without regard to case. *)
Definition same_name (a b : string) : bool := String.eqb (lower a) (lower b).

Fixpoint positions (colName : string) (sch : StructType) (i : nat) : list nat :=
  match sch with
  | [] => []
  | f :: sch' =>
      if same_name (name f) colName
      then i :: positions colName sch' (S i)
      else positions colName sch' (S i)
  end.

(** The position of the one field called [colName]. *)
Definition resolve (colName : string) (sch : StructType) : res nat :=
  match positions colName sch 0 with
  | [i] => Val i
  | _ => Exc AnalysisException
  end.

(** *** Analysis *)

Definition data_type_eqb (a b : data_type) : bool :=
  match a, b with
  | StringType, StringType | IntegerType, IntegerType
  | BooleanType, BooleanType | DateType, DateType
  | DoubleType, DoubleType | TimestampType, TimestampType => true
  | _, _ => false
  end.

Definition type_of_value (v : value) : res data_type :=
  match v with
  | Null => Exc AnalysisException
  | VString _ => Val StringType
  | VInteger _ => Val IntegerType
  | VBoolean _ => Val BooleanType
  | VDate _ => Val DateType
  | VDouble _ => Val DoubleType
  | VTimestamp _ => Val TimestampType
  end.

Definition field_type (sch : StructType) (i : nat) : res data_type :=
  match nth_error sch i with
  | Some f => Val (dataType f)
  | None => Exc AnalysisException
  end.

(** The casts of the fragment: a type to itself and a string to a
    double. *)
Definition can_cast (from to : data_type) : bool :=
  data_type_eqb from to
  || match from, to with
     | StringType, DoubleType => true
     | _, _ => false
     end.

(** The type of an expression over [sch], or the analysis error. An
    expression is accepted only where its operands have the exact types
    it is defined on. *)
Fixpoint type_of (sch : StructType) (c : column) : res data_type :=
  match c with
  | Col colName => i <- resolve colName sch ;; field_type sch i
  | Lit v => type_of_value v
  | Length c' =>
      t <- type_of sch c' ;;
      if data_type_eqb t StringType then Val IntegerType
      else Exc AnalysisException
  | EqualTo a b =>
      ta <- type_of sch a ;;
      tb <- type_of sch b ;;
      if data_type_eqb ta tb then Val BooleanType else Exc AnalysisException
  | CaseWhen branches else_ =>
      let fix branch_types (bs : list (column * column)) : res (list data_type) :=
        match bs with
        | [] =>
            match else_ with
            | Some e => t <- type_of sch e ;; Val [t]
            | None => Val []
            end
        | (cond, v) :: bs' =>
            tc <- type_of sch cond ;;
            tv <- type_of sch v ;;
            ts <- branch_types bs' ;;
            if data_type_eqb tc BooleanType then Val (tv :: ts)
            else Exc AnalysisException
        end in
      ts <- branch_types branches ;;
      match ts, branches with
      | t :: ts', _ :: _ =>
          if forallb (data_type_eqb t) ts' then Val t else Exc AnalysisException
      | _, _ => Exc AnalysisException
      end
  | ToDate c' _ =>
      t <- type_of sch c' ;;
      if data_type_eqb t StringType then Val DateType
      else Exc AnalysisException
  | Cast c' t =>
      t' <- type_of sch c' ;;
      if can_cast t' t then Val t else Exc AnalysisException
  | CurrentTimestamp => Val TimestampType
  | Alias c' _ => type_of sch c'
  end.

(** Whether the expression can be null. *)
Fixpoint nullable_of (sch : StructType) (c : column) : bool :=
  match c with
  | Col colName =>
      match resolve colName sch with
      | Val i =>
          match nth_error sch i with
          | Some f => nullable f
          | None => true
          end
      | Exc _ => true
      end
  | Lit Null => true
  | Lit _ | CurrentTimestamp => false
  | Alias c' _ => nullable_of sch c'
  | _ => true
  end.

(** The name of a selected column; the fragment selects columns by name
    or under an alias. *)
Definition output_name (c : column) : res string :=
  match c with
  | Col colName => Val colName
  | Alias _ alias => Val alias
  | _ => Exc AnalysisException
  end.

(** *** Evaluation *)

Definition date_eqb (a b : date) : bool :=
  (year a =? year b) && (month a =? month b) && (day a =? day b).

Definition value_eqb (a b : value) : bool :=
  match a, b with
  | VString x, VString y => String.eqb x y
  | VInteger x, VInteger y => x =? y
  | VBoolean x, VBoolean y => Bool.eqb x y
  | VDate x, VDate y => date_eqb x y
  | VDouble x, VDouble y => SFeqb x y
  | VTimestamp x, VTimestamp y => x =? y
  | _, _ => false
  end.

(** A value that may be null. *)
Definition nullable_value {A : Type} (inj : A -> value) (o : option A) : value :=
  match o with
  | Some a => inj a
  | None => Null
  end.

Section Eval.

Context {engine : Engine}.

(** The time at which the query runs. *)
Variable now : Z.

(** The value of an expression on one row of a DataFrame with the schema
    [sch], or the exception its evaluation raises. Only [to_date] with a
    pattern can raise; a branch of a [CaseWhen] is evaluated only when it
    is the one chosen. *)
Fixpoint eval (sch : StructType) (row : list value) (c : column) : res value :=
  match c with
  | Col colName =>
      match resolve colName sch with
      | Val i => Val (nth i row Null)
      | Exc _ => Val Null
      end
  | Lit v => Val v
  | Length c' =>
      v <- eval sch row c' ;;
      match v with
      | VString s => Val (VInteger (Z.of_nat (String.length s)))
      | _ => Val Null
      end
  | EqualTo a b =>
      x <- eval sch row a ;;
      y <- eval sch row b ;;
      match x, y with
      | Null, _ | _, Null => Val Null
      | _, _ => Val (VBoolean (value_eqb x y))
      end
  | CaseWhen branches else_ =>
      let fix first_match (bs : list (column * column)) : res value :=
        match bs with
        | [] =>
            match else_ with
            | Some e => eval sch row e
            | None => Val Null
            end
        | (cond, v) :: bs' =>
            b <- eval sch row cond ;;
            match b with
            | VBoolean true => eval sch row v
            | _ => first_match bs'
            end
        end in
      first_match branches
  | ToDate c' format =>
      v <- eval sch row c' ;;
      match v with
      | VString s =>
          match format with
          | Some f => d <- parse_date f s ;; Val (nullable_value VDate d)
          | None => Val (nullable_value VDate (string_to_date s))
          end
      | _ => Val Null
      end
  | Cast c' t =>
      v <- eval sch row c' ;;
      match v, t with
      | VString s, DoubleType => Val (nullable_value VDouble (string_to_double s))
      | _, _ => Val v
      end
  | CurrentTimestamp => Val (VTimestamp now)
  | Alias c' _ => eval sch row c'
  end.

(** *** DataFrame operations

    An operation is given with the rows it yields when the DataFrame is
    evaluated in full, as the write of the table does; the exception is
    that of the first row whose evaluation raises. *)

(** [xs] with [x] at the positions of the fields called [colName]. *)
Fixpoint replace_named {A : Type} (colName : string) (sch : StructType)
    (xs : list A) (x : A) : list A :=
  match sch, xs with
  | f :: sch', y :: xs' =>
      (if same_name (name f) colName then x else y)
      :: replace_named colName sch' xs' x
  | _, _ => xs
  end.

(** [df.withColumn(colName, c)]: the column replaces the one of the same
    name or is added last. *)
Definition withColumn (colName : string) (c : column) (df : DataFrame)
  : res DataFrame :=
  t <- type_of (schema df) c ;;
  let field := {| name := colName; dataType := t; nullable := nullable_of (schema df) c |} in
  match positions colName (schema df) 0 with
  | [] =>
      rs <- map_res (fun row => v <- eval (schema df) row c ;; Val (row ++ [v]))
              (rows df) ;;
      Val {| schema := schema df ++ [field]; rows := rs |}
  | _ :: _ =>
      rs <- map_res (fun row =>
                       v <- eval (schema df) row c ;;
                       Val (replace_named colName (schema df) row v))
              (rows df) ;;
      Val {| schema := replace_named colName (schema df) (schema df) field;
             rows := rs |}
  end.

Fixpoint select_fields (sch : StructType) (cols : list column) : res StructType :=
  match cols with
  | [] => Val []
  | c :: cols' =>
      t <- type_of sch c ;;
      n <- output_name c ;;
      fields <- select_fields sch cols' ;;
      Val ({| name := n; dataType := t; nullable := nullable_of sch c |} :: fields)
  end.

(** [df.select(...)] *)
Definition select (cols : list column) (df : DataFrame) : res DataFrame :=
  fields <- select_fields (schema df) cols ;;
  rs <- map_res (fun row => map_res (eval (schema df) row) cols) (rows df) ;;
  Val {| schema := fields; rows := rs |}.

End Eval.

(** *** [spark.createDataFrame(data, schema)] on JSON-decoded rows *)

(** The string the JVM makes of a Python object it receives for a string
    field: an [int] becomes its decimal digits and a [bool] [true] or
    [false]. The strings of a [float], a [list] and a [dict], which
    depend on the version of the JVM or on its hashing, are not
    described. *)
Definition jvm_string (o : Py.obj) : res string :=
  match o with
  | Py.Str s => Val s
  | Py.Int z => Val (NilZero.string_of_int (Z.to_int z))
  | Py.Bool b => Val (if b then "true" else "false")
  | _ => Exc NotModelled
  end.

(** The check and conversion of one field of a row: [o] is what the row
    has for the field, [None] when a dict has no such key. A string
    field accepts any object. Of the other types, only a [bool] for a
    boolean field and a [float] for a double field are described. *)
Definition verify_field (f : StructField) (o : option Py.obj) : res value :=
  match o with
  | None | Some Py.None_ =>
      if nullable f then Val Null else Exc ValueError
  | Some o' =>
      match dataType f, o' with
      | StringType, _ => s <- jvm_string o' ;; Val (VString s)
      | BooleanType, Py.Bool b => Val (VBoolean b)
      | DoubleType, Py.Float x => Val (VDouble x)
      | _, _ => Exc NotModelled
      end
  end.

Fixpoint verify_dict (sch : StructType) (d : list (string * Py.obj))
  : res (list value) :=
  match sch with
  | [] => Val []
  | f :: sch' =>
      v <- verify_field f (Py.lookup (name f) d) ;;
      vs <- verify_dict sch' d ;;
      Val (v :: vs)
  end.

Fixpoint verify_list (sch : StructType) (l : list Py.obj) : res (list value) :=
  match sch, l with
  | [], [] => Val []
  | f :: sch', o :: l' =>
      v <- verify_field f (Some o) ;;
      vs <- verify_list sch' l' ;;
      Val (v :: vs)
  | _, _ => Exc ValueError
  end.

(** A row is a dict or a list with one item per field; a null row
    passes the check, and what the JVM does with it is not described. *)
Definition verify_row (sch : StructType) (o : Py.obj) : res (list value) :=
  match o with
  | Py.Dict d => verify_dict sch d
  | Py.List l =>
      if (length l =? length sch)%nat then verify_list sch l
      else Exc ValueError
  | Py.None_ => Exc NotModelled
  | _ => Exc TypeError
  end.

Fixpoint verify_rows (sch : StructType) (data : list Py.obj)
  : res (list (list value)) :=
  match data with
  | [] => Val []
  | o :: data' =>
      row <- verify_row sch o ;;
      rest <- verify_rows sch data' ;;
      Val (row :: rest)
  end.

Definition createDataFrame (data : list Py.obj) (sch : StructType)
  : res DataFrame :=
  rs <- verify_rows sch data ;;
  Val {| schema := sch; rows := rs |}.

(** [row[colName]] for a row of [df]. *)
Definition get (df : DataFrame) (row : list value) (colName : string) : value :=
  match resolve colName (schema df) with
  | Val i => nth i row Null
  | Exc _ => Null
  end.

(** *** [pyspark.sql.functions] *)

Module F.

Definition col (colName : string) : column := Col colName.
Definition lit (v : value) : column := Lit v.
Definition length (colName : string) : column := Length (Col colName).
Definition to_date (colName : string) (format : option string) : column :=
  ToDate (Col colName) format.
Definition current_timestamp : column := CurrentTimestamp.

(** [F.when(cond, v)], [.when(cond, v)] and [.otherwise(v)]; a chain is
    the list of its branches. *)
Definition when (cond v : column) : list (column * column) := [(cond, v)].
Definition when_ (chain : list (column * column)) (cond v : column)
  : list (column * column) := chain ++ [(cond, v)].
Definition otherwise (chain : list (column * column)) (v : column) : column :=
  CaseWhen chain (Some v).

End F.

(** [c == n] with a Python integer. *)
Definition eq_int (c : column) (n : Z) : column := EqualTo c (Lit (VInteger n)).

(** [c.cast("double")] and [c.alias(name)] *)
Definition cast_double (c : column) : column := Cast c DoubleType.
Definition alias (c : column) (a : string) : column := Alias c a.

End Spark.

(** ** The notebook's DataFrame pipeline *)

Module Bronze.
Import Spark.

Local Open Scope res_scope.

Definition schema : StructType :=
  [ {| name := "period"; dataType := StringType; nullable := true |};
    {| name := "respondent"; dataType := StringType; nullable := true |};
    {| name := "respondent-name"; dataType := StringType; nullable := true |};
    {| name := "type"; dataType := StringType; nullable := true |};
    {| name := "type-name"; dataType := StringType; nullable := true |};
    {| name := "value"; dataType := StringType; nullable := true |};
    {| name := "value-units"; dataType := StringType; nullable := true |} ].

Section Pipeline.

Context {engine : Engine}.
Variable now : Z.

(** [df_bronze], lines 137-159, from [df]. *)
Definition df_bronze (df : DataFrame) : res DataFrame :=
  df <- withColumn now "date"
          (F.otherwise
             (F.when_
                (F.when (eq_int (F.length "period") 8)
                        (F.to_date "period" (Some "yyyyMMdd")))
                (eq_int (F.length "period") 10)
                (F.to_date "period" (Some "yyyy-MM-dd")))
             (F.to_date "period" None))
          df ;;
  df <- withColumn now "demand_mwh" (cast_double (F.col "value")) df ;;
  df <- withColumn now "_ingested_at" F.current_timestamp df ;;
  df <- withColumn now "_source" (F.lit (VString "eia_api")) df ;;
  select now
    [ F.col "date";
      alias (F.col "respondent") "region_code";
      alias (F.col "respondent-name") "region_name";
      alias (F.col "type") "data_type";
      alias (F.col "type-name") "data_type_name";
      F.col "demand_mwh";
      alias (F.col "value-units") "units";
      F.col "_ingested_at";
      F.col "_source" ]
    df.

(** Lines 134-159: the DataFrame of the fetched rows, then [df_bronze]. *)
Definition bronze (all_region_data : list Py.obj) : res DataFrame :=
  df <- createDataFrame all_region_data schema ;;
  df_bronze df.

(** *** The normalizer in the specification's words *)

Record NormalizedRecord : Type := {
  date_ : option date;
  region_code : option string;
  region_name : option string;
  data_type_ : option string;
  data_type_name : option string;
  demand_value : option spec_float;
  units : option string;
  ingested_at : Z;
  source : string
}.

(** A RawRecord: a mapping whose seven fields, where present and not
    null, are strings. It may have other fields. *)
Definition raw_record (o : Py.obj) : bool :=
  match o with
  | Py.Dict d =>
      forallb (fun f =>
                 match Py.lookup (name f) d with
                 | None | Some Py.None_ | Some (Py.Str _) => true
                 | Some _ => false
                 end)
              schema
  | _ => false
  end.

(** The string a record has for a field. *)
Definition field (key : string) (o : Py.obj) : option string :=
  match o with
  | Py.Dict d =>
      match Py.lookup key d with
      | Some (Py.Str s) => Some s
      | _ => None
      end
  | _ => None
  end.

(** The row of [df] that a RawRecord becomes. *)
Definition raw_row (o : Py.obj) : list value :=
  map (fun f => nullable_value VString (field (name f) o)) schema.

(** The period as a date: the 8-character compact form, the 10-character
    hyphenated form, else the permissive parse. The first two can
    raise. *)
Definition normalize_period (period : string) : res (option date) :=
  if (String.length period =? 8)%nat then parse_date "yyyyMMdd" period
  else if (String.length period =? 10)%nat then parse_date "yyyy-MM-dd" period
  else Val (string_to_date period).

(** The date of a record, null for a record without a period. *)
Definition normalize_date (r : Py.obj) : res (option date) :=
  match field "period" r with
  | Some period => normalize_period period
  | None => Val None
  end.

(** The record with the date [d] and the other fields of [r]. *)
Definition with_date (r : Py.obj) (d : option date) : NormalizedRecord :=
  {| date_ := d;
     region_code := field "respondent" r;
     region_name := field "respondent-name" r;
     data_type_ := field "type" r;
     data_type_name := field "type-name" r;
     demand_value := match field "value" r with
                     | Some v => string_to_double v
                     | None => None
                     end;
     units := field "value-units" r;
     ingested_at := now;
     source := "eia_api" |}.

Definition normalize (r : Py.obj) : res NormalizedRecord :=
  d <- normalize_date r ;;
  Val (with_date r d).

(** Whether the date of a record can be computed, be it null: its
    period is not one on which the engine raises. *)
Definition period_passes (r : Py.obj) : bool :=
  match normalize_date r with
  | Val _ => true
  | Exc _ => false
  end.

(** A normalized record as a row of the output table. *)
Definition to_row (n : NormalizedRecord) : list value :=
  [ nullable_value VDate (date_ n);
    nullable_value VString (region_code n);
    nullable_value VString (region_name n);
    nullable_value VString (data_type_ n);
    nullable_value VString (data_type_name n);
    nullable_value VDouble (demand_value n);
    nullable_value VString (units n);
    VTimestamp (ingested_at n);
    VString (source n) ].

End Pipeline.

(** The fixed output schema. *)
Definition bronze_schema : StructType :=
  [ {| name := "date"; dataType := DateType; nullable := true |};
    {| name := "region_code"; dataType := StringType; nullable := true |};
    {| name := "region_name"; dataType := StringType; nullable := true |};
    {| name := "data_type"; dataType := StringType; nullable := true |};
    {| name := "data_type_name"; dataType := StringType; nullable := true |};
    {| name := "demand_mwh"; dataType := DoubleType; nullable := true |};
    {| name := "units"; dataType := StringType; nullable := true |};
    {| name := "_ingested_at"; dataType := TimestampType; nullable := false |};
    {| name := "_source"; dataType := StringType; nullable := false |} ].

End Bronze.

(** ** A reference engine

    The conversions as the JVM engine computes them with ANSI mode off,
    the time parser policy EXCEPTION and the session time zone UTC:
    - [to_date] under the two patterns of the notebook, after
      [java.time.format.DateTimeFormatter] with the strict resolver, and
      after [java.text.SimpleDateFormat], not lenient, for the parser of
      earlier versions, whose reading of a string that the first rejects
      makes the engine raise;
    - the cast of a string to a date, after [DateTimeUtils.stringToDate];
    - the cast of a string to a double, after [Double.parseDouble] and the
      special literals of the cast. *)

Module Reference.
Import Spark.

Definition code (c : ascii) : Z := Z.of_nat (nat_of_ascii c).

Definition digit (c : ascii) : option Z :=
  if (48 <=? code c) && (code c <=? 57) then Some (code c - 48) else None.

Fixpoint take (n : nat) (s : string) : string :=
  match n, s with
  | S n', String c s' => String c (take n' s')
  | _, _ => EmptyString
  end.

Fixpoint drop (n : nat) (s : string) : string :=
  match n, s with
  | S n', String _ s' => drop n' s'
  | _, _ => s
  end.

(** *** Doubles *)

Definition prec : Z := 53.
Definition emax : Z := 1024.

(** The double nearest to [m * 10 ^ e10], ties to even, for [0 <= m]. *)
Definition decimal_to_double (negative : bool) (m e10 : Z) : spec_float :=
  if m =? 0 then S754_zero negative
  else if 0 <=? e10 then
    binary_round prec emax negative (Z.to_pos (m * 10 ^ e10)) 0
  else
    let '(q, e, l) := SFdiv_core_binary prec emax m 0 (10 ^ (- e10)) 0 in
    binary_round_aux prec emax negative q e l.

(** *** Calendar dates *)

Definition is_leap_year (y : Z) : bool :=
  (y mod 4 =? 0) && (negb (y mod 100 =? 0) || (y mod 400 =? 0)).

Definition month_length (leap : bool) (m : Z) : Z :=
  if m =? 2 then (if leap then 29 else 28)
  else if (m =? 4) || (m =? 6) || (m =? 9) || (m =? 11) then 30
  else 31.

Definition days_in_month (y m : Z) : Z := month_length (is_leap_year y) m.

(** [LocalDate.of(y, m, d)], [None] where it throws. *)
Definition local_date (y m d : Z) : option date :=
  if (-999999999 <=? y) && (y <=? 999999999)
     && (1 <=? m) && (m <=? 12)
     && (1 <=? d) && (d <=? days_in_month y m)
  then Some {| year := y; month := m; day := d |}
  else None.

(** *** The patterns *)

(** The elements of a pattern: [yyyy], [MM], [dd] and a hyphen. *)
Inductive token : Type :=
| Year
| Month
| Day
| Hyphen.

(** The two patterns of the notebook; no other pattern is described. *)
Definition tokens (pattern : string) : option (list token) :=
  if String.eqb pattern "yyyyMMdd" then Some [Year; Month; Day]
  else if String.eqb pattern "yyyy-MM-dd"
  then Some [Year; Hyphen; Month; Hyphen; Day]
  else None.

(** The fields read so far, with their defaults. *)
Record fields : Type := {
  f_year : Z;
  f_month : Z;
  f_day : Z
}.

Definition no_fields : fields := {| f_year := 1970; f_month := 1; f_day := 1 |}.

Definition set_field (t : token) (v : Z) (fs : fields) : fields :=
  match t with
  | Year => {| f_year := v; f_month := f_month fs; f_day := f_day fs |}
  | Month => {| f_year := f_year fs; f_month := v; f_day := f_day fs |}
  | Day => {| f_year := f_year fs; f_month := f_month fs; f_day := v |}
  | Hyphen => fs
  end.

(** *** A string under a pattern: [DateTimeFormatter]

    The engine reads [yyyy] as the proleptic year. The parser is strict:
    a year is four digits, or more than four under a plus sign, or at
    least four under a minus sign; a month and a day are two digits; the
    whole string is read. *)

(** Exactly [n] digits from the front of [s]: their value and the rest. *)
Fixpoint take_digits (n : nat) (s : string) (acc : Z) : option (Z * string) :=
  match n with
  | O => Some (acc, s)
  | S n' =>
      match s with
      | String c s' =>
          match digit c with
          | Some d => take_digits n' s' (10 * acc + d)
          | None => None
          end
      | EmptyString => None
      end
  end.

(** The number of digits at the front of [s], up to [n]. *)
Fixpoint count_digits (n : nat) (s : string) : nat :=
  match n, s with
  | S n', String c s' =>
      match digit c with
      | Some _ => S (count_digits n' s')
      | None => O
      end
  | _, _ => O
  end.

(** The width of the two-digit fields that follow a year without a
    separator: the year leaves them their digits. *)
Fixpoint subsequent_width (ts : list token) : nat :=
  match ts with
  | Month :: ts' | Day :: ts' => 2 + subsequent_width ts'
  | _ => 0
  end.

(** The year field, of 4 to 19 digits, where [sw] digits are reserved
    for the fields after it. *)
Definition iso_year (sw : nat) (s : string) : option (Z * string) :=
  let '(sign, r) :=
    match s with
    | String "+" r => (Some false, r)
    | String "-" r => (Some true, r)
    | _ => (None, s)
    end in
  let n0 := count_digits (19 + sw) r in
  if (n0 <? 4)%nat then None
  else
    let n := Nat.max 4 (n0 - sw) in
    match take_digits n r 0 with
    | Some (y, rest) =>
        match sign with
        | Some true => if y =? 0 then None else Some (- y, rest)
        | Some false => if (n <=? 4)%nat then None else Some (y, rest)
        | None => if (4 <? n)%nat then None else Some (y, rest)
        end
    | None => None
    end.

Fixpoint iso_fields (ts : list token) (s : string) (fs : fields)
  : option fields :=
  match ts with
  | [] =>
      match s with
      | EmptyString => Some fs
      | String _ _ => None
      end
  | Year :: ts' =>
      match iso_year (subsequent_width ts') s with
      | Some (y, s') => iso_fields ts' s' (set_field Year y fs)
      | None => None
      end
  | Hyphen :: ts' =>
      match s with
      | String "-" s' => iso_fields ts' s' fs
      | _ => None
      end
  | t :: ts' =>
      match take_digits 2 s 0 with
      | Some (v, s') => iso_fields ts' s' (set_field t v fs)
      | None => None
      end
  end.

(** The date read, resolved strictly: the day exists in the month. *)
Definition iso_parse (ts : list token) (s : string) : option date :=
  match iso_fields ts s no_fields with
  | Some fs => local_date (f_year fs) (f_month fs) (f_day fs)
  | None => None
  end.

(** *** A string under a pattern: [SimpleDateFormat]

    Each field is a number read by [DecimalFormat.parse]: an optional
    minus sign, digits, and an exponent after [E] when one can be read.
    A field followed by another field is read within as many characters
    as the pattern has letters for it; blanks before a field are skipped;
    what follows the last field is ignored. *)

(** A Java [int] from a [long], and from a [double]. *)
Definition wrap32 (z : Z) : Z := (z + 2 ^ 31) mod 2 ^ 32 - 2 ^ 31.

Definition double_to_int (f : spec_float) : Z :=
  match f with
  | S754_zero _ | S754_nan => 0
  | S754_infinity s => if s then - 2 ^ 31 else 2 ^ 31 - 1
  | S754_finite s m e =>
      let a := if 0 <=? e then Z.pos m * 2 ^ e else Z.pos m / 2 ^ (- e) in
      Z.max (- 2 ^ 31) (Z.min (2 ^ 31 - 1) (if s then - a else a))
  end.

(** The digits at the front of [s] without the zeros before the first
    significant one: their value, their number, whether any digit was
    there at all, and the rest. *)
Fixpoint read_significant (s : string) (acc : Z) (n : nat) (saw : bool)
  : Z * nat * bool * string :=
  match s with
  | String c s' =>
      match digit c with
      | Some d =>
          if (d =? 0) && (n =? 0)%nat then read_significant s' acc n true
          else read_significant s' (10 * acc + d) (S n) true
      | None => (acc, n, saw, s)
      end
  | EmptyString => (acc, n, saw, s)
  end.

(** Whether a magnitude fits a [long] of the given sign. *)
Definition fits_long (negative : bool) (v : Z) : bool :=
  (v <? 2 ^ 63) || (negative && (v =? 2 ^ 63)).

(** The exponent after an [E], as an [int]: [None] when there is no
    digit or the digits do not fit a [long]. *)
Definition read_exponent (s : string) : option (Z * string) :=
  let '(negative, s1) :=
    match s with
    | String "-" s1 => (true, s1)
    | _ => (false, s)
    end in
  let '(m, _, saw, rest) := read_significant s1 0 O false in
  if saw && fits_long negative m
  then Some (wrap32 (if negative then - m else m), rest)
  else None.

(** [m * 10 ^ e10] when it is an integer. *)
Definition exact_integer (m e10 : Z) : option Z :=
  if 0 <=? e10 then Some (m * 10 ^ e10)
  else if m mod 10 ^ (- e10) =? 0 then Some (m / 10 ^ (- e10))
  else None.

(** [Number.intValue()] of the number with the [n] significant digits [m]
    and [decimalAt] of them before the point: a [long] where it is an
    integer that fits one, else a [double]. *)
Definition number_int (negative : bool) (m : Z) (n : nat) (decimalAt : Z) : Z :=
  if m =? 0 then 0
  else
    let e10 := decimalAt - Z.of_nat n in
    match (if decimalAt <=? 19 then exact_integer m e10 else None) with
    | Some v =>
        if fits_long negative v then wrap32 (if negative then - v else v)
        else double_to_int (decimal_to_double negative m e10)
    | None => double_to_int (decimal_to_double negative m e10)
    end.

Definition starts_with (p s : string) : bool :=
  String.eqb (take (String.length p) s) p.

(** [DecimalFormat.parse] at the front of [s], for the integer format of
    [Locale.US]: the [int] read and the rest. Where the format reads
    [NaN] as a number, its [int] is 0, which no field accepts: this is
    given as a failure already here. *)
Definition parse_number (s : string) : option (Z * string) :=
  if starts_with "NaN" s then None
  else
    let '(negative, s1) :=
      match s with
      | String "-" s1 => (true, s1)
      | _ => (false, s)
      end in
    let '(m, n, saw, s2) := read_significant s1 0 O false in
    if saw then
      let '(e, rest) :=
        match s2 with
        | String "E" s3 =>
            match read_exponent s3 with
            | Some (e, rest) => (e, rest)
            | None => (0, s2)
            end
        | _ => (0, s2)
        end in
      Some (number_int negative m n (wrap32 (Z.of_nat n + e)), rest)
    else None.

Fixpoint skip_blanks (s : string) : string :=
  match s with
  | String c s' =>
      if (code c =? 32) || (code c =? 9) then skip_blanks s' else s
  | EmptyString => EmptyString
  end.

(** One field at the front of [s]; [obey] is the number of letters of the
    field when another field follows it. *)
Definition legacy_field (obey : option nat) (s : string) : option (Z * string) :=
  let s1 := skip_blanks s in
  match s1 with
  | EmptyString => None
  | String _ _ =>
      match obey with
      | Some count =>
          if (String.length s <? count)%nat then None
          else
            let skipped := (String.length s - String.length s1)%nat in
            let window := take (count - skipped) s1 in
            match parse_number window with
            | Some (v, rest) =>
                Some (v, drop (String.length window - String.length rest) s1)
            | None => None
            end
      | None => parse_number s1
      end
  end.

Definition letters (t : token) : nat :=
  match t with
  | Year => 4
  | Month | Day => 2
  | Hyphen => 1
  end.

Fixpoint legacy_fields (ts : list token) (s : string) (fs : fields)
  : option fields :=
  match ts with
  | [] => Some fs
  | Hyphen :: ts' =>
      match s with
      | String "-" s' => legacy_fields ts' s' fs
      | _ => None
      end
  | t :: ts' =>
      let obey :=
        match ts' with
        | [] | Hyphen :: _ => None
        | _ :: _ => Some (letters t)
        end in
      match legacy_field obey s with
      | Some (v, s') => legacy_fields ts' s' (set_field t v fs)
      | None => None
      end
  end.

(** Whether the calendar that is not lenient accepts the fields: it is
    Julian until 4 October 1582 and Gregorian from 15 October 1582, and
    has no year before 1. Its last year, which it accepts in part, is not
    described. *)
Definition legacy_valid (fs : fields) : res bool :=
  let y := f_year fs in
  let m := f_month fs in
  let d := f_day fs in
  if (y <? 1) || (292278994 <? y) then Val false
  else if y =? 292278994 then Exc NotModelled
  else
    let leap := if y <? 1582 then y mod 4 =? 0 else is_leap_year y in
    Val ((1 <=? m) && (m <=? 12) && (1 <=? d) && (d <=? month_length leap m)
         && negb ((y =? 1582) && (m =? 10) && (5 <=? d) && (d <=? 14))).

(** Whether [SimpleDateFormat] reads a date at the front of [s]. *)
Definition legacy_reads (ts : list token) (s : string) : res bool :=
  match legacy_fields ts s no_fields with
  | Some fs => legacy_valid fs
  | None => Val false
  end.

(** *** [to_date(s, pattern)]

    The date that [DateTimeFormatter] reads; where it reads none, null
    unless [SimpleDateFormat] reads one, in which case the engine raises.
    Dates outside the years 0 to 9999 are not described. *)
Definition parse_date (pattern s : string) : res (option date) :=
  match tokens pattern with
  | None => Exc NotModelled
  | Some ts =>
      match iso_parse ts s with
      | Some d =>
          if (0 <=? year d) && (year d <=? 9999) then Val (Some d)
          else Exc NotModelled
      | None =>
          match legacy_reads ts s with
          | Val true => Exc SparkUpgradeException
          | Val false => Val None
          | Exc e => Exc e
          end
      end
  end.

(** *** The cast of a string to a date *)

(** The characters [trimAll] removes at both ends: the white space and
    control characters that are one byte in UTF-8. *)
Definition is_trimmed (c : ascii) : bool :=
  (code c <=? 32) || (code c =? 127).

Fixpoint ltrim (drop : ascii -> bool) (s : string) : string :=
  match s with
  | String c s' => if drop c then ltrim drop s' else s
  | EmptyString => EmptyString
  end.

Fixpoint rtrim (drop : ascii -> bool) (s : string) : string :=
  match s with
  | EmptyString => EmptyString
  | String c s' =>
      match rtrim drop s' with
      | EmptyString => if drop c then EmptyString else String c EmptyString
      | t => String c t
      end
  end.

Definition trim (drop : ascii -> bool) (s : string) : string :=
  rtrim drop (ltrim drop s).

Definition valid_digits (segment digits : nat) : bool :=
  match segment with
  | O => (4 <=? digits)%nat && (digits <=? 7)%nat
  | S _ => (1 <=? digits)%nat && (digits <=? 2)%nat
  end.

(** The segments [yyyy], [yyyy-[m]m] or [yyyy-[m]m-[d]d] at the front of
    [s]: [i] is the segment being read, [cur] its value and [digits] its
    number of digits so far, [done] the segments before it. What follows
    a space or a [T] after the third segment is ignored. *)
Fixpoint segments (s : string) (i : nat) (cur : Z) (digits : nat)
    (done : list Z) : option (list Z) :=
  match s with
  | EmptyString =>
      if valid_digits i digits then Some (done ++ [cur]) else None
  | String b s' =>
      if Ascii.eqb b " " || Ascii.eqb b "T" then
        if valid_digits i digits && (2 <=? i)%nat
        then Some (done ++ [cur]) else None
      else if (i <? 2)%nat && Ascii.eqb b "-" then
        if valid_digits i digits
        then segments s' (S i) 0 O (done ++ [cur]) else None
      else
        match digit b with
        | Some d => segments s' i (cur * 10 + d) (S digits) done
        | None => None
        end
  end.

Definition string_to_date (s : string) : option date :=
  let t := trim is_trimmed s in
  let '(sign, body) :=
    match t with
    | String "-" t' => (-1, t')
    | String "+" t' => (1, t')
    | _ => (1, t)
    end in
  match t with
  | EmptyString => None
  | _ =>
      match segments body O 0 O [] with
      | Some segs =>
          local_date (sign * nth 0 segs 1) (nth 1 segs 1) (nth 2 segs 1)
      | None => None
      end
  end.

(** *** The cast of a string to a double *)

(** The digits at the front of [s]: their value, their number and the
    rest. *)
Fixpoint read_digits (s : string) (acc : Z) (n : nat) : Z * nat * string :=
  match s with
  | String c s' =>
      match digit c with
      | Some d => read_digits s' (10 * acc + d) (S n)
      | None => (acc, n, s)
      end
  | EmptyString => (acc, n, s)
  end.

Definition is_suffix (c : ascii) : bool :=
  Ascii.eqb c "f" || Ascii.eqb c "F" || Ascii.eqb c "d" || Ascii.eqb c "D".

(** After the exponent: nothing, or one type suffix. *)
Definition at_end (s : string) : bool :=
  match s with
  | EmptyString => true
  | String c EmptyString => is_suffix c
  | _ => false
  end.

(** An optional sign at the front of [s]: whether it is a minus, and the
    rest. *)
Definition split_sign (s : string) : bool * string :=
  match s with
  | String "-" s' => (true, s')
  | String "+" s' => (false, s')
  | _ => (false, s)
  end.

(** What follows a point at the front of [s]. *)
Definition after_point (s : string) : option string :=
  match s with
  | String "." s' => Some s'
  | _ => None
  end.

(** Digits with an optional point at the front of [s], the digits read
    by [read]: the number that the digits write, the number of digits
    after the point, and the rest. There is one digit at least. *)
Definition read_significand (read : string -> Z -> nat -> Z * nat * string)
    (s : string) : option (Z * nat * string) :=
  let '(int_part, n_int, s1) := read s 0 O in
  let '(mantissa, n_frac, s2) :=
    match after_point s1 with
    | Some s1' => read s1' int_part O
    | None => (int_part, O, s1)
    end in
  if (n_int + n_frac =? 0)%nat then None else Some (mantissa, n_frac, s2).

(** Decimal digits under an optional sign at the front of [s]: their
    value and the rest. *)
Definition signed_digits (s : string) : option (Z * string) :=
  let '(negative, s1) := split_sign s in
  let '(e, n, s2) := read_digits s1 0 O in
  if (n =? 0)%nat then None else Some (if negative then - e else e, s2).

(** The exponent of a decimal literal, 0 when there is none. *)
Definition decimal_exponent (s : string) : option (Z * string) :=
  match s with
  | String c s' =>
      if Ascii.eqb c "e" || Ascii.eqb c "E" then signed_digits s'
      else Some (0, s)
  | EmptyString => Some (0, s)
  end.

(** A decimal literal: digits with an optional point, an optional
    exponent and an optional type suffix. *)
Definition decimal_literal (negative : bool) (s : string) : option spec_float :=
  match read_significand read_digits s with
  | Some (mantissa, n_frac, s1) =>
      match decimal_exponent s1 with
      | Some (e, rest) =>
          if at_end rest
          then Some (decimal_to_double negative mantissa (e - Z.of_nat n_frac))
          else None
      | None => None
      end
  | None => None
  end.

Definition hex_digit (c : ascii) : option Z :=
  match digit c with
  | Some d => Some d
  | None =>
      if (97 <=? code c) && (code c <=? 102) then Some (code c - 87)
      else if (65 <=? code c) && (code c <=? 70) then Some (code c - 55)
      else None
  end.

Fixpoint read_hex_digits (s : string) (acc : Z) (n : nat) : Z * nat * string :=
  match s with
  | String c s' =>
      match hex_digit c with
      | Some d => read_hex_digits s' (16 * acc + d) (S n)
      | None => (acc, n, s)
      end
  | EmptyString => (acc, n, s)
  end.

(** The double nearest to [m * 2 ^ e2], ties to even, for [0 <= m]. *)
Definition binary_to_double (negative : bool) (m e2 : Z) : spec_float :=
  if m =? 0 then S754_zero negative
  else binary_round prec emax negative (Z.to_pos m) e2.

(** The double of the hexadecimal significand [m] with [n_frac] digits
    after the point and the binary exponent [e]: an exponent that does
    not fit an [int] gives infinity or zero by its sign. *)
Definition hex_to_double (negative : bool) (m : Z) (n_frac : nat) (e : Z)
  : spec_float :=
  if m =? 0 then S754_zero negative
  else if 2 ^ 31 <=? Z.abs e then
    (if 0 <=? e then S754_infinity negative else S754_zero negative)
  else binary_to_double negative m (e - 4 * Z.of_nat n_frac).

(** A hexadecimal literal after its [0x]: hexadecimal digits with an
    optional point, a binary exponent after [p], and an optional type
    suffix. *)
Definition hex_literal (negative : bool) (s : string) : option spec_float :=
  match read_significand read_hex_digits s with
  | Some (mantissa, n_frac, String c s1) =>
      if Ascii.eqb c "p" || Ascii.eqb c "P" then
        match signed_digits s1 with
        | Some (e, rest) =>
            if at_end rest
            then Some (hex_to_double negative mantissa n_frac e)
            else None
        | None => None
        end
      else None
  | _ => None
  end.

(** What follows [0x] or [0X] at the front of [s]. *)
Definition after_0x (s : string) : option string :=
  match s with
  | String "0" (String x s') =>
      if Ascii.eqb x "x" || Ascii.eqb x "X" then Some s' else None
  | _ => None
  end.

(** [Double.parseDouble] on a string without blanks around it. *)
Definition parse_literal (t : string) : option spec_float :=
  let '(negative, body) := split_sign t in
  if String.eqb body "NaN" then Some S754_nan
  else if String.eqb body "Infinity" then Some (S754_infinity negative)
  else
    match after_0x body with
    | Some body' => hex_literal negative body'
    | None => decimal_literal negative body
    end.

Definition at_most_space (c : ascii) : bool := code c <=? 32.

(** [Double.parseDouble] *)
Definition parse_double (s : string) : option spec_float :=
  parse_literal (trim at_most_space s).

(** The literals the cast accepts besides, in any case. *)
Definition special_literal (s : string) : option spec_float :=
  let t := lower (trim at_most_space s) in
  if String.eqb t "inf" || String.eqb t "+inf"
     || String.eqb t "infinity" || String.eqb t "+infinity"
  then Some (S754_infinity false)
  else if String.eqb t "-inf" || String.eqb t "-infinity"
  then Some (S754_infinity true)
  else if String.eqb t "nan" then Some S754_nan
  else None.

Definition string_to_double (s : string) : option spec_float :=
  match parse_double s with
  | Some f => Some f
  | None => special_literal s
  end.

#[export] Instance engine : Engine := {
  Spark.parse_date := parse_date;
  Spark.string_to_date := string_to_date;
  Spark.string_to_double := string_to_double
}.

End Reference.

(** ** A paginating API with rows per region *)

Module Api.
Import Http Servers.

(** The API as the fetcher expects it, over the rows [table region] that
    match a query for [region]: it serves the rows from [offset] on, at
    most [length] and at most [cap] of them, and reports how many rows
    match in all. *)
Definition regional_server (cap : Z) (table : string -> list Py.obj)
  : handler unit :=
  fun s _ p =>
    let matching := table (facets_respondent p) in
    (s, page (firstn (Z.to_nat (Z.min (length_ p) cap))
                     (skipn (Z.to_nat (offset p)) matching))
             (Py.Int (Py.len matching))).

(** The request a fetch sends for its page number [i], counted from 0. *)
Definition page_request (api_key region start_date end_date : string)
    (i : nat) : string * params :=
  (Fetch.url,
   set_offset (Fetch.initial_params api_key region start_date end_date)
              (5000 * Z.of_nat i)).

(** Payloads with a field of the wrong type. *)
Definition bad_total_payload : Py.obj :=
  Py.Dict [("response",
            Py.Dict [("total", Py.Str "12.5"); ("data", Py.List [day1])])].

Definition null_data_payload : Py.obj :=
  Py.Dict [("response", Py.Dict [("total", Py.Int 0); ("data", Py.None_)])].

(** A response on which the loop stops without reading any record: a
    status other than 200, or a payload without "response" or without
    "data" in it. *)
Definition truncates (r : response) : Prop :=
  status_code r <> 200
  \/ exists json_data,
      body r = Some json_data
      /\ (Py.not_in "response" json_data = Val true
          \/ exists rsp,
              Py.getitem json_data "response" = Val rsp
              /\ Py.not_in "data" rsp = Val true).

(** A response from which the loop reads the records [items] and the
    total [total]. *)
Definition carries (r : response) (items : list Py.obj) (total : Z) : Prop :=
  status_code r = 200
  /\ exists json_data rsp data t,
      body r = Some json_data
      /\ Py.getitem json_data "response" = Val rsp
      /\ Py.getitem rsp "data" = Val data
      /\ Py.iterate data = Val items
      /\ Py.getitem rsp "total" = Val t
      /\ Py.int t = Val total.

End Api.

(** ** The notebook as a whole *)

Module Notebook.
Import Http Fetch Spark Bronze.

Definition table_name : string :=
  "noaa_data.bronze.eia_electricity_demand_raw".

(** The tables of the metastore, by name. *)
Definition catalog : Type := string -> option DataFrame.

(** [df.write.mode("overwrite").option("overwriteSchema", "true")
    .saveAsTable(name)]: the table is replaced, schema and rows. *)
Definition saveAsTable (df : DataFrame) (tableName : string) (c : catalog)
  : catalog :=
  fun n => if String.eqb n tableName then Some df else c n.

(** What a run acts on: the API and the metastore. *)
Record state (server : Type) : Type := {
  net : world server;
  tables : catalog
}.
Arguments net {server} s.
Arguments tables {server} s.

Section Run.

Context {server : Type} (handle : handler server) {engine : Engine}.

(** The cells of the notebook in order, lines 105-180: fetch all regions,
    build [df] and [df_bronze], write the table. [EIA_API_KEY] is the
    secret read at line 22, [END_DATE] the date of the run and [now] the
    time at which the write evaluates [current_timestamp]. The [show] and
    [count] of lines 163-165 only print. A row on which the engine raises
    makes the run raise, at the [show] or at the write; the tables are
    then given as they were, which is so where the write is atomic. *)
Definition run (fuel : nat) (EIA_API_KEY END_DATE : string) (now : Z)
  : M (state server) unit :=
  fun st =>
    match ingest_regions handle fuel EIA_API_KEY REGIONS START_DATE END_DATE
            [] (net st) with
    | (Done all_region_data, w') =>
        match bronze now all_region_data with
        | Val df_bronze =>
            (Done tt,
             {| net := w';
                tables := saveAsTable df_bronze table_name (tables st) |})
        | Exc e => (Raised e, {| net := w'; tables := tables st |})
        end
    | (Raised e, w') => (Raised e, {| net := w'; tables := tables st |})
    | (OutOfFuel, w') => (OutOfFuel, {| net := w'; tables := tables st |})
    end.

End Run.

(** Rows to run the notebook on: one row a region. *)
Definition one_row_each (region : string) : list Py.obj :=
  [Servers.row "20240115" region "12345.6"].

(** A metastore that holds an earlier bronze table of one row, and a
    table of another name. *)
Definition earlier_tables : catalog :=
  fun n =>
    if String.eqb n table_name
    then Some {| Spark.schema := bronze_schema;
                 rows := [[VDate {| year := 2023; month := 12; day := 31 |};
                           VString "PJM"; VString "PJM Interconnection, LLC";
                           VString "D"; VString "Demand";
                           Null; VString "megawatthours";
                           VTimestamp 1690000000000000; VString "eia_api"]] |}
    else if String.eqb n "noaa_data.bronze.stations"
    then Some {| Spark.schema := []; rows := [] |}
    else None.

End Notebook.

(** ** Numeric strings

    The strings that denote a double, as a grammar, each with the double
    it denotes: the literals of [Double.valueOf] (a decimal or a
    hexadecimal floating-point literal with an optional sign and type
    suffix, [NaN], [Infinity]) and the words the cast accepts besides,
    all with blanks allowed around them. *)

Module Numeric.
Import Reference.

Fixpoint every (p : ascii -> bool) (s : string) : bool :=
  match s with
  | EmptyString => true
  | String c s' => p c && every p s'
  end.

(** Whether [s] is empty or opens with a character that satisfies [p]. *)
Definition opens (p : ascii -> bool) (s : string) : bool :=
  match s with
  | EmptyString => true
  | String c _ => p c
  end.

(** A blank is a character with a code up to that of the space. *)
Definition is_blank (c : ascii) : bool := code c <=? 32.

(** A string without a blank. *)
Definition no_blank (s : string) : Prop :=
  every (fun c => negb (is_blank c)) s = true.

Definition is_digit (c : ascii) : bool :=
  (48 <=? code c) && (code c <=? 57).

Definition is_hex_digit (c : ascii) : bool :=
  is_digit c
  || ((97 <=? code c) && (code c <=? 102))
  || ((65 <=? code c) && (code c <=? 70)).

(** The letters that open an exponent or are a type suffix. *)
Definition is_mark (c : ascii) : bool :=
  (code c =? 101) || (code c =? 69) || (code c =? 102) || (code c =? 70)
  || (code c =? 100) || (code c =? 68).

Definition is_sign (c : ascii) : bool := (code c =? 45) || (code c =? 43).

(** The value of a digit: [0] to [9], then [a] or [A] for ten, to [f]
    or [F] for fifteen. *)
Definition digit_value (c : ascii) : Z :=
  if code c <=? 57 then code c - 48
  else if code c <=? 70 then code c - 55
  else code c - 87.

(** The number that the digits [ds] write in a base, the most
    significant digit first. *)
Fixpoint number (base : Z) (ds : string) : Z :=
  match ds with
  | EmptyString => 0
  | String c ds' =>
      digit_value c * base ^ Z.of_nat (String.length ds') + number base ds'
  end.

(** An optional sign, and whether it is a minus. *)
Inductive sign : string -> bool -> Prop :=
| sign_none : sign "" false
| sign_plus : sign "+" false
| sign_minus : sign "-" true.

Definition signed (negative : bool) (z : Z) : Z := if negative then - z else z.

(** An optional type suffix. *)
Inductive suffix : string -> Prop :=
| suffix_none : suffix ""
| suffix_f : suffix "f"
| suffix_F : suffix "F"
| suffix_d : suffix "d"
| suffix_D : suffix "D".

(** Digits with an optional point: the digits before it, the point, the
    digits after it. There is a digit on one side at least. *)
Definition significand (is_digit : ascii -> bool) (int point frac : string)
  : Prop :=
  every is_digit int = true
  /\ every is_digit frac = true
  /\ (point = "." \/ (point = "" /\ frac = ""))
  /\ (int ++ frac)%string <> "".

(** An optional decimal exponent and its value. *)
Inductive exponent : string -> Z -> Prop :=
| exponent_none : exponent "" 0
| exponent_some e sg negative ds :
    e = "e" \/ e = "E" ->
    sign sg negative ->
    every is_digit ds = true ->
    ds <> "" ->
    exponent (e ++ sg ++ ds) (signed negative (number 10 ds)).

(** The words of the cast, in lower case. *)
Inductive word : string -> spec_float -> Prop :=
| word_inf : word "inf" (S754_infinity false)
| word_plus_inf : word "+inf" (S754_infinity false)
| word_infinity : word "infinity" (S754_infinity false)
| word_plus_infinity : word "+infinity" (S754_infinity false)
| word_minus_inf : word "-inf" (S754_infinity true)
| word_minus_infinity : word "-infinity" (S754_infinity true)
| word_nan : word "nan" S754_nan.

(** A literal and the double it denotes: the nearest one, ties to
    even. *)
Inductive literal : string -> spec_float -> Prop :=
| literal_nan sg negative :
    sign sg negative ->
    literal (sg ++ "NaN") S754_nan
| literal_infinity sg negative :
    sign sg negative ->
    literal (sg ++ "Infinity") (S754_infinity negative)
| literal_decimal sg negative int point frac ex e sfx :
    sign sg negative ->
    significand is_digit int point frac ->
    exponent ex e ->
    suffix sfx ->
    literal (sg ++ int ++ point ++ frac ++ ex ++ sfx)
      (decimal_to_double negative (number 10 (int ++ frac))
         (e - Z.of_nat (String.length frac)))
| literal_hexadecimal sg negative x int point frac p sg' negative' ds sfx :
    sign sg negative ->
    x = "x" \/ x = "X" ->
    significand is_hex_digit int point frac ->
    p = "p" \/ p = "P" ->
    sign sg' negative' ->
    every is_digit ds = true ->
    ds <> "" ->
    suffix sfx ->
    literal (sg ++ "0" ++ x ++ int ++ point ++ frac ++ p ++ sg' ++ ds ++ sfx)
      (hex_to_double negative (number 16 (int ++ frac)) (String.length frac)
         (signed negative' (number 10 ds)))
| literal_word w x :
    word (Spark.lower w) x ->
    literal w x.

(** [numeric s x]: the string [s] is numeric and denotes the double
    [x]. *)
Definition numeric (s : string) (x : spec_float) : Prop :=
  exists l body r,
    s = (l ++ body ++ r)%string
    /\ every is_blank l = true
    /\ every is_blank r = true
    /\ literal body x.

Definition is_numeric (s : string) : Prop := exists x, numeric s x.

End Numeric.

(** * Properties of the fetcher *)

Section FetchFacts.
Import Http Fetch.

Context {server : Type} (handle : handler server).

(** ** One iteration of the loop, case by case *)

Ltac run_body H :=
  unfold loop_body, bind, requests_get; rewrite H; cbn.

Lemma loop_body_bad_status l w s' r :
  handle (srv w) url (params_ l) = (s', r) ->
  status_code r <> 200 ->
  loop_body handle l w = (Done (Break, l), after_request w s' url (params_ l)).
Proof.
  intros H Hs. run_body H.
  apply Z.eqb_neq in Hs. rewrite Hs. reflexivity.
Qed.

Lemma loop_body_bad_json l w s' r :
  handle (srv w) url (params_ l) = (s', r) ->
  status_code r = 200 ->
  body r = None ->
  loop_body handle l w
  = (Raised JSONDecodeError, after_request w s' url (params_ l)).
Proof.
  intros H Hs Hb. run_body H.
  apply Z.eqb_eq in Hs. rewrite Hs. cbn.
  unfold lift, json. rewrite Hb. reflexivity.
Qed.

Lemma getitem_contains o key v :
  Py.getitem o key = Val v -> Py.not_in key o = Val false.
Proof.
  destruct o; cbn; try discriminate.
  unfold Py.not_in; cbn.
  destruct (Py.lookup key d); [reflexivity | discriminate].
Qed.

Lemma loop_body_page l w s' r recs total :
  handle (srv w) url (params_ l) = (s', r) ->
  is_page r recs total ->
  loop_body handle l w
  = (Done (if Py.len (all_data l ++ recs) >=? total
           then (Break, {| params_ := params_ l;
                           all_data := all_data l ++ recs |})
           else (Continue,
                 {| params_ := set_offset (params_ l) (offset (params_ l) + 5000);
                    all_data := all_data l ++ recs |})),
     after_request w s' url (params_ l)).
Proof.
  intros H (Hs & jd & rsp & t & Hb & Hr & Hd & Ht & Hi). run_body H.
  apply Z.eqb_eq in Hs. rewrite Hs. cbn.
  unfold lift, json. rewrite Hb.
  rewrite (getitem_contains _ _ _ Hr), Hr, (getitem_contains _ _ _ Hd), Hd.
  cbn. rewrite Ht, Hi.
  destruct (Py.len (all_data l ++ recs) >=? total); reflexivity.
Qed.

Lemma loop_body_no_container l w s' r d :
  handle (srv w) url (params_ l) = (s', r) ->
  status_code r = 200 ->
  body r = Some (Py.Dict d) ->
  Py.lookup "response" d = None
  \/ (exists rd, Py.lookup "response" d = Some (Py.Dict rd)
                 /\ Py.lookup "data" rd = None) ->
  loop_body handle l w = (Done (Break, l), after_request w s' url (params_ l)).
Proof.
  intros H Hs Hb Hc. run_body H.
  apply Z.eqb_eq in Hs. rewrite Hs. cbn.
  unfold lift, json. rewrite Hb. unfold Py.not_in. cbn.
  destruct Hc as [Hn | (rd & Hr & Hn)].
  - rewrite Hn. reflexivity.
  - rewrite Hr. cbn. rewrite Hn. reflexivity.
Qed.

Lemma loop_body_no_total l w s' r d rd recs :
  handle (srv w) url (params_ l) = (s', r) ->
  status_code r = 200 ->
  body r = Some (Py.Dict d) ->
  Py.lookup "response" d = Some (Py.Dict rd) ->
  Py.lookup "data" rd = Some (Py.List recs) ->
  Py.lookup "total" rd = None ->
  loop_body handle l w
  = (Raised (KeyError "total"), after_request w s' url (params_ l)).
Proof.
  intros H Hs Hb Hr Hd Ht. run_body H.
  apply Z.eqb_eq in Hs. rewrite Hs. cbn.
  unfold lift, json. rewrite Hb. unfold Py.not_in. cbn.
  rewrite Hr. cbn. rewrite Hd. cbn. rewrite Ht. reflexivity.
Qed.

(** An iteration that goes on to the next one has sent one request, moved
    the offset by 5000 and only appended to [all_data]. *)
Lemma loop_body_continue l w l' w' :
  loop_body handle l w = (Done (Continue, l'), w') ->
  w' = after_request w (fst (handle (srv w) url (params_ l))) url (params_ l)
  /\ params_ l' = set_offset (params_ l) (offset (params_ l) + 5000)
  /\ exists items, all_data l' = all_data l ++ items.
Proof.
  unfold loop_body, bind, requests_get.
  destruct (handle (srv w) url (params_ l)) as [s' r]. cbn.
  destruct (status_code r =? 200); cbn; [| discriminate].
  unfold lift.
  destruct (json r) as [jd |]; [| discriminate].
  destruct (Py.not_in "response" jd) as [[] |]; cbn; try discriminate.
  destruct (Py.getitem jd "response") as [rsp |]; [| discriminate].
  destruct (Py.not_in "data" rsp) as [[] |]; cbn; try discriminate.
  destruct (Py.getitem rsp "data") as [data |]; [| discriminate].
  unfold Py.extend.
  destruct (Py.iterate data) as [items |]; cbn; [| discriminate].
  destruct (Py.getitem rsp "total") as [t |]; [| discriminate].
  destruct (Py.int t) as [total |]; [| discriminate].
  destruct (Py.len (all_data l ++ items) >=? total); cbn; [discriminate |].
  intros E. inversion E; subst; clear E. cbn.
  repeat split. exists items. reflexivity.
Qed.

(** ** The loop as a whole *)

Lemma while_true_break fuel l w l' w' :
  loop_body handle l w = (Done (Break, l'), w') ->
  while_true handle (S fuel) l w = (Done l', w').
Proof. intros H. cbn. unfold bind. rewrite H. reflexivity. Qed.

Lemma while_true_continue fuel l w l' w' :
  loop_body handle l w = (Done (Continue, l'), w') ->
  while_true handle (S fuel) l w = while_true handle fuel l' w'.
Proof. intros H. cbn. unfold bind. rewrite H. reflexivity. Qed.

Lemma while_true_raise fuel l w e w' :
  loop_body handle l w = (Raised e, w') ->
  while_true handle (S fuel) l w = (Raised e, w').
Proof. intros H. cbn. unfold bind. rewrite H. reflexivity. Qed.

(** [loop_body] itself never runs out of fuel. *)
Lemma loop_body_fuel l w w' : loop_body handle l w <> (OutOfFuel, w').
Proof.
  unfold loop_body, bind, requests_get.
  destruct (handle (srv w) url (params_ l)) as [s' r]. cbn.
  destruct (status_code r =? 200); cbn; [| discriminate].
  unfold lift.
  destruct (json r) as [jd |]; [| discriminate].
  destruct (Py.not_in "response" jd) as [[] |]; cbn; try discriminate.
  destruct (Py.getitem jd "response") as [rsp |]; [| discriminate].
  destruct (Py.not_in "data" rsp) as [[] |]; cbn; try discriminate.
  destruct (Py.getitem rsp "data") as [data |]; [| discriminate].
  destruct (Py.extend (all_data l) data) as [items |]; cbn; [| discriminate].
  destruct (Py.getitem rsp "total") as [t |]; [| discriminate].
  destruct (Py.int t) as [total |]; [| discriminate].
  destruct (Py.len items >=? total); discriminate.
Qed.

(** More fuel does not change a run that ended. *)
Lemma while_true_more_fuel fuel : forall l w o w',
  while_true handle fuel l w = (o, w') -> o <> OutOfFuel ->
  forall extra, while_true handle (fuel + extra) l w = (o, w').
Proof.
  induction fuel as [| fuel IH]; intros l w o w' H Ho extra.
  - cbn in H. inversion H; subst. contradiction.
  - cbn in H |- *. unfold bind in *.
    destruct (loop_body handle l w) as [[[[] l1] | e |] w1] eqn:E;
      try exact H.
    now apply IH.
Qed.

Lemma while_true_reaches l0 w0 pages l w :
  reaches handle l0 w0 pages l w ->
  forall fuel,
    while_true handle (length pages + fuel) l0 w0 = while_true handle fuel l w.
Proof.
  induction 1 as [| pages l w items l' w' _ IH Hb _]; intros fuel.
  - reflexivity.
  - rewrite length_app, <- Nat.add_assoc. cbn [length Nat.add].
    rewrite IH. now apply while_true_continue.
Qed.

Lemma reaches_all_data l0 w0 pages l w :
  reaches handle l0 w0 pages l w ->
  all_data l = all_data l0 ++ concat pages.
Proof.
  induction 1 as [| pages l w items l' w' _ IH _ Hd].
  - cbn. now rewrite app_nil_r.
  - rewrite Hd, IH, concat_app. cbn. now rewrite app_nil_r, app_assoc.
Qed.

Lemma reaches_offset l0 w0 pages l w :
  reaches handle l0 w0 pages l w ->
  offset (params_ l) = offset (params_ l0) + 5000 * Z.of_nat (length pages).
Proof.
  induction 1 as [| pages l w items l' w' _ IH Hb _].
  - cbn. lia.
  - apply loop_body_continue in Hb as (_ & Hp & _).
    rewrite Hp, length_app. cbn [set_offset offset length]. lia.
Qed.

Lemma reaches_sent l0 w0 pages l w :
  reaches handle l0 w0 pages l w ->
  length (sent w) = (length (sent w0) + length pages)%nat.
Proof.
  induction 1 as [| pages l w items l' w' _ IH Hb _].
  - cbn. lia.
  - apply loop_body_continue in Hb as (Hw & _ & _).
    rewrite Hw. cbn. rewrite !length_app, IH. cbn. lia.
Qed.

(** The fetch in terms of its loop. *)
Lemma fetch_unfold fuel k region sd ed w :
  fetch_eia_electricity_demand handle fuel k region sd ed w
  = match while_true handle fuel (initial_locals k region sd ed) w with
    | (Done l, w') => (Done (all_data l), w')
    | (Raised e, w') => (Raised e, w')
    | (OutOfFuel, w') => (OutOfFuel, w')
    end.
Proof. reflexivity. Qed.

(** A fetch that stops at the iteration after [pages]. *)
Lemma fetch_stops_after l0 w0 pages l w o w' fuel :
  reaches handle l0 w0 pages l w ->
  while_true handle 1 l w = (o, w') -> o <> OutOfFuel ->
  (length pages < fuel)%nat ->
  while_true handle fuel l0 w0 = (o, w').
Proof.
  intros Hr H1 Ho Hf.
  replace fuel with (length pages + (1 + (fuel - length pages - 1)))%nat by lia.
  rewrite (while_true_reaches _ _ _ _ _ Hr).
  now apply while_true_more_fuel.
Qed.

(** The loop over the regions moves on once a fetch has returned. *)
Lemma ingest_regions_next fuel k region rest sd ed acc w data w' :
  fetch_eia_electricity_demand handle fuel k region sd ed w = (Done data, w') ->
  ingest_regions handle fuel k (region :: rest) sd ed acc w
  = ingest_regions handle fuel k rest sd ed (acc ++ data) w'.
Proof. intros H. cbn. unfold bind at 1. rewrite H. reflexivity. Qed.

Lemma ingest_regions_raise fuel k region rest sd ed acc w e w' :
  fetch_eia_electricity_demand handle fuel k region sd ed w = (Raised e, w') ->
  ingest_regions handle fuel k (region :: rest) sd ed acc w = (Raised e, w').
Proof. intros H. cbn. unfold bind at 1. rewrite H. reflexivity. Qed.

(** ** Failures of a page *)

(** C2. When a page request is answered with a status other than 200, the
    fetch ends there and returns exactly the records accumulated from the
    earlier pages (none when it is the first page); nothing is raised,
    and the loop over the regions goes on with the next region. *)
Theorem fetch_bad_status_returns_accumulated k region sd ed w0 pages l w fuel :
  reaches handle (initial_locals k region sd ed) w0 pages l w ->
  status_code (snd (handle (srv w) url (params_ l))) <> 200 ->
  (length pages < fuel)%nat ->
  let w' :=
    after_request w (fst (handle (srv w) url (params_ l))) url (params_ l) in
  fetch_eia_electricity_demand handle fuel k region sd ed w0
  = (Done (concat pages), w')
  /\ (pages = [] ->
      fetch_eia_electricity_demand handle fuel k region sd ed w0 = (Done [], w'))
  /\ forall rest acc,
      ingest_regions handle fuel k (region :: rest) sd ed acc w0
      = ingest_regions handle fuel k rest sd ed (acc ++ concat pages) w'.
Proof.
  intros Hr Hs Hf w'.
  assert (Hfetch : fetch_eia_electricity_demand handle fuel k region sd ed w0
                   = (Done (concat pages), w')).
  { rewrite fetch_unfold.
    rewrite (fetch_stops_after _ _ _ _ _ (Done l) w' fuel Hr);
      [| | discriminate | exact Hf].
    - now rewrite (reaches_all_data _ _ _ _ _ Hr).
    - apply while_true_break.
      apply (loop_body_bad_status _ _ _ (snd (handle (srv w) url (params_ l))));
        [| exact Hs].
      now destruct (handle (srv w) url (params_ l)). }
  split; [exact Hfetch |]. split.
  - intros E. rewrite Hfetch, E. reflexivity.
  - intros rest acc. now apply ingest_regions_next.
Qed.

(** C3, as the code has it. A decoded JSON object that lacks the
    "response" container, or whose container lacks "data", ends the fetch
    with the records accumulated so far and the loop over the regions goes
    on. A body that is not JSON, and a payload that has the data array
    but no "total", are not absorbed: the exception leaves the fetch and
    ends the loop over the regions. *)
Theorem fetch_payload_errors k region sd ed w0 pages l w fuel :
  reaches handle (initial_locals k region sd ed) w0 pages l w ->
  (length pages < fuel)%nat ->
  status_code (snd (handle (srv w) url (params_ l))) = 200 ->
  let r := snd (handle (srv w) url (params_ l)) in
  let w' :=
    after_request w (fst (handle (srv w) url (params_ l))) url (params_ l) in
  let fetch := fetch_eia_electricity_demand handle fuel k region sd ed w0 in
  let run rest acc :=
    ingest_regions handle fuel k (region :: rest) sd ed acc w0 in
  (forall d,
      body r = Some (Py.Dict d) ->
      Py.lookup "response" d = None
      \/ (exists rd, Py.lookup "response" d = Some (Py.Dict rd)
                     /\ Py.lookup "data" rd = None) ->
      fetch = (Done (concat pages), w')
      /\ forall rest acc,
          run rest acc
          = ingest_regions handle fuel k rest sd ed (acc ++ concat pages) w')
  /\ (body r = None ->
      fetch = (Raised JSONDecodeError, w')
      /\ forall rest acc, run rest acc = (Raised JSONDecodeError, w'))
  /\ (forall d rd recs,
      body r = Some (Py.Dict d) ->
      Py.lookup "response" d = Some (Py.Dict rd) ->
      Py.lookup "data" rd = Some (Py.List recs) ->
      Py.lookup "total" rd = None ->
      fetch = (Raised (KeyError "total"), w')
      /\ forall rest acc, run rest acc = (Raised (KeyError "total"), w')).
Proof.
  intros Hr Hf Hs r w' fetch run.
  assert (Hh : handle (srv w) url (params_ l)
               = (fst (handle (srv w) url (params_ l)), r)).
  { subst r. now destruct (handle (srv w) url (params_ l)). }
  assert (Hraise : forall e,
             loop_body handle l w = (Raised e, w') ->
             fetch = (Raised e, w')
             /\ forall rest acc, run rest acc = (Raised e, w')).
  { intros e Hb.
    assert (Hfetch : fetch = (Raised e, w')).
    { subst fetch. rewrite fetch_unfold.
      rewrite (fetch_stops_after _ _ _ _ _ (Raised e) w' fuel Hr);
        [reflexivity | | discriminate | exact Hf].
      now apply while_true_raise. }
    split; [exact Hfetch |]. intros rest acc.
    now apply ingest_regions_raise. }
  split; [| split].
  - intros d Hb Hc.
    assert (Hfetch : fetch = (Done (concat pages), w')).
    { subst fetch. rewrite fetch_unfold.
      rewrite (fetch_stops_after _ _ _ _ _ (Done l) w' fuel Hr);
        [| | discriminate | exact Hf].
      - now rewrite (reaches_all_data _ _ _ _ _ Hr).
      - apply while_true_break.
        now apply (loop_body_no_container _ _ _ r d). }
    split; [exact Hfetch |]. intros rest acc.
    now apply ingest_regions_next.
  - intros Hb. apply Hraise.
    now apply (loop_body_bad_json _ _ _ r).
  - intros d rd recs Hb Hrsp Hd Ht. apply Hraise.
    now apply (loop_body_no_total _ _ _ r d rd recs).
Qed.

(** C10. When the first response is a well-formed page whose reported
    total is at most the number of records it carries, the fetch sends
    exactly one request and returns exactly that page's records. *)
Theorem fetch_single_page k region sd ed w0 s' r recs total fuel :
  handle (srv w0) url (initial_params k region sd ed) = (s', r) ->
  is_page r recs total ->
  total <= Py.len recs ->
  fetch_eia_electricity_demand handle (S fuel) k region sd ed w0
  = (Done recs, after_request w0 s' url (initial_params k region sd ed)).
Proof.
  intros Hh Hp Ht. rewrite fetch_unfold.
  rewrite (while_true_break fuel _ _
             {| params_ := initial_params k region sd ed; all_data := recs |}
             (after_request w0 s' url (initial_params k region sd ed))).
  - reflexivity.
  - rewrite (loop_body_page _ _ s' r recs total); [| exact Hh | exact Hp].
    cbn [initial_locals all_data params_ app].
    destruct (Z.geb_spec (Py.len recs) total); [reflexivity | lia].
Qed.

(** ** Termination *)

Lemma len_app (a b : list Py.obj) : Py.len (a ++ b) = Py.len a + Py.len b.
Proof. unfold Py.len. rewrite length_app. lia. Qed.

Lemma len_nonempty (a : list Py.obj) : a <> [] -> 1 <= Py.len a.
Proof. destruct a; [congruence |]. unfold Py.len. cbn [length]. lia. Qed.

Section Progress.

Variables (l0 : locals) (w0 : world server) (T : Z).

(** Every page answered with status 200 is well-formed, reports a total of
    at most [T] and carries at least one record unless the records
    accumulated already reach its total. *)
Hypothesis progress : forall pages l w,
  reaches handle l0 w0 pages l w ->
  status_code (snd (handle (srv w) url (params_ l))) = 200 ->
  exists recs total,
    is_page (snd (handle (srv w) url (params_ l))) recs total
    /\ total <= T
    /\ (recs = [] -> total <= Py.len (all_data l)).

Lemma while_true_progress n : forall pages l w,
  reaches handle l0 w0 pages l w ->
  Z.max 1 (T - Py.len (all_data l)) <= Z.of_nat n ->
  exists l' w',
    while_true handle n l w = (Done l', w')
    /\ (length (sent w') <= length (sent w) + n)%nat.
Proof.
  induction n as [| n IH]; intros pages l w Hr Hn; [lia |].
  destruct (handle (srv w) url (params_ l)) as [s' r] eqn:Hh.
  destruct (Z.eq_dec (status_code r) 200) as [Hs | Hs].
  - destruct (progress pages l w Hr) as (recs & total & Hp & HT & Hne).
    { now rewrite Hh. }
    rewrite Hh in Hp. cbn [snd] in Hp.
    pose proof (loop_body_page l w s' r recs total Hh Hp) as Hb.
    destruct (Z.geb_spec (Py.len (all_data l ++ recs)) total) as [Hge | Hlt].
    + eexists _, _. split; [now apply while_true_break; exact Hb |].
      cbn. rewrite length_app. cbn. lia.
    + rewrite (while_true_continue _ _ _ _ _ Hb).
      assert (Hrecs : recs <> []).
      { intros E. specialize (Hne E). subst recs.
        rewrite app_nil_r in Hlt. lia. }
      apply len_nonempty in Hrecs. rewrite len_app in Hlt.
      destruct (IH (pages ++ [recs]) _ _
                   (reaches_next _ _ _ _ _ _ recs _ _ Hr Hb eq_refl))
        as (l' & w' & Hw & Hsent).
      { cbn [all_data]. rewrite len_app. lia. }
      exists l', w'. split; [exact Hw |].
      cbn in Hsent. rewrite length_app in Hsent. cbn in Hsent. lia.
  - eexists _, _. split.
    + apply while_true_break. now apply (loop_body_bad_status l w s' r).
    + cbn. rewrite length_app. cbn. lia.
Qed.

End Progress.

(** C1, as the code has it. The loop stops at the first page with which
    the accumulated count reaches the reported total. It terminates, after
    at most max(1, T) requests, when every page answered with status 200
    is well-formed, reports a total of at most T and carries at least one
    record unless the records accumulated already reach its total. *)
Theorem fetch_stops_at_total_terminates_on_progress k region sd ed w0 :
  (forall pages l w recs total fuel,
      reaches handle (initial_locals k region sd ed) w0 pages l w ->
      is_page (snd (handle (srv w) url (params_ l))) recs total ->
      total <= Py.len (concat pages ++ recs) ->
      (length pages < fuel)%nat ->
      fetch_eia_electricity_demand handle fuel k region sd ed w0
      = (Done (concat pages ++ recs),
         after_request w (fst (handle (srv w) url (params_ l))) url (params_ l)))
  /\ (forall T fuel,
      (forall pages l w,
          reaches handle (initial_locals k region sd ed) w0 pages l w ->
          status_code (snd (handle (srv w) url (params_ l))) = 200 ->
          exists recs total,
            is_page (snd (handle (srv w) url (params_ l))) recs total
            /\ total <= T
            /\ (recs = [] -> total <= Py.len (all_data l))) ->
      (Z.to_nat (Z.max 1 T) <= fuel)%nat ->
      exists data w',
        fetch_eia_electricity_demand handle fuel k region sd ed w0
        = (Done data, w')
        /\ (length (sent w') <= length (sent w0) + Z.to_nat (Z.max 1 T))%nat).
Proof.
  split.
  - intros pages l w recs total fuel Hr Hp Ht Hf.
    pose proof (reaches_all_data _ _ _ _ _ Hr) as Ha. cbn in Ha.
    rewrite fetch_unfold.
    rewrite (fetch_stops_after _ _ _ _ _
               (Done {| params_ := params_ l; all_data := all_data l ++ recs |})
               (after_request w (fst (handle (srv w) url (params_ l))) url
                              (params_ l)) fuel Hr);
      [| | discriminate | exact Hf].
    + cbn. now rewrite Ha.
    + apply while_true_break.
      rewrite (loop_body_page l w (fst (handle (srv w) url (params_ l)))
                 (snd (handle (srv w) url (params_ l))) recs total);
        [| | exact Hp].
      * rewrite Ha.
        destruct (Z.geb_spec (Py.len (concat pages ++ recs)) total);
          [reflexivity | lia].
      * now destruct (handle (srv w) url (params_ l)).
  - intros T fuel Hprog Hf.
    destruct (while_true_progress _ _ T Hprog (Z.to_nat (Z.max 1 T)) []
                _ _ (reaches_start _ _ _))
      as (l' & w' & Hw & Hsent).
    { cbn. lia. }
    exists (all_data l'), w'. split; [| exact Hsent].
    rewrite fetch_unfold.
    replace fuel
      with (Z.to_nat (Z.max 1 T) + (fuel - Z.to_nat (Z.max 1 T)))%nat by lia.
    rewrite (while_true_more_fuel _ _ _ _ _ Hw); [reflexivity | discriminate].
Qed.

(** ** The offset *)

Lemma len_concat_full (pages : list (list Py.obj)) :
  Forall (fun items => Py.len items = 5000) pages ->
  Py.len (concat pages) = 5000 * Z.of_nat (length pages).
Proof.
  induction 1 as [| items pages Hi _ IH]; [reflexivity |].
  cbn [concat length]. rewrite len_app, Hi, IH. lia.
Qed.

(** C9, as the code has it. The offset sent in a request is 5000 times the
    number of pages fetched before it; it is the number of records
    accumulated so far when each of those pages carried exactly 5000. *)
Theorem offset_counts_pages k region sd ed w0 pages l w :
  reaches handle (initial_locals k region sd ed) w0 pages l w ->
  offset (params_ l) = 5000 * Z.of_nat (length pages)
  /\ (Forall (fun items => Py.len items = 5000) pages ->
      offset (params_ l) = Py.len (all_data l)).
Proof.
  intros Hr.
  pose proof (reaches_offset _ _ _ _ _ Hr) as Ho. cbn in Ho.
  split; [exact Ho |].
  intros Hfull.
  rewrite (reaches_all_data _ _ _ _ _ Hr). cbn [initial_locals all_data app].
  now rewrite len_concat_full.
Qed.

(** ** Determinism *)

(** The outcome of an iteration and the server's next state depend on the
    server's state alone, not on the requests sent before. *)
Lemma loop_body_srv l w1 w2 :
  srv w1 = srv w2 ->
  exists o,
    let s' := fst (handle (srv w1) url (params_ l)) in
    loop_body handle l w1 = (o, after_request w1 s' url (params_ l))
    /\ loop_body handle l w2 = (o, after_request w2 s' url (params_ l)).
Proof.
  intros E. unfold loop_body, bind, requests_get. rewrite <- E.
  assert (same : forall (o : outcome (flow * locals)) (w w' : world server),
             exists o', (o, w) = (o', w) /\ (o, w') = (o', w')).
  { intros o w w'. exists o. split; reflexivity. }
  destruct (handle (srv w1) url (params_ l)) as [s' r]. cbn.
  destruct (status_code r =? 200); cbn; [| apply same].
  unfold lift.
  destruct (json r) as [jd |]; [| apply same].
  destruct (Py.not_in "response" jd) as [[] |]; cbn; try apply same.
  destruct (Py.getitem jd "response") as [rsp |]; [| apply same].
  destruct (Py.not_in "data" rsp) as [[] |]; cbn; try apply same.
  destruct (Py.getitem rsp "data") as [data |]; [| apply same].
  destruct (Py.extend (all_data l) data) as [items |]; cbn; [| apply same].
  destruct (Py.getitem rsp "total") as [t |]; [| apply same].
  destruct (Py.int t) as [total |]; [| apply same].
  destruct (Py.len items >=? total); apply same.
Qed.

Lemma while_true_srv fuel : forall l w1 w2,
  srv w1 = srv w2 ->
  fst (while_true handle fuel l w1) = fst (while_true handle fuel l w2)
  /\ srv (snd (while_true handle fuel l w1))
     = srv (snd (while_true handle fuel l w2)).
Proof.
  induction fuel as [| fuel IH]; intros l w1 w2 E; [now cbn |].
  destruct (loop_body_srv l w1 w2 E) as (o & H1 & H2).
  cbn. unfold bind. rewrite H1, H2.
  destruct o as [[[] l'] | e |]; cbn; auto.
Qed.

Lemma while_true_read_only fuel :
  (forall s u p, fst (handle s u p) = s) ->
  forall l w, srv (snd (while_true handle fuel l w)) = srv w.
Proof.
  intros Hro. induction fuel as [| fuel IH]; intros l w; [reflexivity |].
  destruct (loop_body_srv l w w eq_refl) as (o & H1 & _).
  cbn. unfold bind. rewrite H1.
  destruct o as [[[] l'] | e |]; cbn; try apply Hro.
  rewrite IH. cbn. apply Hro.
Qed.

Lemma fetch_srv k region sd ed fuel w1 w2 :
  srv w1 = srv w2 ->
  fst (fetch_eia_electricity_demand handle fuel k region sd ed w1)
  = fst (fetch_eia_electricity_demand handle fuel k region sd ed w2).
Proof.
  intros E. rewrite !fetch_unfold.
  destruct (while_true_srv fuel (initial_locals k region sd ed) w1 w2 E)
    as (Ho & _).
  destruct (while_true handle fuel (initial_locals k region sd ed) w1)
    as [o1 w1'].
  destruct (while_true handle fuel (initial_locals k region sd ed) w2)
    as [o2 w2'].
  cbn [fst] in Ho. subst o2. now destruct o1.
Qed.

Lemma fetch_read_only k region sd ed fuel w :
  (forall s u p, fst (handle s u p) = s) ->
  srv (snd (fetch_eia_electricity_demand handle fuel k region sd ed w)) = srv w.
Proof.
  intros Hro. rewrite fetch_unfold.
  pose proof (while_true_read_only fuel Hro (initial_locals k region sd ed) w)
    as H.
  destruct (while_true handle fuel (initial_locals k region sd ed) w)
    as [[] ?]; exact H.
Qed.

(** C7. Two fetches with the same arguments that find the server in the
    same state yield the same outcome, whatever was sent before either of
    them: a fetch starts from fresh locals and reads nothing that an
    earlier call left. In particular, against a server whose state
    requests do not change, a second fetch right after the first yields
    the same outcome. *)
Theorem fetch_twice_same_output k region sd ed fuel :
  (forall w1 w2,
      srv w1 = srv w2 ->
      fst (fetch_eia_electricity_demand handle fuel k region sd ed w1)
      = fst (fetch_eia_electricity_demand handle fuel k region sd ed w2))
  /\ ((forall s u p, fst (handle s u p) = s) ->
      forall w,
        let first := fetch_eia_electricity_demand handle fuel k region sd ed w in
        let second :=
          fetch_eia_electricity_demand handle fuel k region sd ed (snd first) in
        fst second = fst first /\ srv (snd first) = srv w).
Proof.
  split; [intros w1 w2; apply fetch_srv |].
  intros Hro w first second.
  assert (Hsrv : srv (snd first) = srv w) by now apply fetch_read_only.
  split; [| exact Hsrv]. now apply fetch_srv.
Qed.

End FetchFacts.

(** ** The fetcher against particular servers *)

Section FetchRuns.
Import Http Fetch Servers.

Lemma is_page_page recs t total :
  Py.int t = Val total -> is_page (page recs t) recs total.
Proof.
  intros H. split; [reflexivity |].
  exists (Py.Dict [("response", Py.Dict [("total", t); ("data", Py.List recs)])]),
    (Py.Dict [("total", t); ("data", Py.List recs)]), t.
  repeat split; try reflexivity. exact H.
Qed.

Lemma paged_server_body cap recs l (w : world unit) :
  loop_body (paged_server cap recs) l w
  = let rows := firstn (Z.to_nat (Z.min (length_ (params_ l)) cap))
                       (skipn (Z.to_nat (offset (params_ l))) recs) in
    (Done (if Py.len (all_data l ++ rows) >=? Py.len recs
           then (Break, {| params_ := params_ l;
                           all_data := all_data l ++ rows |})
           else (Continue,
                 {| params_ := set_offset (params_ l) (offset (params_ l) + 5000);
                    all_data := all_data l ++ rows |})),
     after_request w (srv w) url (params_ l)).
Proof.
  cbv zeta.
  apply (loop_body_page (paged_server cap recs) l w (srv w)
           (page (firstn (Z.to_nat (Z.min (length_ (params_ l)) cap))
                         (skipn (Z.to_nat (offset (params_ l))) recs))
                 (Py.Int (Py.len recs)))).
  - reflexivity.
  - now apply is_page_page.
Qed.

(** C8. For 5001 matching records served in pages of 5000, the fetch
    sends exactly two requests, at the offsets 0 and 5000, and returns
    the 5001 records as they are, none dropped and none repeated; their
    count is the total every page reports. *)
Theorem fetch_5001_in_two_pages recs k region sd ed fuel :
  Py.len recs = 5001 ->
  (2 <= fuel)%nat ->
  let p0 := initial_params k region sd ed in
  fetch_eia_electricity_demand (paged_server 5000 recs) fuel k region sd ed
    (fresh tt)
  = (Done recs,
     {| srv := tt; sent := [(url, p0); (url, set_offset p0 5000)] |})
  /\ forall p, exists rows,
      is_page (snd (paged_server 5000 recs tt url p)) rows (Py.len recs).
Proof.
  intros Hlen Hf p0. split.
  - destruct fuel as [| [| fuel]]; try lia.
    rewrite fetch_unfold.
    assert (H5000 : Z.min 5000 5000 = 5000) by reflexivity.
    unfold Py.len in Hlen.
    set (N := Z.to_nat 5000).
    assert (HN : Z.of_nat N = 5000) by (subst N; lia).
    (* first page *)
    erewrite while_true_continue; cycle 1.
    { rewrite paged_server_body.
      cbn [initial_locals params_ all_data initial_params length_ offset app].
      rewrite H5000. fold N. change (Z.to_nat 0) with 0%nat.
      cbn [skipn].
      destruct (Z.geb_spec (Py.len (firstn N recs)) (Py.len recs)) as [Hge |];
        [| reflexivity].
      unfold Py.len in Hge. rewrite length_firstn in Hge. lia. }
    (* second page *)
    erewrite while_true_break; cycle 1.
    { rewrite paged_server_body.
      cbn [initial_locals params_ all_data initial_params length_ offset
           set_offset Z.add].
      rewrite H5000. fold N.
      rewrite (firstn_all2 (n := N) (skipn N recs))
        by (rewrite length_skipn; lia).
      rewrite firstn_skipn.
      destruct (Z.geb_spec (Py.len recs) (Py.len recs)); [reflexivity | lia]. }
    reflexivity.
  - intros p. eexists. unfold paged_server. cbn [snd].
    now apply is_page_page.
Qed.

(** *** A server that serves one row per page *)

Lemma capped_server_stuck fuel : forall l (w : world unit),
  2 <= offset (params_ l) ->
  all_data l = [day1] ->
  fst (while_true (paged_server 1 [day1; day2]) fuel l w) = OutOfFuel.
Proof.
  induction fuel as [| fuel IH]; intros l w Ho Ha; [reflexivity |].
  erewrite while_true_continue.
  - apply IH with (l := {| params_ := set_offset (params_ l)
                                        (offset (params_ l) + 5000);
                           all_data := [day1] |}); cbn; [lia | reflexivity].
  - rewrite paged_server_body. cbv zeta.
    rewrite (skipn_all2 (n := Z.to_nat (offset (params_ l))) [day1; day2])
      by (cbn [length]; lia).
    rewrite firstn_nil, app_nil_r, Ha. reflexivity.
Qed.

(** C1 fails as stated: against a server that reports two matching rows and
    serves one row per page, the second request, at offset 5000, and every
    later one get an empty page, the accumulated count stays at one, and
    the fetch never ends. *)
Lemma fetch_capped_server_diverges :
  ~ terminates (paged_server 1 [day1; day2])
      "key" "PJM" START_DATE "2024-01-02" (fresh tt).
Proof.
  intros (fuel & o & w' & H & Ho). apply Ho.
  change o with (fst (o, w')). rewrite <- H. rewrite fetch_unfold.
  destruct fuel as [| fuel]; [reflexivity |].
  erewrite while_true_continue; cycle 1.
  { rewrite paged_server_body. reflexivity. }
  match goal with
  | |- fst (match ?W with _ => _ end) = _ =>
      pose proof (capped_server_stuck fuel
                    {| params_ := set_offset
                                    (initial_params "key" "PJM" START_DATE
                                                    "2024-01-02") 5000;
                       all_data := [day1] |}
                    (after_request (fresh tt) tt url
                       (initial_params "key" "PJM" START_DATE "2024-01-02")))
        as Hs
  end.
  cbn [params_ all_data set_offset offset] in Hs.
  specialize (Hs ltac:(lia) eq_refl).
  match goal with
  | |- fst (match ?W with _ => _ end) = _ =>
      change W with
        (while_true (paged_server 1 [day1; day2]) fuel
           {| params_ := set_offset
                           (initial_params "key" "PJM" START_DATE "2024-01-02")
                           5000;
              all_data := [day1] |}
           (after_request (fresh tt) tt url
              (initial_params "key" "PJM" START_DATE "2024-01-02")))
  end.
  destruct (while_true _ fuel _ _) as [[| |] ?]; cbn in Hs |- *;
    congruence.
Qed.

(** C1 at a server that serves both matching rows in one page, and at one
    whose every page carries one row and reports three. *)
Lemma fetch_stops_at_total_terminates_on_progress_witness :
  fetch_eia_electricity_demand (paged_server 5000 [day1; day2]) 1
    "key" "PJM" START_DATE "2024-01-02" (fresh tt)
  = (Done [day1; day2],
     after_request (fresh tt) tt url
       (initial_params "key" "PJM" START_DATE "2024-01-02"))
  /\ exists data w',
      fetch_eia_electricity_demand
        (payload_server
           (Py.Dict [("response",
                      Py.Dict [("total", Py.Str "3");
                               ("data", Py.List [day1])])]))
        3 "key" "PJM" START_DATE "2024-01-02" (fresh tt)
      = (Done data, w')
      /\ (length (sent w') <= 0 + Z.to_nat (Z.max 1 3))%nat.
Proof.
  split.
  - apply (proj1 (fetch_stops_at_total_terminates_on_progress
                    (paged_server 5000 [day1; day2])
                    "key" "PJM" START_DATE "2024-01-02" (fresh tt))
             [] _ _ [day1; day2] 2 1%nat (reaches_start _ _ _)).
    + apply is_page_page. reflexivity.
    + cbn. lia.
    + cbn. lia.
  - apply (proj2 (fetch_stops_at_total_terminates_on_progress
                    (payload_server _)
                    "key" "PJM" START_DATE "2024-01-02" (fresh tt)) 3 3%nat).
    + intros pages l w _ _. exists [day1], 3.
      split; [apply is_page_page; reflexivity |].
      split; [lia | discriminate].
    + cbn. lia.
Defined.

(** *** A server that fails on the second page *)

Lemma flaky_first_page :
  reaches (flaky_server [day1] 2)
    (initial_locals "key" "PJM" START_DATE "2024-01-02") (fresh 0%nat)
    [[day1]]
    {| params_ := set_offset
                    (initial_params "key" "PJM" START_DATE "2024-01-02") 5000;
       all_data := [day1] |}
    (after_request (fresh 0%nat) 1%nat url
       (initial_params "key" "PJM" START_DATE "2024-01-02")).
Proof.
  apply (reaches_next _ _ _ [] _ _ [day1] _ _ (reaches_start _ _ _));
    reflexivity.
Defined.

(** C2 at a server that answers 500 after one page, and at one that
    answers 500 at once. *)
Lemma fetch_bad_status_returns_accumulated_witness :
  fetch_eia_electricity_demand (flaky_server [day1] 2) 2
    "key" "PJM" START_DATE "2024-01-02" (fresh 0%nat)
  = (Done [day1],
     {| srv := 2%nat;
        sent := [(url, initial_params "key" "PJM" START_DATE "2024-01-02");
                 (url, set_offset
                         (initial_params "key" "PJM" START_DATE "2024-01-02")
                         5000)] |})
  /\ fetch_eia_electricity_demand (status_server 500) 1
       "key" "PJM" START_DATE "2024-01-02" (fresh tt)
     = (Done [],
        {| srv := tt;
           sent := [(url, initial_params "key" "PJM" START_DATE "2024-01-02")] |}).
Proof.
  split.
  - exact (proj1 (fetch_bad_status_returns_accumulated (flaky_server [day1] 2)
                    "key" "PJM" START_DATE "2024-01-02" (fresh 0%nat)
                    [[day1]] _ _ 2%nat flaky_first_page
                    ltac:(cbn; lia) ltac:(cbn; lia))).
  - exact (proj1 (proj2 (fetch_bad_status_returns_accumulated
                           (status_server 500)
                           "key" "PJM" START_DATE "2024-01-02" (fresh tt)
                           [] _ _ 1%nat (reaches_start _ _ _)
                           ltac:(cbn; lia) ltac:(cbn; lia)))
             eq_refl).
Defined.

(** *** Payloads that are not a page *)

(** C3 fails as stated: a body that is not JSON, and a payload that has
    the data array but no total, each end the loop over the regions with
    an exception at the first region. *)
Lemma payload_errors_end_the_run :
  fst (ingest_regions (status_server 200) 3 "key" REGIONS START_DATE
         "2024-01-02" [] (fresh tt))
  = Raised JSONDecodeError
  /\ fst (ingest_regions (payload_server no_total_payload) 3 "key" REGIONS
            START_DATE "2024-01-02" [] (fresh tt))
     = Raised (KeyError "total")
  /\ sent (snd (ingest_regions (payload_server no_total_payload) 3 "key"
                  REGIONS START_DATE "2024-01-02" [] (fresh tt)))
     = [(url, initial_params "key" "PJM" START_DATE "2024-01-02")].
Proof. repeat split. Qed.

(** C3 at a payload without the container, at a body that is not JSON and
    at a payload without the total. *)
Lemma fetch_payload_errors_witness :
  fst (fetch_eia_electricity_demand (payload_server error_payload) 1
         "key" "PJM" START_DATE "2024-01-02" (fresh tt))
  = Done []
  /\ fst (fetch_eia_electricity_demand (status_server 200) 1
            "key" "PJM" START_DATE "2024-01-02" (fresh tt))
     = Raised JSONDecodeError
  /\ fst (fetch_eia_electricity_demand (payload_server no_total_payload) 1
            "key" "PJM" START_DATE "2024-01-02" (fresh tt))
     = Raised (KeyError "total").
Proof.
  split; [| split].
  - rewrite (proj1 (proj1 (fetch_payload_errors (payload_server error_payload)
                             "key" "PJM" START_DATE "2024-01-02" (fresh tt)
                             [] _ _ 1%nat (reaches_start _ _ _)
                             ltac:(cbn; lia) eq_refl)
                      _ eq_refl (or_introl eq_refl))).
    reflexivity.
  - rewrite (proj1 (proj1 (proj2 (fetch_payload_errors (status_server 200)
                             "key" "PJM" START_DATE "2024-01-02" (fresh tt)
                             [] _ _ 1%nat (reaches_start _ _ _)
                             ltac:(cbn; lia) eq_refl))
                      eq_refl)).
    reflexivity.
  - rewrite (proj1 (proj2 (proj2 (fetch_payload_errors
                             (payload_server no_total_payload)
                             "key" "PJM" START_DATE "2024-01-02" (fresh tt)
                             [] _ _ 1%nat (reaches_start _ _ _)
                             ltac:(cbn; lia) eq_refl))
                      _ _ _ eq_refl eq_refl eq_refl eq_refl)).
    reflexivity.
Defined.

(** *** The offset against the record count *)

Lemma capped_first_page :
  reaches (paged_server 1 [day1; day2])
    (initial_locals "key" "PJM" START_DATE "2024-01-02") (fresh tt)
    [[day1]]
    {| params_ := set_offset
                    (initial_params "key" "PJM" START_DATE "2024-01-02") 5000;
       all_data := [day1] |}
    (after_request (fresh tt) tt url
       (initial_params "key" "PJM" START_DATE "2024-01-02")).
Proof.
  apply (reaches_next _ _ _ [] _ _ [day1] _ _ (reaches_start _ _ _));
    reflexivity.
Defined.

(** C9 fails as stated: against a server that serves one row per page, the
    second request goes out with offset 5000 while one record has been
    accumulated. *)
Lemma offset_is_not_record_count :
  ~ offset_is_record_count (paged_server 1 [day1; day2])
      (initial_locals "key" "PJM" START_DATE "2024-01-02") (fresh tt).
Proof.
  intros H. specialize (H _ _ _ capped_first_page). discriminate H.
Qed.

(** C9 at the second request to the server that serves one row per page,
    and at the first request, with no page fetched yet. *)
Lemma offset_counts_pages_witness :
  5000 = 5000 * Z.of_nat (length [[day1]])
  /\ offset (initial_params "key" "PJM" START_DATE "2024-01-02")
     = Py.len [].
Proof.
  split.
  - exact (proj1 (offset_counts_pages (paged_server 1 [day1; day2])
                    "key" "PJM" START_DATE "2024-01-02" (fresh tt)
                    _ _ _ capped_first_page)).
  - exact (proj2 (offset_counts_pages (paged_server 1 [day1; day2])
                    "key" "PJM" START_DATE "2024-01-02" (fresh tt)
                    _ _ _ (reaches_start _ _ _))
             (Forall_nil _)).
Defined.

(** *** Witnesses on the paginating server *)

(** C7 at a fetch of two rows in one page, run twice in a row, and run
    after one request of another kind has been sent. *)
Lemma fetch_twice_same_output_witness :
  let run := fetch_eia_electricity_demand (paged_server 5000 [day1; day2]) 3
               "key" "PJM" START_DATE "2024-01-02" in
  fst (run (snd (run (fresh tt)))) = fst (run (fresh tt))
  /\ fst (run {| srv := tt;
                 sent := [(url, initial_params "key" "TVA" START_DATE
                                  "2024-01-02")] |})
     = fst (run (fresh tt)).
Proof.
  split.
  - exact (proj1 (proj2 (fetch_twice_same_output (paged_server 5000 [day1; day2])
                           "key" "PJM" START_DATE "2024-01-02" 3)
                    (fun s u p => eq_refl) (fresh tt))).
  - exact (proj1 (fetch_twice_same_output (paged_server 5000 [day1; day2])
                    "key" "PJM" START_DATE "2024-01-02" 3)
             _ (fresh tt) eq_refl).
Defined.

(** C8 at 5001 copies of one row. *)
Lemma fetch_5001_in_two_pages_witness :
  fetch_eia_electricity_demand
    (paged_server 5000 (repeat day1 (Z.to_nat 5001))) 2
    "key" "PJM" START_DATE "2024-01-02" (fresh tt)
  = (Done (repeat day1 (Z.to_nat 5001)),
     {| srv := tt;
        sent := [(url, initial_params "key" "PJM" START_DATE "2024-01-02");
                 (url, set_offset
                         (initial_params "key" "PJM" START_DATE "2024-01-02")
                         5000)] |}).
Proof.
  exact (proj1 (fetch_5001_in_two_pages (repeat day1 (Z.to_nat 5001))
                  "key" "PJM" START_DATE "2024-01-02" 2
                  ltac:(vm_compute; reflexivity) ltac:(lia))).
Defined.

(** C10 at a query that matches nothing: total 0 and an empty data
    array. *)
Lemma fetch_single_page_witness :
  fetch_eia_electricity_demand (paged_server 5000 []) 1
    "key" "PJM" START_DATE "2024-01-02" (fresh tt)
  = (Done [],
     {| srv := tt;
        sent := [(url, initial_params "key" "PJM" START_DATE "2024-01-02")] |}).
Proof.
  exact (fetch_single_page (paged_server 5000 [])
           "key" "PJM" START_DATE "2024-01-02" (fresh tt) tt
           (page [] (Py.Int 0)) [] 0 0
           eq_refl (is_page_page [] (Py.Int 0) 0 eq_refl) ltac:(cbn; lia)).
Defined.

End FetchRuns.

(** * Properties of the normalizer *)

Section NormalizerFacts.
Import Spark Bronze.

Context {engine : Engine}.
Variable now : Z.

(** ** From the fetched rows to [df] *)

Lemma verify_dict_raw d (sch : StructType) :
  Forall (fun f => dataType f = StringType /\ nullable f = true) sch ->
  forallb (fun f =>
             match Py.lookup (name f) d with
             | None | Some Py.None_ | Some (Py.Str _) => true
             | Some _ => false
             end) sch = true ->
  verify_dict sch d
  = Val (map (fun f => nullable_value VString (field (name f) (Py.Dict d))) sch).
Proof.
  induction 1 as [| f sch [Ht Hn] _ IH]; intros Hall; [reflexivity |].
  cbn [forallb] in Hall. apply andb_prop in Hall as [Hf Hall].
  cbn [verify_dict map]. rewrite (IH Hall).
  unfold verify_field, field. rewrite Ht, Hn.
  destruct (Py.lookup (name f) d) as [[] |]; try discriminate; reflexivity.
Qed.

Lemma schema_strings :
  Forall (fun f => dataType f = StringType /\ nullable f = true) Bronze.schema.
Proof. repeat constructor. Qed.

Lemma verify_rows_raw records :
  Forall (fun o => raw_record o = true) records ->
  verify_rows Bronze.schema records = Val (map raw_row records).
Proof.
  induction 1 as [| o records Ho _ IH]; [reflexivity |].
  cbn [verify_rows map]. rewrite IH.
  destruct o; try discriminate.
  unfold verify_row. rewrite (verify_dict_raw _ _ schema_strings Ho).
  reflexivity.
Qed.

(** ** Row by row *)

Lemma map_res_map {A B C : Type} (f : B -> res C) (h : A -> B) l :
  map_res f (map h l) = map_res (fun a => f (h a)) l.
Proof.
  induction l as [| a l IH]; [reflexivity |].
  cbn [map map_res]. now rewrite IH.
Qed.

Lemma map_res_ext {A B : Type} (f g : A -> res B) l :
  (forall a, f a = g a) -> map_res f l = map_res g l.
Proof.
  intros H. induction l as [| a l IH]; [reflexivity |].
  cbn [map_res]. now rewrite H, IH.
Qed.

Lemma map_res_total {A B : Type} (f : A -> res B) (g : A -> B) l :
  (forall a, f a = Val (g a)) -> map_res f l = Val (map g l).
Proof.
  intros H. induction l as [| a l IH]; [reflexivity |].
  cbn [map_res map]. now rewrite H, IH.
Qed.

(** A pass in which only a first step [g] can raise: it raises where [g]
    first does, and else yields one result per item, in order. *)
Lemma map_res_step {A B C : Type} (g : A -> res B) (h : A -> B -> C) l :
  map_res (fun a => res_bind (g a) (fun b => Val (h a b))) l
  = res_bind (map_res g l)
      (fun bs => Val (map (fun p => h (fst p) (snd p)) (combine l bs))).
Proof.
  induction l as [| a l IH]; [reflexivity |].
  cbn [map_res]. rewrite IH.
  destruct (g a) as [b | e]; cbn [res_bind]; [| reflexivity].
  destruct (map_res g l) as [bs | e]; reflexivity.
Qed.

Lemma map_res_length {A B : Type} (f : A -> res B) l bs :
  map_res f l = Val bs -> length bs = length l.
Proof.
  revert bs. induction l as [| a l IH]; intros bs H.
  - injection H as <-. reflexivity.
  - cbn [map_res] in H. destruct (f a); [| discriminate].
    destruct (map_res f l); [| discriminate].
    injection H as <-. cbn [length]. now rewrite (IH _ eq_refl).
Qed.

Lemma map_res_nth {A B : Type} (f : A -> res B) l bs i a :
  map_res f l = Val bs ->
  nth_error l i = Some a ->
  exists b, nth_error bs i = Some b /\ f a = Val b.
Proof.
  revert bs i. induction l as [| a' l IH]; intros bs i H Hi.
  - destruct i; discriminate.
  - cbn [map_res] in H. destruct (f a') as [b' |] eqn:Ef; [| discriminate].
    destruct (map_res f l) as [bs' |]; [| discriminate].
    injection H as <-. destruct i as [| i].
    + injection Hi as <-. exists b'. now split.
    + apply (IH bs' i eq_refl Hi).
Qed.

(** A pass raises exactly when it raises on an item, and then as on the
    first such item. *)
Lemma map_res_exc {A B : Type} (f : A -> res B) l e :
  map_res f l = Exc e <->
  exists l1 a l2,
    l = l1 ++ a :: l2
    /\ f a = Exc e
    /\ Forall (fun a' => exists b, f a' = Val b) l1.
Proof.
  split.
  - induction l as [| a l IH]; [discriminate |].
    cbn [map_res]. destruct (f a) as [b |e'] eqn:Ef.
    + destruct (map_res f l) as [bs | e'']; [discriminate |].
      intros H. injection H as ->.
      destruct (IH eq_refl) as (l1 & a' & l2 & -> & Ha & Hl1).
      exists (a :: l1), a', l2. split; [reflexivity |]. split; [exact Ha |].
      constructor; [now exists b | exact Hl1].
    + intros H. injection H as ->. exists [], a, l.
      split; [reflexivity |]. split; [exact Ef | constructor].
  - intros (l1 & a & l2 & -> & Ha & Hl1).
    induction Hl1 as [| a' l1 [b Hb] _ IH].
    + cbn [app map_res]. now rewrite Ha.
    + cbn [app map_res]. now rewrite Hb, IH.
Qed.

Lemma withColumn_new colName c sch rs t :
  type_of sch c = Val t ->
  positions colName sch 0 = [] ->
  withColumn now colName c {| Spark.schema := sch; rows := rs |}
  = res_bind
      (map_res (fun row => res_bind (eval now sch row c)
                             (fun v => Val (row ++ [v]))) rs)
      (fun rs' =>
         Val {| Spark.schema :=
                  sch ++ [{| name := colName; dataType := t;
                             nullable := nullable_of sch c |}];
                rows := rs' |}).
Proof.
  intros Ht Hp. unfold withColumn. cbn [Spark.schema rows].
  rewrite Ht, Hp. reflexivity.
Qed.

Lemma length_eqb_Z s n :
  (Z.of_nat (String.length s) =? Z.of_nat n) = (String.length s =? n)%nat.
Proof.
  destruct (Nat.eqb_spec (String.length s) n),
    (Z.eqb_spec (Z.of_nat (String.length s)) (Z.of_nat n));
    try reflexivity; lia.
Qed.

Ltac norm_schema :=
  match goal with
  | |- context [ {| Spark.schema := ?s ; rows := _ |} ] =>
      let s' := eval vm_compute in s in change s with s'
  end.

Ltac eval_columns :=
  cbn [eval F.col F.lit F.length F.to_date F.current_timestamp F.when F.when_
       F.otherwise eq_int cast_double alias app res_bind map_res];
  repeat match goal with
         | |- context [resolve ?n ?s] =>
             let r := eval vm_compute in (resolve n s) in
             change (resolve n s) with r
         end;
  cbn [nth app nullable_value value_eqb res_bind].

Lemma normalize_with_date records :
  map_res (normalize now) records
  = res_bind (map_res normalize_date records)
      (fun ds => Val (map (fun p => with_date now (fst p) (snd p))
                        (combine records ds))).
Proof. unfold normalize. apply map_res_step. Qed.

(** Adds a column that cannot raise. *)
Ltac add_column k :=
  erewrite withColumn_new;
  [| vm_compute; reflexivity | vm_compute; reflexivity ];
  rewrite map_res_map;
  rewrite (map_res_total _ k);
  [cbn [res_bind]; norm_schema |].

Lemma df_bronze_raw records :
  df_bronze now {| Spark.schema := Bronze.schema; rows := map raw_row records |}
  = res_bind (map_res (normalize now) records)
      (fun rs => Val {| Spark.schema := bronze_schema; rows := map to_row rs |}).
Proof.
  rewrite normalize_with_date.
  unfold df_bronze.
  erewrite withColumn_new;
    [| vm_compute; reflexivity | vm_compute; reflexivity ].
  rewrite map_res_map.
  rewrite (map_res_ext _
             (fun o => res_bind (normalize_date o)
                         (fun d => Val (raw_row o ++ [nullable_value VDate d])))).
  2:{ intros o. unfold raw_row, normalize_date.
      cbn [map Bronze.schema name].
      destruct (field "period" o) as [s |]; eval_columns; [| reflexivity].
      unfold normalize_period. rewrite <- !length_eqb_Z.
      change (Z.of_nat 8) with 8. change (Z.of_nat 10) with 10.
      destruct (Z.of_nat (String.length s) =? 8);
        [destruct (parse_date "yyyyMMdd" s); reflexivity |].
      destruct (Z.of_nat (String.length s) =? 10);
        [destruct (parse_date "yyyy-MM-dd" s); reflexivity | reflexivity]. }
  rewrite map_res_step.
  destruct (map_res normalize_date records) as [ds | e]; [| reflexivity].
  cbn [res_bind]. norm_schema.
  generalize (combine records ds). intros pairs.
  pose (row1 := fun p : Py.obj * option date =>
                  raw_row (fst p) ++ [nullable_value VDate (snd p)]).
  change (map (fun p => raw_row (fst p) ++ [nullable_value VDate (snd p)]) pairs)
    with (map row1 pairs).
  pose (row2 := fun p : Py.obj * option date =>
                  row1 p ++ [nullable_value VDouble
                               match field "value" (fst p) with
                               | Some v => string_to_double v
                               | None => None
                               end]).
  add_column row2.
  2:{ intros [o d]. unfold row2, row1, raw_row. cbn [fst snd map Bronze.schema name].
      destruct (field "value" o); eval_columns; reflexivity. }
  pose (row3 := fun p : Py.obj * option date => row2 p ++ [VTimestamp now]).
  add_column row3.
  2:{ intros p. reflexivity. }
  pose (row4 := fun p : Py.obj * option date => row3 p ++ [VString "eia_api"]).
  add_column row4.
  2:{ intros p. reflexivity. }
  unfold select. cbn [Spark.schema rows].
  match goal with
  | |- context [ select_fields ?s ?c ] =>
      let s' := eval vm_compute in (select_fields s c) in
      change (select_fields s c) with s'
  end.
  cbn [res_bind].
  rewrite map_res_map.
  rewrite (map_res_total _ (fun p => to_row (with_date now (fst p) (snd p)))).
  2:{ intros [o d]. unfold row4, row3, row2, row1, raw_row, with_date, to_row.
      cbn [fst snd map Bronze.schema name date_ region_code region_name
           data_type_ data_type_name demand_value units ingested_at source].
      eval_columns. reflexivity. }
  cbn [res_bind]. unfold bronze_schema. now rewrite map_map.
Qed.

(** The pipeline on RawRecords: its rows are the normalized records in
    the order of the input, and it raises where the normalization of a
    record first does. *)
Lemma bronze_raw records :
  Forall (fun o => raw_record o = true) records ->
  bronze now records
  = res_bind (map_res (normalize now) records)
      (fun rs => Val {| Spark.schema := bronze_schema; rows := map to_row rs |}).
Proof.
  intros Hraw. unfold bronze, createDataFrame.
  rewrite (verify_rows_raw _ Hraw). cbn [res_bind].
  apply df_bronze_raw.
Qed.

Lemma normalize_parses o :
  period_passes o = true ->
  exists d, normalize_date o = Val d /\ normalize now o = Val (with_date now o d).
Proof.
  unfold period_passes, normalize.
  destruct (normalize_date o) as [d | e]; [| discriminate].
  intros _. exists d. now split.
Qed.

Lemma normalize_all records :
  Forall (fun o => period_passes o = true) records ->
  exists rs, map_res (normalize now) records = Val rs.
Proof.
  induction 1 as [| o records Ho _ [rs IH]]; [now exists [] |].
  destruct (normalize_parses o Ho) as (d & _ & Hn).
  cbn [map_res]. rewrite Hn, IH. eauto.
Qed.

(** The pipeline returns on RawRecords whose dates can be computed, with
    one row per record. *)
Lemma bronze_returns records :
  Forall (fun o => raw_record o = true) records ->
  Forall (fun o => period_passes o = true) records ->
  exists rs,
    map_res (normalize now) records = Val rs
    /\ bronze now records
       = Val {| Spark.schema := bronze_schema; rows := map to_row rs |}
    /\ forall i o,
        nth_error records i = Some o ->
        exists n,
          normalize now o = Val n
          /\ nth_error (map to_row rs) i = Some (to_row n).
Proof.
  intros Hraw Hdates.
  destruct (normalize_all records Hdates) as [rs Hrs].
  exists rs. split; [exact Hrs |].
  split; [rewrite (bronze_raw _ Hraw), Hrs; reflexivity |].
  intros i o Hi.
  destruct (map_res_nth _ _ _ _ _ Hrs Hi) as (n & Hn & Hno).
  exists n. split; [exact Hno |].
  now rewrite nth_error_map, Hn.
Qed.

Lemma normalize_exc o e :
  normalize now o = Exc e <-> normalize_date o = Exc e.
Proof.
  unfold normalize. destruct (normalize_date o); cbn [res_bind];
    split; congruence.
Qed.

Lemma normalize_val o :
  (exists n, normalize now o = Val n) <-> period_passes o = true.
Proof.
  unfold normalize, period_passes.
  destruct (normalize_date o); cbn [res_bind]; split; eauto;
    try discriminate. now intros [n Hn].
Qed.

(** C6. On a sequence of RawRecords the pipeline is the normalization of
    each record in turn, one row per record in the order of the records.
    It is not total: it raises exactly when the engine raises on the
    period of a record, with the exception of the first such record.
    Where it returns, the table has the nine output columns and as many
    rows as there are records, the i-th row being the normalized i-th
    record: nothing is merged, removed or reordered; respondent,
    respondent-name, type, type-name and value-units appear as
    region_code, region_name, data_type, data_type_name and units, and no
    other field of the record is kept. *)
Theorem bronze_maps_normalize records :
  Forall (fun o => raw_record o = true) records ->
  bronze now records
  = res_bind (map_res (normalize now) records)
      (fun rs => Val {| Spark.schema := bronze_schema; rows := map to_row rs |})
  /\ (forall e,
        bronze now records = Exc e <->
        exists before o after,
          records = before ++ o :: after
          /\ normalize_date o = Exc e
          /\ Forall (fun o' => period_passes o' = true) before)
  /\ (Forall (fun o => period_passes o = true) records ->
      exists out,
        bronze now records = Val out
        /\ map name (Spark.schema out)
           = ["date"; "region_code"; "region_name"; "data_type";
              "data_type_name"; "demand_mwh"; "units"; "_ingested_at";
              "_source"]
        /\ length (rows out) = length records
        /\ forall i o,
            nth_error records i = Some o ->
            exists row n,
              nth_error (rows out) i = Some row
              /\ normalize now o = Val n
              /\ row = to_row n
              /\ length row = 9%nat
              /\ get out row "region_code"
                 = nullable_value VString (field "respondent" o)
              /\ get out row "region_name"
                 = nullable_value VString (field "respondent-name" o)
              /\ get out row "data_type"
                 = nullable_value VString (field "type" o)
              /\ get out row "data_type_name"
                 = nullable_value VString (field "type-name" o)
              /\ get out row "units"
                 = nullable_value VString (field "value-units" o)).
Proof.
  intros Hraw. split; [now apply bronze_raw |]. split.
  - intros e. rewrite (bronze_raw _ Hraw). split.
    + destruct (map_res (normalize now) records) as [rs |e'] eqn:E;
        [discriminate |].
      cbn [res_bind]. intros H. injection H as ->.
      apply map_res_exc in E as (l1 & o & l2 & -> & Ho & Hl1).
      exists l1, o, l2. split; [reflexivity |].
      split; [now apply normalize_exc |].
      eapply Forall_impl; [| exact Hl1]. intros a. apply normalize_val.
    + intros (l1 & o & l2 & -> & Ho & Hl1).
      assert (E : map_res (normalize now) (l1 ++ o :: l2) = Exc e).
      { apply map_res_exc. exists l1, o, l2. split; [reflexivity |].
        split; [now apply normalize_exc |].
        eapply Forall_impl; [| exact Hl1]. intros a. apply normalize_val. }
      now rewrite E.
  - intros Hdates.
    destruct (bronze_returns records Hraw Hdates) as (rs & Hrs & Hout & Hrows).
    eexists. split; [exact Hout |]. cbn [Spark.schema rows].
    split; [reflexivity |].
    split; [now rewrite length_map, (map_res_length _ _ _ Hrs) |].
    intros i o Hi. destruct (Hrows i o Hi) as (n & Hn & Hrow).
    exists (to_row n), n. split; [exact Hrow |]. split; [exact Hn |].
    split; [reflexivity |].
    destruct (normalize_parses o) as (d & _ & Hd).
    { apply normalize_val. eauto. }
    rewrite Hd in Hn. injection Hn as <-. repeat split.
Qed.

End NormalizerFacts.

(** * Numeric strings and the cast to a double *)

Section NumericFacts.
Import Spark Reference Numeric.

(** ** Strings *)

Lemma append_nil_r (s : string) : (s ++ "")%string = s.
Proof. induction s as [| c s IH]; [reflexivity |]. cbn. now rewrite IH. Qed.

Lemma append_assoc (s1 s2 s3 : string) :
  ((s1 ++ s2) ++ s3)%string = (s1 ++ s2 ++ s3)%string.
Proof. induction s1 as [| c s1 IH]; [reflexivity |]. cbn. now rewrite IH. Qed.

Lemma length_append (s1 s2 : string) :
  String.length (s1 ++ s2) = (String.length s1 + String.length s2)%nat.
Proof. induction s1 as [| c s1 IH]; [reflexivity |]. cbn. now rewrite IH. Qed.

Lemma every_app p s1 s2 :
  every p (s1 ++ s2) = every p s1 && every p s2.
Proof.
  induction s1 as [| c s1 IH]; [reflexivity |].
  cbn. now rewrite IH, andb_assoc.
Qed.

(** The longest prefix of characters that satisfy [p]. *)
Lemma span p s :
  exists ds rest,
    s = (ds ++ rest)%string
    /\ every p ds = true
    /\ opens (fun c => negb (p c)) rest = true.
Proof.
  induction s as [| c s (ds & rest & -> & Hds & Hrest)].
  - exists "", "". now repeat split.
  - destruct (p c) eqn:Hc.
    + exists (String c ds), rest. cbn. rewrite Hc. now repeat split.
    + exists "", (String c (ds ++ rest)). cbn. rewrite Hc. now repeat split.
Qed.

Lemma opens_weaken (p q : ascii -> bool) s :
  (forall c, p c = true -> q c = true) ->
  opens p s = true -> opens q s = true.
Proof. intros H. destruct s; [reflexivity | apply H]. Qed.

Lemma opens_app p s1 s2 :
  opens p s1 = true -> opens p s2 = true -> opens p (s1 ++ s2) = true.
Proof. destruct s1; intros H1 H2; [exact H2 | exact H1]. Qed.

Lemma opens_every p s1 s2 :
  every p s1 = true -> s1 <> "" -> opens p (s1 ++ s2) = true.
Proof.
  destruct s1 as [| c s1]; [congruence |].
  cbn. intros H _. now apply andb_prop in H.
Qed.

(** ** Characters *)

Lemma code_inj a b : code a = code b -> a = b.
Proof.
  unfold code. intros H. apply Nat2Z.inj in H.
  rewrite <- (ascii_nat_embedding a), <- (ascii_nat_embedding b).
  now rewrite H.
Qed.

Lemma eqb_code a b : Ascii.eqb a b = (code a =? code b).
Proof.
  destruct (Ascii.eqb_spec a b) as [-> | H].
  - now rewrite Z.eqb_refl.
  - symmetry. apply Z.eqb_neq. intros E. apply H. now apply code_inj.
Qed.

Lemma digit_spec c :
  digit c = if is_digit c then Some (digit_value c) else None.
Proof.
  unfold digit, is_digit, digit_value.
  destruct (48 <=? code c), (code c <=? 57); reflexivity.
Qed.

Lemma hex_digit_spec c :
  hex_digit c = if is_hex_digit c then Some (digit_value c) else None.
Proof.
  unfold hex_digit, is_hex_digit. rewrite digit_spec.
  unfold is_digit, digit_value.
  destruct (Z.leb_spec 48 (code c)), (Z.leb_spec (code c) 57),
    (Z.leb_spec 97 (code c)), (Z.leb_spec (code c) 102),
    (Z.leb_spec 65 (code c)), (Z.leb_spec (code c) 70);
    cbn [andb orb]; try reflexivity; lia.
Qed.

Lemma split_sign_code c s :
  split_sign (String c s)
  = if code c =? 45 then (true, s)
    else if code c =? 43 then (false, s)
    else (false, String c s).
Proof.
  destruct c as [[] [] [] [] [] [] [] []]; reflexivity.
Qed.

Lemma after_point_code c s :
  after_point (String c s) = if code c =? 46 then Some s else None.
Proof.
  destruct c as [[] [] [] [] [] [] [] []]; reflexivity.
Qed.

Lemma after_0x_code c x s :
  after_0x (String c (String x s))
  = if (code c =? 48) && ((code x =? 120) || (code x =? 88))
    then Some s else None.
Proof.
  destruct (code c =? 48) eqn:E.
  - apply Z.eqb_eq in E. change 48 with (code "0") in E.
    apply code_inj in E. subst c. cbn [after_0x andb].
    now rewrite !eqb_code.
  - destruct c as [[] [] [] [] [] [] [] []]; try reflexivity; discriminate.
Qed.

(** ** Numbers *)

Lemma number_app b s1 s2 :
  number b (s1 ++ s2)
  = number b s1 * b ^ Z.of_nat (String.length s2) + number b s2.
Proof.
  induction s1 as [| c s1 IH]; [cbn; lia |].
  cbn [append number]. rewrite IH, length_append, Nat2Z.inj_add.
  rewrite Z.pow_add_r by lia. ring.
Qed.

Lemma read_digits_app ds rest acc n :
  every is_digit ds = true ->
  opens (fun c => negb (is_digit c)) rest = true ->
  read_digits (ds ++ rest) acc n
  = (acc * 10 ^ Z.of_nat (String.length ds) + number 10 ds,
     (n + String.length ds)%nat, rest).
Proof.
  intros Hds Hrest. revert acc n.
  induction ds as [| c ds IH]; intros acc n.
  - cbn [append String.length number]. rewrite Nat.add_0_r.
    replace (acc * 10 ^ Z.of_nat 0 + 0) with acc by (cbn; lia).
    destruct rest as [| c rest]; [reflexivity |].
    cbn [read_digits]. rewrite digit_spec.
    cbn [opens] in Hrest. apply negb_true_iff in Hrest. now rewrite Hrest.
  - cbn [every] in Hds. apply andb_prop in Hds as [Hc Hds].
    cbn [append read_digits]. rewrite digit_spec, Hc, (IH Hds).
    cbn [String.length number].
    rewrite Nat2Z.inj_succ, Z.pow_succ_r by lia.
    f_equal. f_equal; [ring | lia].
Qed.

Lemma read_hex_digits_app ds rest acc n :
  every is_hex_digit ds = true ->
  opens (fun c => negb (is_hex_digit c)) rest = true ->
  read_hex_digits (ds ++ rest) acc n
  = (acc * 16 ^ Z.of_nat (String.length ds) + number 16 ds,
     (n + String.length ds)%nat, rest).
Proof.
  intros Hds Hrest. revert acc n.
  induction ds as [| c ds IH]; intros acc n.
  - cbn [append String.length number]. rewrite Nat.add_0_r.
    replace (acc * 16 ^ Z.of_nat 0 + 0) with acc by (cbn; lia).
    destruct rest as [| c rest]; [reflexivity |].
    cbn [read_hex_digits]. rewrite hex_digit_spec.
    cbn [opens] in Hrest. apply negb_true_iff in Hrest. now rewrite Hrest.
  - cbn [every] in Hds. apply andb_prop in Hds as [Hc Hds].
    cbn [append read_hex_digits]. rewrite hex_digit_spec, Hc, (IH Hds).
    cbn [String.length number].
    rewrite Nat2Z.inj_succ, Z.pow_succ_r by lia.
    f_equal. f_equal; [ring | lia].
Qed.

Lemma length_zero s : String.length s = 0%nat <-> s = "".
Proof. destruct s; cbn; split; congruence. Qed.

(** ** The parts of a literal *)

Lemma at_end_suffix s : at_end s = true <-> suffix s.
Proof.
  split.
  - destruct s as [| c [| c' s]]; cbn [at_end]; try discriminate.
    + constructor.
    + unfold is_suffix. rewrite !eqb_code. intros H.
      repeat (apply orb_prop in H as [H | H]); apply Z.eqb_eq in H;
        [ change 102 with (code "f") in H
        | change 70 with (code "F") in H
        | change 100 with (code "d") in H
        | change 68 with (code "D") in H ];
        apply code_inj in H; subst c; constructor.
  - intros []; reflexivity.
Qed.

Lemma split_sign_spec s :
  exists sg, sign sg (fst (split_sign s)) /\ s = (sg ++ snd (split_sign s))%string.
Proof.
  destruct s as [| c s].
  - exists "". split; [constructor | reflexivity].
  - rewrite split_sign_code.
    destruct (code c =? 45) eqn:E1; [| destruct (code c =? 43) eqn:E2].
    + apply Z.eqb_eq in E1. change 45 with (code "-") in E1.
      apply code_inj in E1. subst c. exists "-". split; [constructor | reflexivity].
    + apply Z.eqb_eq in E2. change 43 with (code "+") in E2.
      apply code_inj in E2. subst c. exists "+". split; [constructor | reflexivity].
    + exists "". split; [constructor | reflexivity].
Qed.

Lemma split_sign_app sg negative body :
  sign sg negative ->
  opens (fun c => negb (is_sign c)) body = true ->
  split_sign (sg ++ body) = (negative, body).
Proof.
  intros [] Hbody; try reflexivity.
  cbn [append]. destruct body as [| c body]; [reflexivity |].
  rewrite split_sign_code. cbn [opens] in Hbody. unfold is_sign in Hbody.
  apply negb_true_iff, orb_false_elim in Hbody as [H1 H2].
  now rewrite H1, H2.
Qed.

Lemma signed_digits_sound s e rest :
  signed_digits s = Some (e, rest) ->
  exists sg negative ds,
    s = (sg ++ ds ++ rest)%string
    /\ sign sg negative
    /\ every is_digit ds = true
    /\ ds <> ""
    /\ e = signed negative (number 10 ds).
Proof.
  unfold signed_digits.
  destruct (split_sign_spec s) as (sg & Hsg & Hs).
  destruct (split_sign s) as [negative s1]. cbn [fst snd] in Hsg, Hs.
  destruct (span is_digit s1) as (ds & r & -> & Hds & Hr).
  rewrite (read_digits_app _ _ _ _ Hds Hr). cbn [Nat.add].
  destruct (String.length ds =? 0)%nat eqn:En; [discriminate |].
  intros H. injection H as <- <-.
  exists sg, negative, ds. split; [exact Hs |]. split; [exact Hsg |].
  split; [exact Hds |]. split.
  - intros ->. discriminate.
  - unfold signed. now destruct negative.
Qed.

Lemma signed_digits_complete sg negative ds rest :
  sign sg negative ->
  every is_digit ds = true ->
  ds <> "" ->
  opens (fun c => negb (is_digit c)) rest = true ->
  signed_digits (sg ++ ds ++ rest) = Some (signed negative (number 10 ds), rest).
Proof.
  intros Hsg Hds Hne Hrest. unfold signed_digits.
  rewrite (split_sign_app _ _ _ Hsg).
  - rewrite (read_digits_app _ _ _ _ Hds Hrest). cbn [Nat.add].
    destruct ds as [| c ds]; [congruence |]. cbn [String.length Nat.eqb].
    unfold signed. now destruct negative.
  - destruct ds as [| c ds]; [congruence |]. cbn [append opens].
    cbn [every] in Hds. apply andb_prop in Hds as [Hc _].
    unfold is_digit in Hc. unfold is_sign.
    apply andb_prop in Hc as [H1 H2].
    apply Z.leb_le in H1, H2.
    destruct (Z.eqb_spec (code c) 45), (Z.eqb_spec (code c) 43);
      try reflexivity; lia.
Qed.

Lemma suffix_opens sfx :
  suffix sfx -> opens is_mark sfx = true.
Proof. intros []; reflexivity. Qed.

Lemma exponent_suffix_opens ex e sfx :
  exponent ex e -> suffix sfx -> opens is_mark (ex ++ sfx) = true.
Proof.
  intros [| c sg negative ds [-> | ->] _ _ _] Hsfx;
    [now apply suffix_opens | reflexivity | reflexivity].
Qed.

(** A mark is one of six characters. *)
Lemma mark_codes c :
  is_mark c = true ->
  code c = 101 \/ code c = 69 \/ code c = 102 \/ code c = 70
  \/ code c = 100 \/ code c = 68.
Proof.
  unfold is_mark. intros H.
  repeat (apply orb_prop in H as [H | H]); apply Z.eqb_eq in H; auto 10.
Qed.

Lemma mark_not_digit c : is_mark c = true -> negb (is_digit c) = true.
Proof.
  intros H. apply mark_codes in H. unfold is_digit.
  destruct (Z.leb_spec 48 (code c)), (Z.leb_spec (code c) 57);
    cbn; try reflexivity; lia.
Qed.

Lemma mark_not_digit_nor_point c :
  is_mark c = true -> negb (is_digit c) && negb (code c =? 46) = true.
Proof.
  intros H. rewrite (mark_not_digit c H). apply mark_codes in H.
  destruct (Z.eqb_spec (code c) 46); [lia | reflexivity].
Qed.

Lemma decimal_exponent_sound s e rest :
  decimal_exponent s = Some (e, rest) ->
  exists ex, s = (ex ++ rest)%string /\ exponent ex e.
Proof.
  destruct s as [| c s]; cbn [decimal_exponent].
  - intros H. injection H as <- <-. exists "". split; [reflexivity | constructor].
  - destruct (Ascii.eqb c "e" || Ascii.eqb c "E") eqn:Ec.
    + intros H.
      destruct (signed_digits_sound _ _ _ H)
        as (sg & negative & ds & -> & Hsg & Hds & Hne & ->).
      exists (String c "" ++ sg ++ ds)%string. split.
      * cbn [append]. now rewrite !append_assoc.
      * constructor; try assumption.
        apply orb_prop in Ec as [Ec | Ec];
          destruct (Ascii.eqb_spec c "e"), (Ascii.eqb_spec c "E");
          subst; auto; discriminate.
    + intros H. injection H as <- <-.
      exists "". split; [reflexivity | constructor].
Qed.

Lemma decimal_exponent_complete ex e sfx :
  exponent ex e ->
  suffix sfx ->
  decimal_exponent (ex ++ sfx) = Some (e, sfx).
Proof.
  intros [| c sg negative ds Hc Hsg Hds Hne] Hsfx.
  - destruct Hsfx; reflexivity.
  - assert (Hr : opens (fun c => negb (is_digit c)) sfx = true).
    { eapply opens_weaken; [apply mark_not_digit | now apply suffix_opens]. }
    destruct Hc as [-> | ->]; cbn [append decimal_exponent Ascii.eqb Bool.eqb orb andb];
      rewrite !append_assoc;
      now apply signed_digits_complete.
Qed.

(** The significand, for a reader [read] of the digits [is_d] of a
    base. *)
Section Significand.

Variable read : string -> Z -> nat -> Z * nat * string.
Variable is_d : ascii -> bool.
Variable base : Z.

Hypothesis read_app :
  forall ds rest acc n,
    every is_d ds = true ->
    opens (fun c => negb (is_d c)) rest = true ->
    read (ds ++ rest) acc n
    = (acc * base ^ Z.of_nat (String.length ds) + number base ds,
       (n + String.length ds)%nat, rest).

Lemma read_significand_sound s m n_frac rest :
  read_significand read s = Some (m, n_frac, rest) ->
  exists int point frac,
    s = (int ++ point ++ frac ++ rest)%string
    /\ significand is_d int point frac
    /\ m = number base (int ++ frac)
    /\ n_frac = String.length frac.
Proof.
  unfold read_significand.
  destruct (span is_d s) as (int & s1 & -> & Hint & Hs1).
  rewrite (read_app _ _ _ _ Hint Hs1). cbn [Nat.add Z.mul Z.add].
  assert (Hnone :
            (if (String.length int + 0 =? 0)%nat then None
             else Some (number base int, 0%nat, s1))
            = Some (m, n_frac, rest) ->
            exists int0 point frac,
              (int ++ s1)%string = (int0 ++ point ++ frac ++ rest)%string
              /\ significand is_d int0 point frac
              /\ m = number base (int0 ++ frac)
              /\ n_frac = String.length frac).
  { destruct (String.length int + 0 =? 0)%nat eqn:En; [discriminate |].
    intros H. injection H as <- <- <-.
    exists int, "", "". split; [reflexivity |].
    split; [| split; [now rewrite append_nil_r | reflexivity]].
    repeat split; auto.
    rewrite append_nil_r. intros ->. discriminate. }
  destruct s1 as [| c s1]; [exact Hnone |].
  rewrite after_point_code.
  destruct (code c =? 46) eqn:Ec; [| exact Hnone].
  apply Z.eqb_eq in Ec. change 46 with (code ".") in Ec.
  apply code_inj in Ec. subst c.
  destruct (span is_d s1) as (frac & s2 & -> & Hfrac & Hs2).
  rewrite (read_app _ _ _ _ Hfrac Hs2). cbn [Nat.add].
  destruct (String.length int + String.length frac =? 0)%nat eqn:En;
    [discriminate |].
  intros H. injection H as <- <- <-.
  exists int, ".", frac. split; [reflexivity |].
  split; [| split; [now rewrite number_app | reflexivity]].
  repeat split; auto.
  intros E. apply (f_equal String.length) in E.
  rewrite length_append in E. cbn [String.length] in E.
  apply Nat.eqb_neq in En. lia.
Qed.

Lemma read_significand_complete int point frac rest :
  is_d "." = false ->
  significand is_d int point frac ->
  opens (fun c => negb (is_d c) && negb (code c =? 46)) rest = true ->
  read_significand read (int ++ point ++ frac ++ rest)
  = Some (number base (int ++ frac), String.length frac, rest).
Proof.
  intros Hpoint (Hint & Hfrac & Hp & Hne) Hrest.
  assert (Hrest1 : opens (fun c => negb (is_d c)) rest = true).
  { eapply opens_weaken; [| exact Hrest].
    intros c H. now apply andb_prop in H. }
  assert (Hlen : (String.length int + String.length frac =? 0)%nat = false).
  { apply Nat.eqb_neq. intros E. apply Hne.
    destruct int, frac; try reflexivity; discriminate. }
  unfold read_significand.
  destruct Hp as [-> | [-> ->]].
  - rewrite (read_app int _ _ _ Hint)
      by (cbn [append opens]; now rewrite Hpoint).
    cbn [append]. rewrite after_point_code. cbn [Nat.add Z.mul Z.add].
    change (code "." =? 46) with true. cbv iota.
    rewrite (read_app frac _ _ _ Hfrac Hrest1). cbn [Nat.add].
    rewrite Hlen. now rewrite number_app.
  - cbn [append]. rewrite (read_app int _ _ _ Hint Hrest1).
    cbn [Nat.add Z.mul Z.add].
    assert (Hap : after_point rest = None).
    { destruct rest as [| c rest]; [reflexivity |].
      rewrite after_point_code. cbn [opens] in Hrest.
      apply andb_prop in Hrest as [_ H]. apply negb_true_iff in H.
      now rewrite H. }
    rewrite Hap. cbn [String.length] in Hlen. rewrite Hlen.
    now rewrite append_nil_r.
Qed.

End Significand.

Lemma decimal_literal_sound negative s x :
  decimal_literal negative s = Some x ->
  exists int point frac ex e sfx,
    s = (int ++ point ++ frac ++ ex ++ sfx)%string
    /\ significand is_digit int point frac
    /\ exponent ex e
    /\ suffix sfx
    /\ x = decimal_to_double negative (number 10 (int ++ frac))
             (e - Z.of_nat (String.length frac)).
Proof.
  unfold decimal_literal.
  destruct (read_significand read_digits s) as [[[m n_frac] s1] |] eqn:Es;
    [| discriminate].
  destruct (read_significand_sound _ _ _ read_digits_app _ _ _ _ Es)
    as (int & point & frac & -> & Hsig & -> & ->).
  destruct (decimal_exponent s1) as [[e rest] |] eqn:Ee; [| discriminate].
  destruct (decimal_exponent_sound _ _ _ Ee) as (ex & -> & Hex).
  destruct (at_end rest) eqn:Hend; [| discriminate].
  intros H. injection H as <-.
  exists int, point, frac, ex, e, rest. repeat split; try apply Hsig; auto.
  now apply at_end_suffix.
Qed.

Lemma decimal_literal_complete negative int point frac ex e sfx :
  significand is_digit int point frac ->
  exponent ex e ->
  suffix sfx ->
  decimal_literal negative (int ++ point ++ frac ++ ex ++ sfx)
  = Some (decimal_to_double negative (number 10 (int ++ frac))
            (e - Z.of_nat (String.length frac))).
Proof.
  intros Hsig Hex Hsfx. unfold decimal_literal.
  rewrite (read_significand_complete _ _ _ read_digits_app); auto.
  - rewrite (decimal_exponent_complete _ _ _ Hex Hsfx).
    apply at_end_suffix in Hsfx. now rewrite Hsfx.
  - eapply opens_weaken; [apply mark_not_digit_nor_point |].
    now apply (exponent_suffix_opens _ e).
Qed.

Lemma hex_literal_sound negative s x :
  hex_literal negative s = Some x ->
  exists int point frac p sg' negative' ds sfx,
    s = (int ++ point ++ frac ++ p ++ sg' ++ ds ++ sfx)%string
    /\ significand is_hex_digit int point frac
    /\ (p = "p" \/ p = "P")
    /\ sign sg' negative'
    /\ every is_digit ds = true
    /\ ds <> ""
    /\ suffix sfx
    /\ x = hex_to_double negative (number 16 (int ++ frac))
             (String.length frac) (signed negative' (number 10 ds)).
Proof.
  unfold hex_literal.
  destruct (read_significand read_hex_digits s) as [[[m n_frac] s1] |] eqn:Es;
    [| discriminate].
  destruct (read_significand_sound _ _ _ read_hex_digits_app _ _ _ _ Es)
    as (int & point & frac & -> & Hsig & -> & ->).
  destruct s1 as [| c s1]; [discriminate |].
  destruct (Ascii.eqb c "p" || Ascii.eqb c "P") eqn:Ec; [| discriminate].
  destruct (signed_digits s1) as [[e rest] |] eqn:Ee; [| discriminate].
  destruct (signed_digits_sound _ _ _ Ee)
    as (sg' & negative' & ds & -> & Hsg & Hds & Hne & ->).
  destruct (at_end rest) eqn:Hend; [| discriminate].
  intros H. injection H as <-.
  exists int, point, frac, (String c ""), sg', negative', ds, rest.
  split; [reflexivity |]. split; [exact Hsig |]. split.
  { apply orb_prop in Ec as [Ec | Ec];
      destruct (Ascii.eqb_spec c "p"), (Ascii.eqb_spec c "P");
      subst; auto; discriminate. }
  repeat split; auto. now apply at_end_suffix.
Qed.

Lemma hex_literal_complete negative int point frac p sg' negative' ds sfx :
  significand is_hex_digit int point frac ->
  p = "p" \/ p = "P" ->
  sign sg' negative' ->
  every is_digit ds = true ->
  ds <> "" ->
  suffix sfx ->
  hex_literal negative (int ++ point ++ frac ++ p ++ sg' ++ ds ++ sfx)
  = Some (hex_to_double negative (number 16 (int ++ frac))
            (String.length frac) (signed negative' (number 10 ds))).
Proof.
  intros Hsig Hp Hsg Hds Hne Hsfx. unfold hex_literal.
  rewrite (read_significand_complete _ _ _ read_hex_digits_app); auto.
  - assert (Hr : opens (fun c => negb (is_digit c)) sfx = true).
    { eapply opens_weaken; [apply mark_not_digit | now apply suffix_opens]. }
    destruct Hp as [-> | ->]; cbn [append Ascii.eqb Bool.eqb orb andb];
      rewrite (signed_digits_complete _ _ _ _ Hsg Hds Hne Hr);
      apply at_end_suffix in Hsfx; now rewrite Hsfx.
  - destruct Hp as [-> | ->]; reflexivity.
Qed.

(** ** Literals *)

Lemma after_0x_sound s rest :
  after_0x s = Some rest ->
  exists x, (x = "x" \/ x = "X") /\ s = ("0" ++ x ++ rest)%string.
Proof.
  destruct s as [| c [| x s]].
  - discriminate.
  - destruct c as [[] [] [] [] [] [] [] []]; discriminate.
  - rewrite after_0x_code.
    destruct (code c =? 48) eqn:Ec; [| discriminate].
    apply Z.eqb_eq in Ec. change 48 with (code "0") in Ec.
    apply code_inj in Ec. subst c. cbn [andb].
    destruct (code x =? 120) eqn:E1; [| destruct (code x =? 88) eqn:E2];
      try discriminate; intros H; injection H as <-.
    + apply Z.eqb_eq in E1. change 120 with (code "x") in E1.
      apply code_inj in E1. subst x. exists "x". auto.
    + apply Z.eqb_eq in E2. change 88 with (code "X") in E2.
      apply code_inj in E2. subst x. exists "X". auto.
Qed.

Lemma after_0x_one c : after_0x (String c "") = None.
Proof. destruct c as [[] [] [] [] [] [] [] []]; reflexivity. Qed.

Lemma digit_not_x c :
  is_digit c = true -> (code c =? 120) || (code c =? 88) = false.
Proof.
  unfold is_digit. intros H. apply andb_prop in H as [H1 H2].
  apply Z.leb_le in H1, H2.
  destruct (Z.eqb_spec (code c) 120), (Z.eqb_spec (code c) 88);
    try reflexivity; lia.
Qed.

Lemma mark_not_x c :
  is_mark c = true -> (code c =? 120) || (code c =? 88) = false.
Proof.
  intros H. apply mark_codes in H.
  destruct (Z.eqb_spec (code c) 120), (Z.eqb_spec (code c) 88);
    try reflexivity; lia.
Qed.

(** A decimal literal does not open as a hexadecimal one. *)
Lemma decimal_not_hex int point frac rest :
  significand is_digit int point frac ->
  opens is_mark rest = true ->
  after_0x (int ++ point ++ frac ++ rest) = None.
Proof.
  intros (Hint & Hfrac & Hp & Hne) Hrest.
  destruct int as [| c [| c' int]].
  - destruct Hp as [-> | [-> ->]]; [| now contradiction Hne].
    cbn [append]. destruct (frac ++ rest)%string; reflexivity.
  - cbn [append]. destruct Hp as [-> | [-> ->]]; cbn [append].
    + rewrite after_0x_code. change (code "." =? 120) with false.
      change (code "." =? 88) with false. now rewrite andb_false_r.
    + destruct rest as [| x rest]; [apply after_0x_one |].
      rewrite after_0x_code. cbn [opens] in Hrest.
      now rewrite (mark_not_x _ Hrest), andb_false_r.
  - cbn [append]. rewrite after_0x_code.
    cbn [every] in Hint. apply andb_prop in Hint as [_ Hint].
    apply andb_prop in Hint as [Hc' _].
    now rewrite (digit_not_x _ Hc'), andb_false_r.
Qed.

(** A decimal literal opens with a digit or a point. *)
Lemma decimal_opens int point frac rest :
  significand is_digit int point frac ->
  exists c s,
    (int ++ point ++ frac ++ rest)%string = String c s
    /\ (is_digit c = true \/ c = "."%char).
Proof.
  intros (Hint & Hfrac & Hp & Hne).
  destruct int as [| c int].
  - destruct Hp as [-> | [-> ->]]; [| now contradiction Hne].
    cbn [append]. eauto.
  - cbn [append]. cbn [every] in Hint. apply andb_prop in Hint as [Hc _].
    eauto.
Qed.

Lemma parse_literal_sound t x :
  parse_literal t = Some x -> literal t x.
Proof.
  unfold parse_literal.
  destruct (split_sign_spec t) as (sg & Hsg & Ht).
  destruct (split_sign t) as [negative body]. cbn [fst snd] in Hsg, Ht.
  subst t.
  destruct (String.eqb_spec body "NaN") as [-> | _].
  { intros H. injection H as <-. now apply (literal_nan _ negative). }
  destruct (String.eqb_spec body "Infinity") as [-> | _].
  { intros H. injection H as <-. now apply literal_infinity. }
  destruct (after_0x body) as [body' |] eqn:E0.
  - intros H. destruct (after_0x_sound _ _ E0) as (x0 & Hx0 & ->).
    destruct (hex_literal_sound _ _ _ H)
      as (int & point & frac & p & sg' & negative' & ds & sfx & -> & Hsig
          & Hp & Hsg' & Hds & Hne & Hsfx & ->).
    now apply literal_hexadecimal.
  - intros H.
    destruct (decimal_literal_sound _ _ _ H)
      as (int & point & frac & ex & e & sfx & -> & Hsig & Hex & Hsfx & ->).
    now apply literal_decimal.
Qed.

Lemma digit_not_sign c : is_digit c = true -> negb (is_sign c) = true.
Proof.
  unfold is_digit, is_sign. intros H. apply andb_prop in H as [H1 H2].
  apply Z.leb_le in H1, H2.
  destruct (Z.eqb_spec (code c) 45), (Z.eqb_spec (code c) 43);
    try reflexivity; lia.
Qed.

(** The words of the cast are read by [parse_literal] as what they
    denote, or not at all. *)
Lemma lower_ascii_code c :
  code (lower_ascii c)
  = if (65 <=? code c) && (code c <=? 90) then code c + 32 else code c.
Proof. destruct c as [[] [] [] [] [] [] [] []]; reflexivity. Qed.

Lemma lower_opens w k u :
  lower w = String k u ->
  exists c v, w = String c v /\ lower_ascii c = k /\ lower v = u.
Proof.
  destruct w as [| c v]; [discriminate |].
  cbn [lower]. intros H. injection H as <- <-. eauto.
Qed.

Lemma lower_empty w : lower w = "" -> w = "".
Proof. destruct w; [reflexivity | discriminate]. Qed.

Lemma lower_sign c k :
  lower_ascii c = k -> code k = 43 \/ code k = 45 -> c = k.
Proof.
  intros <- H. apply code_inj. rewrite lower_ascii_code in *.
  destruct ((65 <=? code c) && (code c <=? 90)) eqn:E; [| reflexivity].
  apply andb_prop in E as [H1 H2]. apply Z.leb_le in H1, H2. lia.
Qed.

Lemma lower_letter c k :
  lower_ascii c = k -> 97 <= code k <= 122 ->
  is_digit c = false /\ code c <> 46 /\ is_sign c = false /\ code c <> 48.
Proof.
  intros <- H. rewrite lower_ascii_code in H.
  unfold is_digit, is_sign.
  destruct (Z.leb_spec 65 (code c)), (Z.leb_spec (code c) 90),
    (Z.leb_spec 48 (code c)), (Z.leb_spec (code c) 57),
    (Z.eqb_spec (code c) 45), (Z.eqb_spec (code c) 43);
    cbn [andb orb] in *; repeat split; try reflexivity; lia.
Qed.

(** On a string that opens with a letter, [parse_literal] reads [NaN] or
    [Infinity] or nothing. *)
Lemma parse_literal_letter negative c v :
  is_digit c = false -> code c <> 46 -> code c <> 48 ->
  (if String.eqb (String c v) "NaN" then Some S754_nan
   else if String.eqb (String c v) "Infinity"
        then Some (S754_infinity negative)
        else match after_0x (String c v) with
             | Some body' => hex_literal negative body'
             | None => decimal_literal negative (String c v)
             end)
  = if String.eqb (String c v) "NaN" then Some S754_nan
    else if String.eqb (String c v) "Infinity"
         then Some (S754_infinity negative)
         else None.
Proof.
  intros Hd Hp H0.
  destruct (String.eqb (String c v) "NaN"); [reflexivity |].
  destruct (String.eqb (String c v) "Infinity"); [reflexivity |].
  assert (E0 : after_0x (String c v) = None).
  { destruct v as [| x v]; [apply after_0x_one |].
    rewrite after_0x_code. apply Z.eqb_neq in H0. now rewrite H0. }
  rewrite E0. unfold decimal_literal, read_significand.
  cbn [read_digits]. rewrite digit_spec, Hd, after_point_code.
  apply Z.eqb_neq in Hp. now rewrite Hp.
Qed.

Ltac letter_chain Hv :=
  match type of Hv with
  | lower ?body = _ =>
      let c := fresh "c" in
      let v := fresh "v" in
      let Hc := fresh "Hc" in
      let Hv' := fresh "Hv" in
      let E := fresh "E" in
      apply lower_opens in Hv as (c & v & -> & Hc & Hv');
      destruct (lower_letter c _ Hc ltac:(split; vm_compute; discriminate))
        as (? & ? & ? & ?);
      rewrite parse_literal_letter by assumption;
      destruct (String.eqb_spec (String c v) "NaN") as [E | _];
      [ injection E as -> ->; first [discriminate Hv' | auto]
      | destruct (String.eqb_spec (String c v) "Infinity") as [E | _];
        [ injection E as -> ->; first [discriminate Hv' | auto] | auto ] ]
  end.

Lemma parse_literal_word w x :
  word (lower w) x -> parse_literal w = Some x \/ parse_literal w = None.
Proof.
  intros H. unfold parse_literal.
  inversion H as [E | E | E | E | E | E | E]; subst x; symmetry in E.
  - assert (Hs : split_sign w = (false, w)).
    { apply lower_opens in E as (c & v & -> & Hc & _).
      destruct (lower_letter c _ Hc ltac:(split; vm_compute; discriminate))
        as (_ & _ & Hs & _).
      rewrite split_sign_code. apply orb_false_elim in Hs as [-> ->].
      reflexivity. }
    rewrite Hs. letter_chain E.
  - apply lower_opens in E as (c & v & -> & Hc & Hv).
    apply lower_sign in Hc; [| vm_compute; auto]. subst c.
    cbn [split_sign]. letter_chain Hv.
  - assert (Hs : split_sign w = (false, w)).
    { apply lower_opens in E as (c & v & -> & Hc & _).
      destruct (lower_letter c _ Hc ltac:(split; vm_compute; discriminate))
        as (_ & _ & Hs & _).
      rewrite split_sign_code. apply orb_false_elim in Hs as [-> ->].
      reflexivity. }
    rewrite Hs. letter_chain E.
  - apply lower_opens in E as (c & v & -> & Hc & Hv).
    apply lower_sign in Hc; [| vm_compute; auto]. subst c.
    cbn [split_sign]. letter_chain Hv.
  - apply lower_opens in E as (c & v & -> & Hc & Hv).
    apply lower_sign in Hc; [| vm_compute; auto]. subst c.
    cbn [split_sign]. letter_chain Hv.
  - apply lower_opens in E as (c & v & -> & Hc & Hv).
    apply lower_sign in Hc; [| vm_compute; auto]. subst c.
    cbn [split_sign]. letter_chain Hv.
  - assert (Hs : split_sign w = (false, w)).
    { apply lower_opens in E as (c & v & -> & Hc & _).
      destruct (lower_letter c _ Hc ltac:(split; vm_compute; discriminate))
        as (_ & _ & Hs & _).
      rewrite split_sign_code. apply orb_false_elim in Hs as [-> ->].
      reflexivity. }
    rewrite Hs. letter_chain E.
Qed.

Lemma special_literal_word s x :
  special_literal s = Some x <-> word (lower (trim Reference.at_most_space s)) x.
Proof.
  unfold special_literal.
  set (t := lower (trim Reference.at_most_space s)). clearbody t.
  split.
  - destruct (String.eqb_spec t "inf") as [-> |];
      [intros H; injection H as <-; constructor |].
    destruct (String.eqb_spec t "+inf") as [-> |];
      [intros H; injection H as <-; constructor |].
    destruct (String.eqb_spec t "infinity") as [-> |];
      [intros H; injection H as <-; constructor |].
    destruct (String.eqb_spec t "+infinity") as [-> |];
      [intros H; injection H as <-; constructor |].
    destruct (String.eqb_spec t "-inf") as [-> |];
      [intros H; injection H as <-; constructor |].
    destruct (String.eqb_spec t "-infinity") as [-> |];
      [intros H; injection H as <-; constructor |].
    destruct (String.eqb_spec t "nan") as [-> |];
      [intros H; injection H as <-; constructor |].
    discriminate.
  - intros []; reflexivity.
Qed.

Lemma parse_literal_complete t x :
  literal t x ->
  parse_literal t = Some x
  \/ (parse_literal t = None /\ word (lower t) x).
Proof.
  intros [sg negative Hsg | sg negative Hsg
         | sg negative int point frac ex e sfx Hsg Hsig Hex Hsfx
         | sg negative x0 int point frac p sg' negative' ds sfx
             Hsg Hx0 Hsig Hp Hsg' Hds Hne Hsfx
         | w y Hw].
  - left. unfold parse_literal. now rewrite (split_sign_app _ _ _ Hsg).
  - left. unfold parse_literal. now rewrite (split_sign_app _ _ _ Hsg).
  - left. unfold parse_literal.
    destruct (decimal_opens int point frac (ex ++ sfx) Hsig)
      as (c & s & E & Hc).
    assert (Hnd : is_digit "N" = false /\ is_digit "I" = false) by now split.
    rewrite (split_sign_app _ _ _ Hsg).
    2:{ rewrite E. cbn [opens].
        destruct Hc as [Hc | ->]; [now apply digit_not_sign | reflexivity]. }
    rewrite (decimal_not_hex _ _ _ _ Hsig (exponent_suffix_opens _ _ _ Hex Hsfx)).
    rewrite (decimal_literal_complete _ _ _ _ _ _ _ Hsig Hex Hsfx).
    rewrite E.
    destruct (String.eqb_spec (String c s) "NaN") as [E1 | _].
    { injection E1 as -> _. destruct Hc; discriminate. }
    destruct (String.eqb_spec (String c s) "Infinity") as [E1 | _].
    { injection E1 as -> _. destruct Hc; discriminate. }
    reflexivity.
  - left. unfold parse_literal.
    rewrite (split_sign_app _ _ _ Hsg) by reflexivity.
    destruct Hx0 as [-> | ->]; cbn [append String.eqb Ascii.eqb Bool.eqb after_0x orb];
      now apply hex_literal_complete.
  - destruct (parse_literal_word _ _ Hw); auto.
Qed.

(** ** Blanks *)

Lemma ltrim_app p l s :
  every p l = true ->
  opens (fun c => negb (p c)) s = true ->
  ltrim p (l ++ s) = s.
Proof.
  intros Hl Hs. induction l as [| c l IH].
  - destruct s as [| c s]; [reflexivity |].
    cbn [append ltrim]. cbn [opens] in Hs. apply negb_true_iff in Hs.
    now rewrite Hs.
  - cbn [every] in Hl. apply andb_prop in Hl as [Hc Hl].
    cbn [append ltrim]. rewrite Hc. now apply IH.
Qed.

Lemma rtrim_blank p r : every p r = true -> rtrim p r = "".
Proof.
  induction r as [| c r IH]; [reflexivity |].
  cbn [every rtrim]. intros H. apply andb_prop in H as [Hc Hr].
  now rewrite (IH Hr), Hc.
Qed.

Lemma rtrim_app p s r :
  every p r = true -> rtrim p (s ++ r) = rtrim p s.
Proof.
  intros Hr. induction s as [| c s IH].
  - cbn [append rtrim]. now apply rtrim_blank.
  - cbn [append rtrim]. now rewrite IH.
Qed.

Lemma rtrim_keep p s :
  every (fun c => negb (p c)) s = true -> rtrim p s = s.
Proof.
  induction s as [| c s IH]; [reflexivity |].
  cbn [every rtrim]. intros H. apply andb_prop in H as [Hc Hs].
  rewrite (IH Hs). apply negb_true_iff in Hc. rewrite Hc.
  now destruct s.
Qed.

Lemma trim_app p l body r :
  every p l = true ->
  every p r = true ->
  every (fun c => negb (p c)) body = true ->
  body <> "" ->
  trim p (l ++ body ++ r) = body.
Proof.
  intros Hl Hr Hbody Hne. unfold trim.
  rewrite ltrim_app; auto.
  - rewrite rtrim_app by assumption. now apply rtrim_keep.
  - destruct body as [| c body]; [congruence |].
    cbn [append opens]. cbn [every] in Hbody.
    now apply andb_prop in Hbody.
Qed.

Lemma ltrim_split p s :
  exists l, s = (l ++ ltrim p s)%string /\ every p l = true.
Proof.
  induction s as [| c s (l & Hs & Hl)].
  - now exists "".
  - cbn [ltrim]. destruct (p c) eqn:Hc.
    + exists (String c l). cbn [append every]. rewrite Hc, <- Hs. now split.
    + now exists "".
Qed.

Lemma rtrim_split p s :
  exists r, s = (rtrim p s ++ r)%string /\ every p r = true.
Proof.
  induction s as [| c s (r & Hs & Hr)].
  - now exists "".
  - cbn [rtrim]. destruct (rtrim p s) as [| c' t] eqn:Et.
    + cbn [append] in Hs. subst r. destruct (p c) eqn:Hc.
      * exists (String c s). cbn [append every]. rewrite Hc. now split.
      * exists s. now split.
    + exists r. cbn [append] in *. now rewrite <- Hs.
Qed.

Lemma trim_split p s :
  exists l r,
    s = (l ++ trim p s ++ r)%string
    /\ every p l = true /\ every p r = true.
Proof.
  unfold trim.
  destruct (ltrim_split p s) as (l & Hs & Hl).
  destruct (rtrim_split p (ltrim p s)) as (r & Ht & Hr).
  exists l, r. split; [| now split]. now rewrite <- Ht.
Qed.

(** A literal has no blank in it. *)
Lemma every_weaken (p q : ascii -> bool) s :
  (forall c, p c = true -> q c = true) ->
  every p s = true -> every q s = true.
Proof.
  intros H. induction s as [| c s IH]; [reflexivity |].
  cbn [every]. intros Hs. apply andb_prop in Hs as [Hc Hs].
  now rewrite (H c Hc), (IH Hs).
Qed.

Lemma hex_digit_no_blank c : is_hex_digit c = true -> negb (is_blank c) = true.
Proof.
  unfold is_hex_digit, is_digit, is_blank.
  destruct (Z.leb_spec 48 (code c)), (Z.leb_spec (code c) 57),
    (Z.leb_spec 97 (code c)), (Z.leb_spec (code c) 102),
    (Z.leb_spec 65 (code c)), (Z.leb_spec (code c) 70),
    (Z.leb_spec (code c) 32);
    cbn [andb orb negb]; try reflexivity; try discriminate; lia.
Qed.

Lemma digit_no_blank c : is_digit c = true -> negb (is_blank c) = true.
Proof.
  intros H. apply hex_digit_no_blank. unfold is_hex_digit. now rewrite H.
Qed.

Lemma lower_blank c : is_blank (lower_ascii c) = is_blank c.
Proof. destruct c as [[] [] [] [] [] [] [] []]; reflexivity. Qed.

Lemma lower_no_blank w : no_blank (lower w) -> no_blank w.
Proof.
  unfold no_blank. induction w as [| c w IH]; [reflexivity |].
  cbn [lower every]. rewrite lower_blank. intros H.
  apply andb_prop in H as [Hc Hw]. now rewrite Hc, (IH Hw).
Qed.

Lemma significand_no_blank is_d int point frac :
  (forall c, is_d c = true -> negb (is_blank c) = true) ->
  significand is_d int point frac ->
  no_blank int /\ no_blank point /\ no_blank frac.
Proof.
  intros H (Hint & Hfrac & Hp & _). unfold no_blank.
  split; [now apply (every_weaken is_d) |].
  split; [| now apply (every_weaken is_d)].
  destruct Hp as [-> | [-> _]]; reflexivity.
Qed.

Lemma literal_no_blank t x : literal t x -> no_blank t /\ t <> "".
Proof.
  unfold no_blank.
  intros [sg negative Hsg | sg negative Hsg
         | sg negative int point frac ex e sfx Hsg Hsig Hex Hsfx
         | sg negative x0 int point frac p sg' negative' ds sfx
             Hsg Hx0 Hsig Hp Hsg' Hds Hne Hsfx
         | w y Hw].
  - destruct Hsg; split; try reflexivity; discriminate.
  - destruct Hsg; split; try reflexivity; discriminate.
  - destruct (significand_no_blank _ _ _ _ digit_no_blank Hsig)
      as (H1 & H2 & H3).
    split.
    + rewrite !every_app. unfold no_blank in *. rewrite H1, H2, H3.
      assert (Hs : every (fun c => negb (is_blank c)) sg = true)
        by (destruct Hsg; reflexivity).
      assert (Hx : every (fun c => negb (is_blank c)) sfx = true)
        by (destruct Hsfx; reflexivity).
      rewrite Hs, Hx. cbn [andb]. rewrite andb_true_r.
      destruct Hex as [| c sg0 negative0 ds Hc Hsg0 Hds Hne]; [reflexivity |].
      rewrite !every_app, (every_weaken _ _ _ digit_no_blank Hds).
      destruct Hc as [-> | ->], Hsg0; reflexivity.
    + destruct (decimal_opens int point frac (ex ++ sfx) Hsig)
        as (c & s & E & _).
      rewrite E. destruct sg; discriminate.
  - destruct (significand_no_blank _ _ _ _ hex_digit_no_blank Hsig)
      as (H1 & H2 & H3).
    split.
    + rewrite !every_app. unfold no_blank in *. rewrite H1, H2, H3.
      rewrite (every_weaken _ _ _ digit_no_blank Hds).
      destruct Hsg, Hx0 as [-> | ->], Hp as [-> | ->], Hsg', Hsfx;
        reflexivity.
    + destruct sg; discriminate.
  - split.
    + apply lower_no_blank. destruct Hw; reflexivity.
    + intros ->. inversion Hw.
Qed.

(** ** The cast and the grammar *)

(** The cast of a string to a double yields a double exactly on the
    numeric strings, and yields the double that the string denotes. *)
Lemma string_to_double_numeric s x :
  Reference.string_to_double s = Some x <-> numeric s x.
Proof.
  unfold Reference.string_to_double, parse_double. split.
  - intros H. destruct (trim_split Reference.at_most_space s) as (l & r & Hs & Hl & Hr).
    exists l, (trim Reference.at_most_space s), r.
    split; [exact Hs |]. split; [exact Hl |]. split; [exact Hr |].
    destruct (parse_literal (trim Reference.at_most_space s)) as [y |] eqn:E.
    + injection H as <-. now apply parse_literal_sound.
    + apply literal_word. now apply special_literal_word.
  - intros (l & body & r & -> & Hl & Hr & Hlit).
    destruct (literal_no_blank _ _ Hlit) as (Hnb & Hne).
    assert (Ht : trim Reference.at_most_space (l ++ body ++ r) = body)
      by now apply trim_app.
    rewrite Ht.
    destruct (parse_literal_complete _ _ Hlit) as [E | [E Hw]]; rewrite E;
      [reflexivity |].
    apply special_literal_word. now rewrite Ht.
Qed.

End NumericFacts.

(** ** The normalizer on the reference engine *)

Section NormalizerRuns.
Import Spark Bronze.

(** C4. With the reference engine, a record with period "20240115" gets
    the date 2024-01-15 and so does one with period "2024-01-15"; a record
    with value "12345.6" gets the double nearest to 12345.6, and a record
    with value "N/A" gets a null demand value. The engine raises on
    neither of the two periods, whatever the value, and the pipeline
    returns on records on whose periods it does not raise. *)
Theorem normalizer_examples now records :
  Forall (fun o => raw_record o = true) records ->
  Forall (fun o => period_passes (engine := Reference.engine) o = true) records ->
  let d12345_6 := S754_finite false 6787065375935693 (-39) in
  2 * Z.abs (10 * 6787065375935693 - 123456 * 2 ^ 39) <= 10
  /\ (forall o,
        field "period" o = Some "20240115"
        \/ field "period" o = Some "2024-01-15" ->
        period_passes (engine := Reference.engine) o = true)
  /\ exists out,
      bronze (engine := Reference.engine) now records = Val out
      /\ forall i o,
          nth_error records i = Some o ->
          exists row,
            nth_error (rows out) i = Some row
            /\ (field "period" o = Some "20240115" ->
                get out row "date"
                = VDate {| year := 2024; month := 1; day := 15 |})
            /\ (field "period" o = Some "2024-01-15" ->
                get out row "date"
                = VDate {| year := 2024; month := 1; day := 15 |})
            /\ (field "value" o = Some "12345.6" ->
                get out row "demand_mwh" = VDouble d12345_6)
            /\ (field "value" o = Some "N/A" ->
                get out row "demand_mwh" = Null).
Proof.
  intros Hraw Hdates d. split; [vm_compute; discriminate |].
  split.
  { intros o [H | H]; unfold period_passes, normalize_date; rewrite H;
      vm_compute; reflexivity. }
  destruct (bronze_returns now records Hraw Hdates) as (rs & _ & Hout & Hrows).
  eexists. split; [exact Hout |].
  intros i o Hi. cbn [rows].
  destruct (Hrows i o Hi) as (n & Hn & Hrow).
  eexists. split; [exact Hrow |].
  unfold normalize in Hn.
  destruct (normalize_date o) as [dt |] eqn:Ed; [| discriminate].
  injection Hn as <-.
  unfold get. cbn [Spark.schema].
  change (resolve "date" bronze_schema) with (Val (A := nat) 0%nat).
  change (resolve "demand_mwh" bronze_schema) with (Val (A := nat) 5%nat).
  cbn [nth to_row with_date demand_value date_].
  unfold normalize_date in Ed.
  repeat split; intros H; rewrite H in *.
  - vm_compute in Ed. injection Ed as <-. reflexivity.
  - vm_compute in Ed. injection Ed as <-. reflexivity.
  - vm_compute. reflexivity.
  - vm_compute. reflexivity.
Qed.


(** Records to run the normalizer on: two rows of the API, a row with a
    field the schema does not have and without units, and a copy of the
    first. *)
Lemma sample_records_raw :
  Forall (fun o => raw_record o = true)
    [ Servers.row "20240115" "PJM" "12345.6";
      Servers.row "2024-01-15" "PJM" "N/A";
      Py.Dict [("period", Py.Str "2024-01-16"); ("respondent", Py.Str "CISO");
               ("timezone", Py.Str "Pacific"); ("value", Py.Str "250")];
      Servers.row "20240115" "PJM" "12345.6" ].
Proof. repeat constructor. Defined.

Lemma sample_records_dates :
  Forall (fun o => period_passes (engine := Reference.engine) o = true)
    [ Servers.row "20240115" "PJM" "12345.6";
      Servers.row "2024-01-15" "PJM" "N/A";
      Py.Dict [("period", Py.Str "2024-01-16"); ("respondent", Py.Str "CISO");
               ("timezone", Py.Str "Pacific"); ("value", Py.Str "250")];
      Servers.row "20240115" "PJM" "12345.6" ].
Proof. repeat constructor. Defined.

(** C4 at the sample records. *)
Lemma normalizer_examples_witness :
  exists out,
    bronze (engine := Reference.engine) 1700000000000000
      [ Servers.row "20240115" "PJM" "12345.6";
        Servers.row "2024-01-15" "PJM" "N/A";
        Py.Dict [("period", Py.Str "2024-01-16"); ("respondent", Py.Str "CISO");
                 ("timezone", Py.Str "Pacific"); ("value", Py.Str "250")];
        Servers.row "20240115" "PJM" "12345.6" ]
    = Val out
    /\ map (fun row => get out row "date") (rows out)
       = [ VDate {| year := 2024; month := 1; day := 15 |};
           VDate {| year := 2024; month := 1; day := 15 |};
           VDate {| year := 2024; month := 1; day := 16 |};
           VDate {| year := 2024; month := 1; day := 15 |} ]
    /\ map (fun row => get out row "demand_mwh") (rows out)
       = [ VDouble (S754_finite false 6787065375935693 (-39));
           Null;
           VDouble (S754_finite false 8796093022208000 (-45));
           VDouble (S754_finite false 6787065375935693 (-39)) ].
Proof.
  destruct (normalizer_examples 1700000000000000 _ sample_records_raw
              sample_records_dates)
    as (_ & _ & out & Hout & _).
  exists out. split; [exact Hout |].
  vm_compute in Hout. injection Hout as <-.
  split; vm_compute; reflexivity.
Defined.


(** C6 fails as stated: the pipeline is not total. On a RawRecord whose
    period is "2024011x" the engine raises, and the pipeline with it:
    the pattern yyyyMMdd does not read the period, while the parser of
    earlier versions reads 2024-01-01 in it. *)
Lemma bronze_raises_on_a_period :
  raw_record (Servers.row "2024011x" "PJM" "12345.6") = true
  /\ bronze (engine := Reference.engine) 1700000000000000
       [Servers.row "2024011x" "PJM" "12345.6"]
     = Exc SparkUpgradeException
  /\ bronze (engine := Reference.engine) 1700000000000000
       [ Servers.row "20240115" "PJM" "12345.6";
         Servers.row "2024011x" "PJM" "12345.6";
         Servers.row "20240116" "PJM" "12345.6" ]
     = Exc SparkUpgradeException.
Proof. repeat split. Qed.

(** C6 at the sample records, and at the records above. *)
Lemma bronze_maps_normalize_witness :
  (exists out,
     bronze (engine := Reference.engine) 1700000000000000
       [ Servers.row "20240115" "PJM" "12345.6";
         Servers.row "2024-01-15" "PJM" "N/A";
         Py.Dict [("period", Py.Str "2024-01-16"); ("respondent", Py.Str "CISO");
                  ("timezone", Py.Str "Pacific"); ("value", Py.Str "250")];
         Servers.row "20240115" "PJM" "12345.6" ]
     = Val out
     /\ length (rows out) = 4%nat
     /\ map (fun row => get out row "region_code") (rows out)
        = [VString "PJM"; VString "PJM"; VString "CISO"; VString "PJM"]
     /\ map (fun row => get out row "units") (rows out)
        = [VString "megawatthours"; VString "megawatthours"; Null;
           VString "megawatthours"])
  /\ exists before o after,
      [ Servers.row "20240115" "PJM" "12345.6";
        Servers.row "2024011x" "PJM" "12345.6";
        Servers.row "20240116" "PJM" "12345.6" ]
      = before ++ o :: after
      /\ normalize_date (engine := Reference.engine) o
         = Exc SparkUpgradeException.
Proof.
  split.
  - destruct (proj2 (proj2 (bronze_maps_normalize (engine := Reference.engine)
                              1700000000000000 _ sample_records_raw))
                sample_records_dates)
      as (out & Hout & _ & Hlen & _).
    exists out. split; [exact Hout |]. split; [exact Hlen |].
    vm_compute in Hout. injection Hout as <-.
    split; vm_compute; reflexivity.
  - destruct (proj1 (proj1 (proj2 (bronze_maps_normalize
                                     (engine := Reference.engine)
                                     1700000000000000
                                     [ Servers.row "20240115" "PJM" "12345.6";
                                       Servers.row "2024011x" "PJM" "12345.6";
                                       Servers.row "20240116" "PJM" "12345.6" ]
                                     ltac:(repeat constructor)))
                       SparkUpgradeException)
                eq_refl)
      as (before & o & after & Hsplit & Ho & _).
    exists before, o, after. split; [exact Hsplit | exact Ho].
Defined.

End NormalizerRuns.

(** * Further properties of the fetcher *)

Section FetchMore.
Import Http Fetch Api.

Context {server : Type} (handle : handler server).

(** ** The requests a fetch sends *)

Lemma set_offset_twice p a b : set_offset (set_offset p a) b = set_offset p b.
Proof. reflexivity. Qed.

Lemma while_true_sent k region sd ed fuel : forall j l w,
  params_ l
  = set_offset (initial_params k region sd ed) (5000 * Z.of_nat j) ->
  exists n,
    (n <= fuel)%nat
    /\ (fst (while_true handle fuel l w) <> OutOfFuel -> (1 <= n)%nat)
    /\ sent (snd (while_true handle fuel l w))
       = sent w ++ map (page_request k region sd ed) (seq j n).
Proof.
  induction fuel as [| fuel IH]; intros j l w Hp.
  - exists 0%nat. cbn. rewrite app_nil_r.
    split; [lia | split; [congruence | reflexivity]].
  - destruct (loop_body_srv handle l w w eq_refl) as (o & Hb & _).
    cbv zeta in Hb. cbn [while_true]. unfold bind. rewrite Hb.
    assert (Hreq : sent (after_request w (fst (handle (srv w) url (params_ l)))
                           url (params_ l))
                   = sent w ++ [page_request k region sd ed j]).
    { cbn. unfold page_request. now rewrite Hp. }
    destruct o as [[[] l'] | e |]; cbn [fst snd ret].
    + exists 1%nat. split; [lia | split; [intros _; lia | exact Hreq]].
    + destruct (loop_body_continue handle _ _ _ _ Hb) as (_ & Hp' & _).
      destruct (IH (S j) l'
                  (after_request w (fst (handle (srv w) url (params_ l)))
                     url (params_ l)))
        as (n & Hn & H1 & Hs).
      { rewrite Hp', Hp, set_offset_twice. f_equal. cbn [offset set_offset].
        lia. }
      exists (S n). split; [lia | split; [intros _; lia |]].
      rewrite Hs, Hreq, <- app_assoc. reflexivity.
    + exists 1%nat. split; [lia | split; [intros _; lia | exact Hreq]].
    + exists 1%nat. split; [lia | split; [intros _; lia | exact Hreq]].
Qed.

(** X1. Whatever the server answers, the requests of one fetch all go to
    the same URL with the parameters the fetch started from, except for
    the offset, which is 0, 5000, 10000, ... in this order; a fetch that
    ends has sent at least one request, and none sends more than its
    number of iterations. *)
Theorem fetch_requests k region sd ed fuel w :
  exists n,
    (n <= fuel)%nat
    /\ (fst (fetch_eia_electricity_demand handle fuel k region sd ed w)
        <> OutOfFuel -> (1 <= n)%nat)
    /\ sent (snd (fetch_eia_electricity_demand handle fuel k region sd ed w))
       = sent w ++ map (page_request k region sd ed) (seq 0 n).
Proof.
  destruct (while_true_sent k region sd ed fuel 0
              (initial_locals k region sd ed) w eq_refl)
    as (n & Hn & H1 & Hs).
  exists n. rewrite fetch_unfold.
  destruct (while_true handle fuel (initial_locals k region sd ed) w)
    as [[lf | e |] w']; cbn [fst snd] in *; repeat split; auto;
    intros _; apply H1; discriminate.
Qed.

(** ** What a fetch that returns has done *)

Lemma loop_body_break l w l' w' :
  loop_body handle l w = (Done (Break, l'), w') ->
  w' = after_request w (fst (handle (srv w) url (params_ l))) url (params_ l)
  /\ ((truncates (snd (handle (srv w) url (params_ l))) /\ l' = l)
      \/ exists items total,
          carries (snd (handle (srv w) url (params_ l))) items total
          /\ l' = {| params_ := params_ l; all_data := all_data l ++ items |}
          /\ total <= Py.len (all_data l ++ items)).
Proof.
  unfold loop_body, bind, requests_get, truncates, carries.
  destruct (handle (srv w) url (params_ l)) as [s' r]. cbn [fst snd].
  destruct (Z.eqb_spec (status_code r) 200) as [Hs | Hs]; cbn.
  2:{ intros E. inversion E; subst. split; [reflexivity |]. left. auto. }
  unfold lift, json.
  destruct (body r) as [jd |]; [| discriminate].
  destruct (Py.not_in "response" jd) as [[] |] eqn:Hnr; cbn; try discriminate.
  { intros E. inversion E; subst. split; [reflexivity |]. left.
    split; [| reflexivity]. right. exists jd. auto. }
  destruct (Py.getitem jd "response") as [rsp |] eqn:Hr; [| discriminate].
  destruct (Py.not_in "data" rsp) as [[] |] eqn:Hnd; cbn; try discriminate.
  { intros E. inversion E; subst. split; [reflexivity |]. left.
    split; [| reflexivity]. right. exists jd. split; [reflexivity |].
    right. exists rsp. auto. }
  destruct (Py.getitem rsp "data") as [data |] eqn:Hd; [| discriminate].
  unfold Py.extend.
  destruct (Py.iterate data) as [items |] eqn:Hi; cbn; [| discriminate].
  destruct (Py.getitem rsp "total") as [t |] eqn:Ht; [| discriminate].
  destruct (Py.int t) as [total |] eqn:Hint; [| discriminate].
  destruct (Z.geb_spec (Py.len (all_data l ++ items)) total) as [Hge | Hlt];
    cbn; [| discriminate].
  intros E. inversion E; subst. split; [reflexivity |]. right.
  exists items, total. split; [| split; [reflexivity | lia]].
  split; [exact Hs |]. exists jd, rsp, data, t. auto 10.
Qed.

Lemma while_true_done l0 w0 fuel : forall pages l w lf w',
  reaches handle l0 w0 pages l w ->
  while_true handle fuel l w = (Done lf, w') ->
  exists pages' l' w'',
    reaches handle l0 w0 pages' l' w''
    /\ w' = after_request w'' (fst (handle (srv w'') url (params_ l'))) url
                          (params_ l')
    /\ ((truncates (snd (handle (srv w'') url (params_ l')))
         /\ all_data lf = all_data l')
        \/ exists items total,
            carries (snd (handle (srv w'') url (params_ l'))) items total
            /\ all_data lf = all_data l' ++ items
            /\ total <= Py.len (all_data lf)).
Proof.
  induction fuel as [| fuel IH]; intros pages l w lf w' Hr Hw;
    [discriminate |].
  cbn [while_true] in Hw. unfold bind in Hw.
  destruct (loop_body handle l w) as [[[[] l1] | e |] w1] eqn:Hb;
    try discriminate.
  - inversion Hw; subst; clear Hw.
    destruct (loop_body_break _ _ _ _ Hb) as (Hw' & [[Ht Hl] | Hc]).
    + exists pages, l, w. subst. auto.
    + destruct Hc as (items & total & Hc & Hl & Hlen).
      exists pages, l, w. split; [exact Hr |]. split; [exact Hw' |].
      right. exists items, total. subst lf. cbn [all_data]. auto.
  - destruct (loop_body_continue handle _ _ _ _ Hb) as (_ & _ & items & Hi).
    apply (IH (pages ++ [items]) l1 w1 lf w'); [| exact Hw].
    now apply (reaches_next handle l0 w0 pages l w items l1 w1).
Qed.

(** X2. A fetch that returns has either read every page in full up to one
    that carried enough records to reach the total it reported, or was cut
    short by a response with a status other than 200 or without the data
    container; in both cases it returns every record of every page it
    read, in order, and nothing else. *)
Theorem fetch_done_complete_or_truncated k region sd ed fuel w0 data w' :
  fetch_eia_electricity_demand handle fuel k region sd ed w0 = (Done data, w') ->
  exists pages l w,
    reaches handle (initial_locals k region sd ed) w0 pages l w
    /\ w' = after_request w (fst (handle (srv w) url (params_ l))) url
                          (params_ l)
    /\ ((truncates (snd (handle (srv w) url (params_ l)))
         /\ data = concat pages)
        \/ exists items total,
            carries (snd (handle (srv w) url (params_ l))) items total
            /\ data = concat pages ++ items
            /\ total <= Py.len data).
Proof.
  rewrite fetch_unfold.
  destruct (while_true handle fuel (initial_locals k region sd ed) w0)
    as [[lf | e |] w1] eqn:Hw; try discriminate.
  intros E. inversion E; subst; clear E.
  destruct (while_true_done _ _ _ _ _ _ _ _ (reaches_start handle _ _) Hw)
    as (pages & l & w & Hr & Hw' & Hcase).
  exists pages, l, w. split; [exact Hr |]. split; [exact Hw' |].
  pose proof (reaches_all_data handle _ _ _ _ _ Hr) as Ha. cbn in Ha.
  rewrite Ha in Hcase. exact Hcase.
Qed.

End FetchMore.

(** ** The fetcher against the paginating API *)

Section FetchRegional.
Import Http Fetch Servers Api.

Lemma regional_server_body cap table l (w : world unit) :
  loop_body (regional_server cap table) l w
  = let matching := table (facets_respondent (params_ l)) in
    let rows := firstn (Z.to_nat (Z.min (length_ (params_ l)) cap))
                       (skipn (Z.to_nat (offset (params_ l))) matching) in
    (Done (if Py.len (all_data l ++ rows) >=? Py.len matching
           then (Break, {| params_ := params_ l;
                           all_data := all_data l ++ rows |})
           else (Continue,
                 {| params_ := set_offset (params_ l) (offset (params_ l) + 5000);
                    all_data := all_data l ++ rows |})),
     after_request w (srv w) url (params_ l)).
Proof.
  cbv zeta.
  apply (loop_body_page (regional_server cap table) l w (srv w)
           (page (firstn (Z.to_nat (Z.min (length_ (params_ l)) cap))
                         (skipn (Z.to_nat (offset (params_ l)))
                                (table (facets_respondent (params_ l)))))
                 (Py.Int (Py.len (table (facets_respondent (params_ l))))))).
  - reflexivity.
  - now apply is_page_page.
Qed.

Lemma firstn_plus {A : Type} (a b : nat) : forall l : list A,
  firstn (a + b) l = firstn a l ++ firstn b (skipn a l).
Proof.
  induction a as [| a IH]; intros l; [reflexivity |].
  destruct l as [| x l]; cbn; [now rewrite firstn_nil | now rewrite IH].
Qed.

(** The loop from page [j] on, when every page so far was full. *)
Lemma regional_pages cap table k region sd ed fuel : forall j w,
  5000 <= cap ->
  (j = 0%nat \/ 5000 * Z.of_nat j < Py.len (table region)) ->
  Py.len (table region) <= 5000 * Z.of_nat (j + fuel) ->
  (1 <= fuel)%nat ->
  let l := {| params_ := set_offset (initial_params k region sd ed)
                                    (5000 * Z.of_nat j);
              all_data := firstn (Z.to_nat (5000 * Z.of_nat j)) (table region) |} in
  let n := Z.to_nat (Z.max 1 ((Py.len (table region) - 5000 * Z.of_nat j
                                + 4999) / 5000)) in
  exists lf,
    while_true (regional_server cap table) fuel l w
    = (Done lf,
       {| srv := tt;
          sent := sent w ++ map (page_request k region sd ed) (seq j n) |})
    /\ all_data lf = table region.
Proof.
  induction fuel as [| fuel IH]; intros j w Hcap Hj Hfuel H1; [lia |].
  cbv zeta.
  set (recs := table region) in *.
  set (p0 := initial_params k region sd ed).
  set (N := Z.to_nat 5000).
  assert (HN : Z.of_nat N = 5000) by (subst N; lia).
  assert (Hbody := regional_server_body cap table
            {| params_ := set_offset p0 (5000 * Z.of_nat j);
               all_data := firstn (Z.to_nat (5000 * Z.of_nat j)) recs |} w).
  cbv zeta in Hbody.
  cbn [params_ all_data set_offset offset length_ facets_respondent
       initial_params p0] in Hbody.
  fold p0 in Hbody. fold recs in Hbody.
  replace (Z.min 5000 cap) with 5000 in Hbody by lia. fold N in Hbody.
  rewrite <- firstn_plus in Hbody.
  assert (Hlen : Py.len (firstn (Z.to_nat (5000 * Z.of_nat j) + N) recs)
                 = Z.min (5000 * Z.of_nat (S j)) (Py.len recs)).
  { unfold Py.len. rewrite length_firstn. lia. }
  rewrite Hlen in Hbody.
  assert (Hw : w = {| srv := tt; sent := sent w |}) by now destruct w as [[] ?].
  destruct (Z.geb_spec (Z.min (5000 * Z.of_nat (S j)) (Py.len recs))
                       (Py.len recs)) as [Hge | Hlt].
  - (* the last page *)
    eexists. split.
    + erewrite while_true_break by exact Hbody.
      unfold after_request. cbn [sent srv].
      replace (Z.to_nat (Z.max 1 ((Py.len recs - 5000 * Z.of_nat j + 4999)
                                  / 5000))) with 1%nat.
      * destruct w as [[] ?]. reflexivity.
      * assert ((Py.len recs - 5000 * Z.of_nat j + 4999) / 5000 < 2)
          by (apply Z.div_lt_upper_bound; lia).
        lia.
    + cbn [all_data]. apply firstn_all2. unfold Py.len in *. lia.
  - (* a full page, and more to come *)
    erewrite while_true_continue by exact Hbody.
    rewrite set_offset_twice.
    destruct (IH (S j) (after_request w (srv w) url
                          (set_offset p0 (5000 * Z.of_nat j))))
      as (lf & Hrun & Hdata); try lia.
    cbv zeta in Hrun. fold recs p0 in Hrun.
    replace (firstn (Z.to_nat (5000 * Z.of_nat j) + N) recs)
      with (firstn (Z.to_nat (5000 * Z.of_nat (S j))) recs)
      by (f_equal; lia).
    replace (5000 * Z.of_nat j + 5000) with (5000 * Z.of_nat (S j)) by lia.
    exists lf. split; [| exact Hdata].
    rewrite Hrun. f_equal. f_equal.
    unfold after_request. cbn [sent].
    rewrite <- app_assoc. f_equal.
    replace (Z.to_nat (Z.max 1 ((Py.len recs - 5000 * Z.of_nat j + 4999)
                                / 5000)))
      with (S (Z.to_nat (Z.max 1 ((Py.len recs - 5000 * Z.of_nat (S j) + 4999)
                                  / 5000)))).
    + reflexivity.
    + replace (Py.len recs - 5000 * Z.of_nat j + 4999)
        with ((Py.len recs - 5000 * Z.of_nat (S j) + 4999) + 1 * 5000) by lia.
      rewrite Z.div_add by lia.
      assert (1 <= (Py.len recs - 5000 * Z.of_nat (S j) + 4999) / 5000)
        by (apply Z.div_le_lower_bound; lia).
      lia.
Qed.

(** The number of requests a fetch of [n] matching rows takes. *)
Lemma regional_fetch cap table k region sd ed fuel (w : world unit) :
  5000 <= cap \/ Py.len (table region) <= cap ->
  Py.len (table region) <= 5000 * Z.of_nat fuel ->
  (1 <= fuel)%nat ->
  fetch_eia_electricity_demand (regional_server cap table) fuel k region sd ed w
  = (Done (table region),
     {| srv := tt;
        sent := sent w
                ++ map (page_request k region sd ed)
                     (seq 0 (Z.to_nat
                               (Z.max 1 ((Py.len (table region) + 4999)
                                         / 5000)))) |}).
Proof.
  intros Hcap Hfuel H1. rewrite fetch_unfold.
  destruct (Z_le_gt_dec 5000 cap) as [H5000 | Hsmall].
  - destruct (regional_pages cap table k region sd ed fuel 0 w H5000
                (or_introl eq_refl) Hfuel H1) as (lf & Hrun & Hdata).
    cbv zeta in Hrun.
    change (5000 * Z.of_nat 0) with 0 in Hrun.
    change (Z.to_nat 0) with 0%nat in Hrun. cbn [firstn] in Hrun.
    unfold initial_locals.
    change (initial_params k region sd ed)
      with (set_offset (initial_params k region sd ed) 0) at 1.
    rewrite Hrun, Hdata, Z.sub_0_r. reflexivity.
  - destruct Hcap as [Hcap | Hfit]; [lia |].
    destruct fuel as [| fuel]; [lia |].
    erewrite while_true_break; cycle 1.
    { rewrite regional_server_body. cbv zeta.
      cbn [initial_locals params_ all_data initial_params length_ offset
           facets_respondent app].
      change (Z.to_nat 0) with 0%nat. cbn [skipn].
      rewrite firstn_all2 by (unfold Py.len in *; lia).
      destruct (Z.geb_spec (Py.len (table region)) (Py.len (table region)));
        [reflexivity | lia]. }
    cbn [all_data]. unfold after_request. cbn [sent].
    replace (Z.to_nat (Z.max 1 ((Py.len (table region) + 4999) / 5000)))
      with 1%nat.
    + destruct w as [[] ?]. reflexivity.
    + assert ((Py.len (table region) + 4999) / 5000 < 2)
        by (apply Z.div_lt_upper_bound; lia).
      lia.
Qed.

(** X3. Against an API that serves pages of the 5000 rows asked for, or
    when all matching rows fit in the one page the API serves, a fetch
    with enough iterations returns exactly the matching rows, in the
    API's order, each once; with n rows matching it sends
    max(1, ceil(n / 5000)) requests. *)
Theorem fetch_regional_complete cap table k region sd ed fuel (w : world unit) :
  5000 <= cap \/ Py.len (table region) <= cap ->
  Py.len (table region) <= 5000 * Z.of_nat fuel ->
  (1 <= fuel)%nat ->
  fetch_eia_electricity_demand (regional_server cap table) fuel k region sd ed w
  = (Done (table region),
     {| srv := tt;
        sent := sent w
                ++ map (page_request k region sd ed)
                     (seq 0 (Z.to_nat
                               (Z.max 1 ((Py.len (table region) + 4999)
                                         / 5000)))) |}).
Proof. apply regional_fetch. Qed.

(** Once the rows accumulated and the rows from the offset on are fewer
    than the rows that match, they stay so. *)
Lemma regional_stuck cap table fuel : forall l (w : world unit),
  cap < 5000 ->
  0 <= offset (params_ l) ->
  Py.len (all_data l)
  + Z.max 0 (Py.len (table (facets_respondent (params_ l)))
             - offset (params_ l))
  < Py.len (table (facets_respondent (params_ l))) ->
  fst (while_true (regional_server cap table) fuel l w) = OutOfFuel.
Proof.
  induction fuel as [| fuel IH]; intros l w Hcap Ho Hinv; [reflexivity |].
  pose proof (regional_server_body cap table l w) as Hbody.
  cbv zeta in Hbody.
  set (recs := table (facets_respondent (params_ l))) in *.
  set (rows := firstn (Z.to_nat (Z.min (length_ (params_ l)) cap))
                      (skipn (Z.to_nat (offset (params_ l))) recs)) in *.
  assert (Hrows : Py.len rows <= Z.max 0 cap
                  /\ Py.len rows
                     <= Z.max 0 (Py.len recs - offset (params_ l))).
  { subst rows. unfold Py.len. rewrite length_firstn, length_skipn. lia. }
  rewrite len_app in Hbody.
  destruct (Z.geb_spec (Py.len (all_data l) + Py.len rows) (Py.len recs));
    [lia |].
  erewrite while_true_continue by exact Hbody.
  apply IH; cbn [params_ all_data set_offset offset facets_respondent];
    fold recs; [exact Hcap | lia |].
  rewrite len_app. lia.
Qed.

(** X4. Against an API that serves fewer than 5000 rows per page, a fetch
    for a query that matches more rows than one page holds never ends:
    the offset moves on by 5000 whatever the page held, the rows in
    between are never asked for, and the accumulated count never reaches
    the total. *)
Theorem fetch_short_pages_diverges cap table k region sd ed (w : world unit) :
  cap < 5000 ->
  Z.max 0 cap < Py.len (table region) ->
  ~ terminates (regional_server cap table) k region sd ed w.
Proof.
  intros Hcap Hn (fuel & o & w' & H & Ho). apply Ho.
  change o with (fst (o, w')). rewrite <- H. rewrite fetch_unfold.
  assert (Hloop : fst (while_true (regional_server cap table) fuel
                         (initial_locals k region sd ed) w) = OutOfFuel).
  { destruct fuel as [| fuel]; [reflexivity |].
    pose proof (regional_server_body cap table
                  (initial_locals k region sd ed) w) as Hbody.
    cbv zeta in Hbody.
    cbn [initial_locals params_ all_data initial_params length_ offset
         facets_respondent app] in Hbody.
    change (Z.to_nat 0) with 0%nat in Hbody. cbn [skipn] in Hbody.
    assert (Hrows : Py.len (firstn (Z.to_nat (Z.min 5000 cap)) (table region))
                    = Z.max 0 cap).
    { unfold Py.len in *. rewrite length_firstn. lia. }
    rewrite Hrows in Hbody.
    destruct (Z.geb_spec (Z.max 0 cap) (Py.len (table region))); [lia |].
    erewrite while_true_continue by exact Hbody.
    apply regional_stuck; cbn [params_ all_data set_offset offset
                                facets_respondent initial_params];
      [exact Hcap | lia |].
    rewrite Hrows. lia. }
  destruct (while_true (regional_server cap table) fuel
              (initial_locals k region sd ed) w) as [[| |] ?];
    cbn [fst] in *; congruence.
Qed.

(** The requests of a run that fetches every region in full. *)
Lemma regional_ingest cap table k sd ed fuel regions : forall acc (w : world unit),
  5000 <= cap ->
  (forall region, In region regions ->
                  Py.len (table region) <= 5000 * Z.of_nat fuel) ->
  (1 <= fuel)%nat ->
  ingest_regions (regional_server cap table) fuel k regions sd ed acc w
  = (Done (acc ++ concat (map table regions)),
     {| srv := tt;
        sent := sent w
                ++ concat
                     (map (fun region =>
                             map (page_request k region sd ed)
                               (seq 0 (Z.to_nat
                                         (Z.max 1
                                            ((Py.len (table region) + 4999)
                                             / 5000)))))
                          regions) |}).
Proof.
  induction regions as [| region rest IH]; intros acc w Hcap Hfuel H1.
  - cbn. rewrite !app_nil_r. destruct w as [[] ?]. reflexivity.
  - erewrite ingest_regions_next; cycle 1.
    { apply regional_fetch; [now left | apply Hfuel; now left | exact H1]. }
    rewrite IH; [| exact Hcap | intros r Hr; apply Hfuel; now right | exact H1].
    cbn [map concat sent]. now rewrite <- !app_assoc.
Qed.

(** X6. Against an API that serves pages of 5000 rows, the loop over the
    regions returns the rows of the first region, then those of the
    second, and so on, after what was accumulated before, and it sends the
    requests of one region only after the last request of the region
    before it. *)
Theorem ingest_regions_in_region_order cap table k sd ed fuel regions acc
    (w : world unit) :
  5000 <= cap ->
  (forall region, In region regions ->
                  Py.len (table region) <= 5000 * Z.of_nat fuel) ->
  (1 <= fuel)%nat ->
  ingest_regions (regional_server cap table) fuel k regions sd ed acc w
  = (Done (acc ++ concat (map table regions)),
     {| srv := tt;
        sent := sent w
                ++ concat
                     (map (fun region =>
                             map (page_request k region sd ed)
                               (seq 0 (Z.to_nat
                                         (Z.max 1
                                            ((Py.len (table region) + 4999)
                                             / 5000)))))
                          regions) |}).
Proof. apply regional_ingest. Qed.

End FetchRegional.

(** ** The loop over the regions *)

Section IngestMore.
Import Http Fetch Api.

Context {server : Type} (handle : handler server).

(** A fetch whose first request fails. *)
Lemma fetch_first_fails k region sd ed fuel w :
  status_code (snd (handle (srv w) url (initial_params k region sd ed))) <> 200 ->
  fetch_eia_electricity_demand handle (S fuel) k region sd ed w
  = (Done [],
     after_request w
       (fst (handle (srv w) url (initial_params k region sd ed)))
       url (initial_params k region sd ed)).
Proof.
  intros Hs. rewrite fetch_unfold.
  rewrite (while_true_break handle fuel _ _ (initial_locals k region sd ed)
             (after_request w
                (fst (handle (srv w) url (initial_params k region sd ed)))
                url (initial_params k region sd ed))); [reflexivity |].
  apply (loop_body_bad_status handle (initial_locals k region sd ed) w _
           (snd (handle (srv w) url (initial_params k region sd ed))));
    [| exact Hs].
  cbn [initial_locals params_].
  now destruct (handle (srv w) url (initial_params k region sd ed)).
Qed.

Lemma ingest_all_fail k sd ed fuel regions : forall acc w,
  (forall s u p, status_code (snd (handle s u p)) <> 200) ->
  fst (ingest_regions handle (S fuel) k regions sd ed acc w) = Done acc
  /\ sent (snd (ingest_regions handle (S fuel) k regions sd ed acc w))
     = sent w ++ map (fun region => page_request k region sd ed 0) regions.
Proof.
  induction regions as [| region rest IH]; intros acc w Hdown.
  - cbn. now rewrite app_nil_r.
  - erewrite ingest_regions_next by (apply fetch_first_fails, Hdown).
    rewrite app_nil_r.
    destruct (IH acc
                (after_request w
                   (fst (handle (srv w) url (initial_params k region sd ed)))
                   url (initial_params k region sd ed)) Hdown) as (Ho & Hs).
    split; [exact Ho |].
    rewrite Hs. cbn [after_request sent map]. rewrite <- app_assoc.
    reflexivity.
Qed.

(** X5. When the API answers every request with a status other than 200
    (an outage, a rejected key), the loop over the regions raises nothing
    and fetches nothing: it returns what was accumulated before, after
    exactly one request per region, at offset 0, in the order of the
    regions. *)
Theorem ingest_regions_all_fail k sd ed fuel regions acc w :
  (forall s u p, status_code (snd (handle s u p)) <> 200) ->
  fst (ingest_regions handle (S fuel) k regions sd ed acc w) = Done acc
  /\ sent (snd (ingest_regions handle (S fuel) k regions sd ed acc w))
     = sent w ++ map (fun region => page_request k region sd ed 0) regions.
Proof. apply ingest_all_fail. Qed.

(** X7. The loop over a list of regions is the loop over a first part of
    the list followed by the loop over the rest, from the records and the
    world the first part ended with; when a fetch of the first part raises
    or does not end, so does the whole loop, in the same world: no request
    is sent for a later region and no record is returned. *)
Theorem ingest_regions_app k sd ed fuel before after acc w :
  ingest_regions handle fuel k (before ++ after) sd ed acc w
  = match ingest_regions handle fuel k before sd ed acc w with
    | (Done acc', w') => ingest_regions handle fuel k after sd ed acc' w'
    | (Raised e, w') => (Raised e, w')
    | (OutOfFuel, w') => (OutOfFuel, w')
    end.
Proof.
  revert acc w. induction before as [| region rest IH]; intros acc w;
    [reflexivity |].
  cbn [app ingest_regions]. unfold bind.
  destruct (fetch_eia_electricity_demand handle fuel k region sd ed w)
    as [[data | e |] w']; [apply IH | reflexivity | reflexivity].
Qed.

(** ** Payloads of the wrong type *)

Lemma fetch_raises_at k region sd ed w0 pages l w fuel e w' :
  reaches handle (initial_locals k region sd ed) w0 pages l w ->
  (length pages < fuel)%nat ->
  loop_body handle l w = (Raised e, w') ->
  fetch_eia_electricity_demand handle fuel k region sd ed w0 = (Raised e, w')
  /\ forall rest acc,
      ingest_regions handle fuel k (region :: rest) sd ed acc w0
      = (Raised e, w').
Proof.
  intros Hr Hf Hb.
  assert (Hfetch : fetch_eia_electricity_demand handle fuel k region sd ed w0
                   = (Raised e, w')).
  { rewrite fetch_unfold.
    rewrite (fetch_stops_after handle _ _ _ _ _ (Raised e) w' fuel Hr);
      [reflexivity | | discriminate | exact Hf].
    now apply while_true_raise. }
  split; [exact Hfetch |]. intros rest acc. now apply ingest_regions_raise.
Qed.

(** X8. A payload of an unexpected type ends the fetch and the loop over
    the regions with the exception of the operation that meets it, and
    the records accumulated are lost with it: a payload, or a "response",
    that is null, a boolean or a number raises TypeError at the membership
    test; a "data" that cannot be iterated raises TypeError at [extend];
    a "total" that [int] does not convert raises the exception of [int],
    after the records of the page were appended. *)
Theorem fetch_payload_type_errors k region sd ed w0 pages l w fuel json_data :
  reaches handle (initial_locals k region sd ed) w0 pages l w ->
  (length pages < fuel)%nat ->
  status_code (snd (handle (srv w) url (params_ l))) = 200 ->
  body (snd (handle (srv w) url (params_ l))) = Some json_data ->
  let w' :=
    after_request w (fst (handle (srv w) url (params_ l))) url (params_ l) in
  let raises e :=
    fetch_eia_electricity_demand handle fuel k region sd ed w0 = (Raised e, w')
    /\ forall rest acc,
        ingest_regions handle fuel k (region :: rest) sd ed acc w0
        = (Raised e, w') in
  let scalar o :=
    match o with
    | Py.None_ | Py.Bool _ | Py.Int _ | Py.Float _ => True
    | _ => False
    end in
  (scalar json_data -> raises TypeError)
  /\ (forall rsp,
      Py.getitem json_data "response" = Val rsp ->
      scalar rsp -> raises TypeError)
  /\ (forall rsp data,
      Py.getitem json_data "response" = Val rsp ->
      Py.getitem rsp "data" = Val data ->
      scalar data -> raises TypeError)
  /\ (forall rsp data items t e,
      Py.getitem json_data "response" = Val rsp ->
      Py.getitem rsp "data" = Val data ->
      Py.iterate data = Val items ->
      Py.getitem rsp "total" = Val t ->
      Py.int t = Exc e -> raises e).
Proof.
  intros Hr Hf Hs Hb w' raises scalar.
  assert (Hraise : forall e,
             loop_body handle l w = (Raised e, w') -> raises e).
  { intros e He. now apply (fetch_raises_at k region sd ed w0 pages l w). }
  clearbody raises. subst w'.
  destruct (handle (srv w) url (params_ l)) as [s' r] eqn:Hh.
  cbn [fst snd] in *.
  apply Z.eqb_eq in Hs.
  assert (Hstart : forall k' : Py.obj -> M (world server) (flow * locals),
             (response <- requests_get handle url (params_ l) ;;
              if negb (status_code response =? 200) then ret (Break, l)
              else json_data <- lift (json response) ;; k' json_data)%monad w
             = k' json_data (after_request w s' url (params_ l))).
  { intros k'. unfold bind, requests_get. rewrite Hh. cbn. rewrite Hs. cbn.
    unfold lift, json. now rewrite Hb. }
  repeat split.
  - intros Hsc. apply Hraise. unfold loop_body. rewrite Hstart.
    unfold bind, lift.
    destruct json_data; try contradiction; reflexivity.
  - intros rsp Hrsp Hsc. apply Hraise. unfold loop_body. rewrite Hstart.
    unfold bind, lift.
    rewrite (getitem_contains _ _ _ Hrsp), Hrsp.
    destruct rsp; try contradiction; reflexivity.
  - intros rsp data Hrsp Hd Hsc. apply Hraise. unfold loop_body.
    rewrite Hstart. unfold bind, lift.
    rewrite (getitem_contains _ _ _ Hrsp), Hrsp.
    rewrite (getitem_contains _ _ _ Hd), Hd.
    destruct data; try contradiction; reflexivity.
  - intros rsp data items t e Hrsp Hd Hi Ht He. apply Hraise.
    unfold loop_body. rewrite Hstart. unfold bind, lift.
    rewrite (getitem_contains _ _ _ Hrsp), Hrsp.
    rewrite (getitem_contains _ _ _ Hd), Hd.
    unfold Py.extend. rewrite Hi. cbn. rewrite Ht, He. reflexivity.
Qed.

End IngestMore.

(** * Further properties of the normalizer *)

Section NormalizerMore.
Import Spark Bronze.

Context {engine : Engine}.
Variable now : Z.

(** ** The date by the length of the period *)

(** X9. The date of a record follows from the length of its period
    alone: a period of 8 characters is read under yyyyMMdd and one of 10
    under yyyy-MM-dd, and the permissive parse is not tried on it, even
    where it would succeed: the date is what the pattern gives, a date
    or null, and when the engine raises on it the pipeline raises. The
    permissive parse is tried on periods of any other length; a record
    without a period gets a null date. *)
Theorem date_follows_period_length records :
  Forall (fun o => raw_record o = true) records ->
  (forall o s e,
     In o records ->
     field "period" o = Some s ->
     (String.length s = 8%nat /\ parse_date "yyyyMMdd" s = Exc e)
     \/ (String.length s = 10%nat /\ parse_date "yyyy-MM-dd" s = Exc e) ->
     exists e', bronze now records = Exc e')
  /\ (Forall (fun o => period_passes o = true) records ->
      exists out,
        bronze now records = Val out
        /\ forall i o,
            nth_error records i = Some o ->
            exists row,
              nth_error (rows out) i = Some row
              /\ (field "period" o = None -> get out row "date" = Null)
              /\ forall s,
                  field "period" o = Some s ->
                  (String.length s = 8%nat ->
                   exists d,
                     parse_date "yyyyMMdd" s = Val d
                     /\ get out row "date" = nullable_value VDate d)
                  /\ (String.length s = 10%nat ->
                      exists d,
                        parse_date "yyyy-MM-dd" s = Val d
                        /\ get out row "date" = nullable_value VDate d)
                  /\ (String.length s <> 8%nat ->
                      String.length s <> 10%nat ->
                      get out row "date"
                      = nullable_value VDate (string_to_date s))).
Proof.
  intros Hraw. split.
  - intros o s e Hin Hs He.
    assert (Ho : normalize_date o = Exc e).
    { unfold normalize_date, normalize_period. rewrite Hs.
      destruct He as [[Hl He] | [Hl He]]; rewrite Hl; exact He. }
    rewrite (bronze_raw now _ Hraw).
    destruct (map_res (normalize now) records) as [rs | e'] eqn:E;
      [| now exists e'].
    apply In_nth_error in Hin as [i Hi].
    destruct (map_res_nth _ _ _ _ _ E Hi) as (n & _ & Hn).
    apply (proj2 (normalize_exc now o e)) in Ho. congruence.
  - intros Hdates.
    destruct (bronze_returns now records Hraw Hdates) as (rs & _ & Hout & Hrows).
    eexists. split; [exact Hout |].
    intros i o Hi. cbn [rows].
    destruct (Hrows i o Hi) as (n & Hn & Hrow).
    eexists. split; [exact Hrow |].
    unfold normalize in Hn.
    destruct (normalize_date o) as [dt |] eqn:Ed; [| discriminate].
    injection Hn as <-.
    unfold get. cbn [Spark.schema].
    change (resolve "date" bronze_schema) with (Val (A := nat) 0%nat).
    cbn [nth to_row with_date date_].
    unfold normalize_date in Ed. split.
    + intros H. rewrite H in Ed. injection Ed as <-. reflexivity.
    + intros s H. rewrite H in Ed. unfold normalize_period in Ed.
      repeat split.
      * intros Hl. rewrite Hl in Ed. now exists dt.
      * intros Hl. rewrite Hl in Ed. now exists dt.
      * intros H8 H10. apply Nat.eqb_neq in H8, H10.
        rewrite H8, H10 in Ed. injection Ed as <-. reflexivity.
Qed.

End NormalizerMore.

(** * The notebook as a whole *)

Section NotebookFacts.
Import Http Fetch Api Spark Bronze Notebook.

Context {server : Type} (handle : handler server) {engine : Engine}.

(** X11. When the API answers every request with a status other than 200,
    the run still completes: after one request per region it replaces
    the bronze table by an empty table with the output schema, whatever
    the table held before. *)
Theorem run_outage_empties_table fuel k ed now st :
  (forall s u p, status_code (snd (handle s u p)) <> 200) ->
  let result := run handle (S fuel) k ed now st in
  fst result = Done tt
  /\ tables (snd result) table_name
     = Some {| Spark.schema := bronze_schema; rows := [] |}
  /\ sent (net (snd result))
     = sent (net st)
       ++ map (fun region => page_request k region START_DATE ed 0) REGIONS.
Proof.
  intros Hdown. cbv zeta. unfold run.
  destruct (ingest_all_fail handle k START_DATE ed fuel REGIONS [] (net st)
              Hdown) as (Ho & Hs).
  destruct (ingest_regions handle (S fuel) k REGIONS START_DATE ed [] (net st))
    as [o w']. cbn [fst snd] in Ho, Hs. subst o.
  rewrite (bronze_raw now [] (Forall_nil _)).
  cbn [map_res res_bind fst snd tables net map].
  split; [reflexivity |]. split; [| exact Hs].
  unfold saveAsTable. now rewrite String.eqb_refl.
Qed.

End NotebookFacts.

Section NotebookRuns.
Import Http Fetch Api Spark Bronze Notebook.

Context {engine : Engine}.

(** X12. Against an API that serves pages of 5000 rows and whose rows are
    RawRecords on whose periods the engine does not raise, a run with
    enough iterations completes and leaves in the bronze table one
    normalized row per matching row, region after region in the order of
    REGIONS and, within a region, in the API's order; every row carries
    the one timestamp of the run. *)
Theorem run_end_to_end cap table fuel k ed now (st : state unit) :
  5000 <= cap ->
  (forall region, In region REGIONS ->
                  Py.len (table region) <= 5000 * Z.of_nat fuel) ->
  (1 <= fuel)%nat ->
  (forall region, In region REGIONS ->
                  Forall (fun o => raw_record o = true) (table region)) ->
  (forall region, In region REGIONS ->
                  Forall (fun o => period_passes o = true) (table region)) ->
  let result := run (regional_server cap table) fuel k ed now st in
  fst result = Done tt
  /\ exists rs,
      map_res (normalize now) (concat (map table REGIONS)) = Val rs
      /\ length rs = length (concat (map table REGIONS))
      /\ Forall (fun n => ingested_at n = now) rs
      /\ tables (snd result) table_name
         = Some {| Spark.schema := bronze_schema; rows := map to_row rs |}.
Proof.
  intros Hcap Hfuel H1 Hraw Hdates. cbv zeta. unfold run.
  rewrite (regional_ingest cap table k START_DATE ed fuel REGIONS [] (net st)
             Hcap Hfuel H1).
  cbn [app].
  destruct (bronze_returns now (concat (map table REGIONS)))
    as (rs & Hrs & Hout & _).
  { apply Forall_concat, Forall_map, Forall_forall. exact Hraw. }
  { apply Forall_concat, Forall_map, Forall_forall. exact Hdates. }
  rewrite Hout. cbn [fst snd tables]. split; [reflexivity |].
  exists rs. split; [exact Hrs |].
  split; [exact (map_res_length _ _ _ Hrs) |].
  split.
  - clear Hout. revert rs Hrs.
    induction (concat (map table REGIONS)) as [| o l IH]; intros rs Hrs.
    + injection Hrs as <-. constructor.
    + cbn [map_res] in Hrs. unfold normalize at 1 in Hrs.
      destruct (normalize_date o); [| discriminate]. cbn [res_bind] in Hrs.
      destruct (map_res (normalize now) l) as [rs' |]; [| discriminate].
      injection Hrs as <-. constructor; [reflexivity | now apply IH].
  - unfold saveAsTable. now rewrite String.eqb_refl.
Qed.

End NotebookRuns.

(** * The further properties on concrete runs *)

Section MoreRuns.
Import Http Fetch Servers Api Spark Bronze Notebook.

(** X2 at a fetch of two rows in one page. *)
Lemma fetch_done_complete_or_truncated_witness :
  exists pages l w,
    reaches (paged_server 5000 [day1; day2])
      (initial_locals "key" "PJM" START_DATE "2024-01-02") (fresh tt)
      pages l w
    /\ after_request (fresh tt) tt url
         (initial_params "key" "PJM" START_DATE "2024-01-02")
       = after_request w
           (fst (paged_server 5000 [day1; day2] (srv w) url (params_ l)))
           url (params_ l)
    /\ ((truncates (snd (paged_server 5000 [day1; day2] (srv w) url (params_ l)))
         /\ [day1; day2] = concat pages)
        \/ exists items total,
            carries (snd (paged_server 5000 [day1; day2] (srv w) url (params_ l)))
              items total
            /\ [day1; day2] = concat pages ++ items
            /\ total <= Py.len [day1; day2]).
Proof.
  exact (fetch_done_complete_or_truncated (paged_server 5000 [day1; day2])
           "key" "PJM" START_DATE "2024-01-02" 1 (fresh tt) [day1; day2] _
           eq_refl).
Defined.

(** X3 at a region with one row. *)
Lemma fetch_regional_complete_witness :
  fetch_eia_electricity_demand (regional_server 5000 one_row_each) 1
    "key" "PJM" START_DATE "2024-01-15" (fresh tt)
  = (Done [row "20240115" "PJM" "12345.6"],
     {| srv := tt;
        sent := [page_request "key" "PJM" START_DATE "2024-01-15" 0] |}).
Proof.
  exact (fetch_regional_complete 5000 one_row_each
           "key" "PJM" START_DATE "2024-01-15" 1 (fresh tt)
           (or_introl (Z.le_refl 5000)) ltac:(vm_compute; discriminate)
           (le_n 1)).
Defined.

(** X4 at an API that serves 1000 rows a page, for 1001 matching rows. *)
Lemma fetch_short_pages_diverges_witness :
  ~ terminates
      (regional_server 1000 (fun _ => repeat day1 (Z.to_nat 1001)))
      "key" "PJM" START_DATE "2024-01-15" (fresh tt).
Proof.
  exact (fetch_short_pages_diverges 1000
           (fun _ => repeat day1 (Z.to_nat 1001))
           "key" "PJM" START_DATE "2024-01-15" (fresh tt)
           ltac:(lia) ltac:(vm_compute; reflexivity)).
Defined.

(** X5 at an API that answers 403 to everything. *)
Lemma ingest_regions_all_fail_witness :
  fst (ingest_regions (status_server 403) 1 "key" REGIONS START_DATE
         "2024-01-15" [] (fresh tt))
  = Done []
  /\ sent (snd (ingest_regions (status_server 403) 1 "key" REGIONS START_DATE
                  "2024-01-15" [] (fresh tt)))
     = map (fun region => page_request "key" region START_DATE "2024-01-15" 0)
         REGIONS.
Proof.
  exact (ingest_regions_all_fail (status_server 403) "key" START_DATE
           "2024-01-15" 0 REGIONS [] (fresh tt)
           (fun s u p => ltac:(cbn; lia))).
Defined.

(** X6 at the ten regions with one row each. *)
Lemma ingest_regions_in_region_order_witness :
  fst (ingest_regions (regional_server 5000 one_row_each) 1 "key" REGIONS
         START_DATE "2024-01-15" [] (fresh tt))
  = Done (map (fun region => row "20240115" region "12345.6") REGIONS).
Proof.
  rewrite (ingest_regions_in_region_order 5000 one_row_each "key" START_DATE
             "2024-01-15" 1 REGIONS [] (fresh tt)
             ltac:(lia) (fun region _ => ltac:(vm_compute; discriminate)) ltac:(lia)).
  reflexivity.
Defined.

(** X8 at a page whose total is "12.5", and at one whose data is null. *)
Lemma fetch_payload_type_errors_witness :
  fst (fetch_eia_electricity_demand (payload_server bad_total_payload)
         1 "key" "PJM" START_DATE "2024-01-15" (fresh tt))
  = Raised ValueError
  /\ fst (fetch_eia_electricity_demand (payload_server null_data_payload)
            1 "key" "PJM" START_DATE "2024-01-15" (fresh tt))
     = Raised TypeError.
Proof.
  split.
  - rewrite (proj1 (proj2 (proj2 (proj2
               (fetch_payload_type_errors (payload_server bad_total_payload)
                  "key" "PJM" START_DATE "2024-01-15" (fresh tt)
                  [] _ _ 1%nat bad_total_payload (reaches_start _ _ _)
                  (le_n 1) eq_refl eq_refl)))
               (Py.Dict [("total", Py.Str "12.5"); ("data", Py.List [day1])])
               (Py.List [day1]) [day1] (Py.Str "12.5") ValueError
               eq_refl eq_refl eq_refl eq_refl eq_refl)).
    reflexivity.
  - rewrite (proj1 (proj1 (proj2 (proj2
               (fetch_payload_type_errors (payload_server null_data_payload)
                  "key" "PJM" START_DATE "2024-01-15" (fresh tt)
                  [] _ _ 1%nat null_data_payload (reaches_start _ _ _)
                  (le_n 1) eq_refl eq_refl)))
               (Py.Dict [("total", Py.Int 0); ("data", Py.None_)])
               Py.None_ eq_refl eq_refl I)).
    reflexivity.
Defined.

(** X9 at a period of 8 characters that only the permissive parse
    reads, and at one on which the engine raises. *)
Lemma date_follows_period_length_witness :
  (exists out r,
     bronze (engine := Reference.engine) 1700000000000000
       [row "2024-1-5" "PJM" "100"] = Val out
     /\ nth_error (rows out) 0 = Some r
     /\ get out r "date" = Null
     /\ Reference.string_to_date "2024-1-5"
        = Some {| year := 2024; month := 1; day := 5 |})
  /\ exists e,
      bronze (engine := Reference.engine) 1700000000000000
        [row "20240115" "PJM" "100"; row "2024011x" "PJM" "100"] = Exc e.
Proof.
  split.
  - destruct (proj2 (date_follows_period_length (engine := Reference.engine)
                       1700000000000000 [row "2024-1-5" "PJM" "100"]
                       ltac:(repeat constructor))
                ltac:(repeat constructor))
      as (out & Hout & Hrows).
    destruct (Hrows 0%nat _ eq_refl) as (r & Hrow & _ & Hdate).
    exists out, r. split; [exact Hout |]. split; [exact Hrow |].
    split; [| reflexivity].
    destruct (proj1 (Hdate "2024-1-5" eq_refl) eq_refl) as (d & Hd & Hget).
    vm_compute in Hd. injection Hd as <-. exact Hget.
  - exact (proj1 (date_follows_period_length (engine := Reference.engine)
                    1700000000000000
                    [row "20240115" "PJM" "100"; row "2024011x" "PJM" "100"]
                    ltac:(repeat constructor))
             (row "2024011x" "PJM" "100") "2024011x" SparkUpgradeException
             (or_intror (or_introl eq_refl)) eq_refl
             (or_introl (conj eq_refl eq_refl))).
Defined.

(** X11 at an API that answers 403 to everything, with an earlier table
    in place. *)
Lemma run_outage_empties_table_witness :
  let result :=
    run (engine := Reference.engine) (status_server 403) 1 "key" "2024-01-15"
      1700000000000000
      {| net := fresh tt; tables := earlier_tables |} in
  fst result = Done tt
  /\ tables (snd result) table_name
     = Some {| Spark.schema := bronze_schema; rows := [] |}.
Proof.
  destruct (run_outage_empties_table (engine := Reference.engine)
              (status_server 403) 0 "key" "2024-01-15" 1700000000000000
              {| net := fresh tt; tables := earlier_tables |}
              (fun s u p => ltac:(cbn; lia)))
    as (Ho & Ht & _).
  split; [exact Ho | exact Ht].
Defined.

(** X12 at the ten regions with one row each. *)
Lemma run_end_to_end_witness :
  let result :=
    run (engine := Reference.engine) (regional_server 5000 one_row_each) 1
      "key" "2024-01-15" 1700000000000000
      {| net := fresh tt; tables := earlier_tables |} in
  fst result = Done tt
  /\ option_map
       (fun df => map (fun r => (get df r "region_code", get df r "date"))
                    (rows df))
       (tables (snd result) table_name)
     = Some (map (fun region =>
                    (VString region,
                     VDate {| year := 2024; month := 1; day := 15 |}))
                 REGIONS).
Proof.
  destruct (run_end_to_end (engine := Reference.engine) 5000 one_row_each 1
              "key" "2024-01-15" 1700000000000000
              {| net := fresh tt; tables := earlier_tables |}
              ltac:(lia) (fun region _ => ltac:(vm_compute; discriminate)) ltac:(lia)
              (fun region _ => ltac:(repeat constructor))
              (fun region _ => ltac:(repeat constructor)))
    as (Ho & rs & Hrs & _ & _ & Ht).
  split; [exact Ho |]. rewrite Ht.
  vm_compute in Hrs. injection Hrs as <-.
  vm_compute. reflexivity.
Defined.

End MoreRuns.
